(** * Spawrious: archive bookkeeping and combination resolution

    A shallow embedding of [spawrious.py]: the download / extract /
    manifest logic, the combination resolver of [SpawriousBenchmark],
    the path rebinder [prepend_path] and the two entry points, followed
    by the properties established about them. *)

From Stdlib Require Import ZArith Floats DecimalString Ascii.
From stdpp Require Import gmap strings list.

Set Warnings "-inexact-float,-register-all".

(** ** Exceptions and the state-and-error monad *)

Inductive exn : Type :=
| KeyError (key : string)
| IndexError
| AssertionError
| AttributeError
| ValueError (msg : string)
| OverflowError
| FileNotFoundError (path : string)
| URLError (url : string)
| ReadError (path : string).

(** A run either finishes with a value or raises; both leave a state. *)
Inductive outcome (S A : Type) : Type :=
| Done (a : A) (s : S)
| Raised (e : exn) (s : S).
Arguments Done {S A} a s.
Arguments Raised {S A} e s.

Definition M (S A : Type) : Type := S -> outcome S A.

Definition ret {S A} (a : A) : M S A := fun s => Done a s.

Definition bind {S A B} (c : M S A) (k : A -> M S B) : M S B :=
  fun s => match c s with
           | Done a s' => k a s'
           | Raised e s' => Raised e s'
           end.

Definition raise {S A} (e : exn) : M S A := fun s => Raised e s.
Definition gets {S A} (f : S -> A) : M S A := fun s => Done (f s) s.
Definition modify {S} (f : S -> S) : M S unit := fun s => Done tt (f s).

Declare Scope py_scope.
Delimit Scope py_scope with py.
Notation "x ← y ; z" := (bind y (fun x => z))
  (at level 20, y at level 100, z at level 200, only parsing) : py_scope.
Notation "' x ← y ; z" := (bind y (fun x => z))
  (at level 20, x pattern, y at level 100, z at level 200, only parsing)
  : py_scope.
Notation "x ;; z" := (bind x (fun _ => z))
  (at level 100, z at level 200, only parsing, right associativity)
  : py_scope.
Open Scope py_scope.

(** [[f(x) for x in xs]] with a body that can raise. *)
Fixpoint for_each {S A B} (f : A -> M S B) (xs : list A) : M S (list B) :=
  match xs with
  | [] => ret []
  | x :: r => y ← f x; ys ← for_each f r; ret (y :: ys)
  end.

(** [for ind, x in enumerate(xs)] collecting one result per iteration;
    [ind] is the index of the first element. *)
Fixpoint for_enumerate {S A B} (f : nat -> A -> M S B) (ind : nat)
    (xs : list A) : M S (list B) :=
  match xs with
  | [] => ret []
  | x :: r =>
      y ← f ind x; ys ← for_enumerate f (Datatypes.S ind) r; ret (y :: ys)
  end.

(** [xs[i]] for a non-negative index. *)
Definition subscript {S A} (xs : list A) (i : nat) : M S A :=
  match xs !! i with
  | Some x => ret x
  | None => raise IndexError
  end.

(** [d[key]] on a dict. *)
Definition getitem {S A} (d : gmap string A) (key : string) : M S A :=
  match d !! key with
  | Some x => ret x
  | None => raise (KeyError key)
  end.

(** ** Python primitives used by the module *)

Module Py.

Definition nl : ascii := "010"%char.
Definition cr : ascii := "013"%char.

(** [str.lower] on ASCII text. *)
Definition lower_char (c : ascii) : ascii :=
  let n := nat_of_ascii c in
  if (65 <=? n)%nat && (n <=? 90)%nat then ascii_of_nat (n + 32) else c.

Fixpoint lower (s : string) : string :=
  match s with
  | EmptyString => EmptyString
  | String c r => String (lower_char c) (lower r)
  end.

(** [s.split(sep)] for a one-character separator; the result is never
    empty. *)
Fixpoint split (sep : ascii) (s : string) : list string :=
  match s with
  | EmptyString => [EmptyString]
  | String c r =>
      if Ascii.eqb c sep then EmptyString :: split sep r
      else match split sep r with
           | [] => [String c EmptyString]
           | w :: ws => String c w :: ws
           end
  end.

(** [xs[0]] on a list of strings ([None] is IndexError). *)
Definition first (xs : list string) : option string := xs !! 0%nat.

Definition startswith (p s : string) : bool := String.prefix p s.

Fixpoint endswith_char (c : ascii) (s : string) : bool :=
  match s with
  | EmptyString => false
  | String a EmptyString => Ascii.eqb a c
  | String _ r => endswith_char c r
  end.

(** [os.path.join(a, b)] of [posixpath]. *)
Definition os_path_join (a b : string) : string :=
  if startswith "/" b then b
  else if String.eqb a "" || endswith_char "/" a then a +:+ b
  else a +:+ "/" +:+ b.

(** [os.path.dirname(p)] of [posixpath]: the head up to the last slash,
    its trailing slashes stripped unless it consists of slashes only. *)
Fixpoint drop_to_slash (l : list ascii) : list ascii :=
  match l with
  | [] => []
  | c :: r => if Ascii.eqb c "/" then l else drop_to_slash r
  end.

Fixpoint drop_slashes (l : list ascii) : list ascii :=
  match l with
  | [] => []
  | c :: r => if Ascii.eqb c "/" then drop_slashes r else l
  end.

Definition os_path_dirname (p : string) : string :=
  let head_rev := drop_to_slash (rev (String.list_ascii_of_string p)) in
  match drop_slashes head_rev with
  | [] => String.string_of_list_ascii (rev head_rev)
  | stripped => String.string_of_list_ascii (rev stripped)
  end.

(** [s.replace(old, new)] for a non-empty [old]: occurrences are found
    left to right and do not overlap.  [skip] counts the characters of
    a matched occurrence that are still to be passed over. *)
Fixpoint replace_from (old new : string) (skip : nat) (s : string) : string :=
  match s with
  | EmptyString => EmptyString
  | String c r =>
      match skip with
      | S k => replace_from old new k r
      | O =>
          if startswith old s
          then new +:+ replace_from old new (String.length old - 1) r
          else String c (replace_from old new 0 r)
      end
  end.

Definition replace (old new s : string) : string := replace_from old new 0 s.

(** Text-mode reading translates the line ends [\r\n] and [\r] to
    [\n] (universal newlines). *)
Fixpoint universal_newlines (s : string) : string :=
  match s with
  | EmptyString => EmptyString
  | String c r =>
      if Ascii.eqb c cr then
        match r with
        | String c' r' =>
            if Ascii.eqb c' nl then String nl (universal_newlines r')
            else String nl (universal_newlines r)
        | EmptyString => String nl EmptyString
        end
      else String c (universal_newlines r)
  end.

(** Lines of a text, each keeping its terminating [\n]; only the last
    line can lack one. *)
Fixpoint keepends (s : string) : list string :=
  match s with
  | EmptyString => []
  | String c r =>
      if Ascii.eqb c nl then String nl EmptyString :: keepends r
      else match keepends r with
           | [] => [String c EmptyString]
           | l :: ls => String c l :: ls
           end
  end.

(** [f.readlines()] on a file opened with mode ['r']; the content is
    taken to be text that decodes. *)
Definition readlines (content : string) : list string :=
  keepends (universal_newlines content).

(** [f"{n}"] for a non-negative integer. *)
Definition str_of_nat (n : nat) : string :=
  NilZero.string_of_uint (Nat.to_uint n).

(** [int(x)] on a float truncates toward zero; infinities and NaN raise. *)
Definition int_of_float (x : float) : exn + Z :=
  match Prim2SF x with
  | S754_zero _ => inr 0%Z
  | S754_finite s m e =>
      let mag := if (0 <=? e)%Z then (Z.pos m * 2 ^ e)%Z
                 else (Z.pos m / 2 ^ (- e))%Z in
      inr (if s then (- mag)%Z else mag)
  | S754_infinity _ => inl OverflowError
  | S754_nan => inl (ValueError "cannot convert float NaN to integer")
  end.

(** [round(x)] on a float: the nearest integer, ties going to the even
    one.  The module itself never rounds; this is what the prose that
    speaks of rounding denotes. *)
Definition round_of_float (x : float) : exn + Z :=
  match Prim2SF x with
  | S754_zero _ => inr 0%Z
  | S754_finite s m e =>
      let mag :=
        if (0 <=? e)%Z then (Z.pos m * 2 ^ e)%Z
        else
          let d := (2 ^ (- e))%Z in
          let q := (Z.pos m / d)%Z in
          let r := (Z.pos m mod d)%Z in
          match (2 * r ?= d)%Z with
          | Lt => q
          | Gt => (q + 1)%Z
          | Eq => if Z.even q then q else (q + 1)%Z
          end in
      inr (if s then (- mag)%Z else mag)
  | S754_infinity _ => inl OverflowError
  | S754_nan => inl (ValueError "cannot convert float NaN to integer")
  end.

(** [float(n)] for a small non-negative integer. *)
Definition float_of_Z (n : Z) : float := PrimFloat.of_uint63 (Uint63.of_Z n).

End Py.


(** ** Archive store, fetcher and extractor *)

Module Archive.
Import Py.

(** What the operation does to the world outside the two files it
    reads and writes itself: the order of fetches, extractions and
    deletions. *)
Inductive event : Type :=
| EvMakedirs (dir : string)
| EvFetch (url dst : string)
| EvExtractStart (tar : string)
| EvExtracted (tar dir : string)
| EvRemove (path : string).

(** The regular files the code tests, reads and writes (archives and
    the manifest), by path, and the trace of events. *)
Record disk : Type := Disk {
  files : gmap string string;
  trace : list event
}.

(** What a request for a URL yields: the whole body, no connection, or
    a connection that breaks after [partial] has been received. *)
Inductive fetch_outcome : Type :=
| Body (content : string)
| Unreachable
| Broken (partial : string).

Definition log (e : event) : M disk unit :=
  modify (fun d => Disk (files d) (trace d ++ [e])%list).

Definition os_path_exists (path : string) : M disk bool :=
  gets (fun d => bool_decide (is_Some (files d !! path))).

Definition read_file (path : string) : M disk string :=
  fun d => match files d !! path with
           | Some content => Done content d
           | None => Raised (FileNotFoundError path) d
           end.

(** [open(path, "wb")] followed by writes of [content]. *)
Definition write_file (path content : string) : M disk unit :=
  modify (fun d => Disk (<[path := content]> (files d)) (trace d)).

(** [open(path, "a")] followed by [f.write(text)]. *)
Definition append_file (path text : string) : M disk unit :=
  modify (fun d =>
    Disk (<[path := default "" (files d !! path) +:+ text]> (files d))
         (trace d)).

Definition os_remove (path : string) : M disk unit :=
  _ ← read_file path;
  modify (fun d => Disk (delete path (files d)) (trace d ++ [EvRemove path])%list).

Section World.

(** The remote host, and whether an archive with a given content
    unpacks.  Archives hold the image tree only, so unpacking touches
    neither the manifest nor an archive file; the files it writes are
    not kept track of, and every way in which an archive fails to
    unpack is held under the one error [ReadError]. *)
Variable remote : string -> fetch_outcome.
Variable unpacks : string -> bool.

Definition _extract_dataset_from_tar (tar_file_name data_dir : string)
    (remove_tar_after_extracting : bool) : M disk unit :=
  let tar_file_dst := os_path_join data_dir tar_file_name in
  log (EvExtractStart tar_file_dst);;
  content ← read_file tar_file_dst;
  if unpacks content then
    log (EvExtracted tar_file_dst (os_path_dirname tar_file_dst));;
    if remove_tar_after_extracting then os_remove tar_file_dst else ret tt
  else raise (ReadError tar_file_dst).

Definition url_dict : gmap string string :=
  list_to_map [
    ("entire_dataset", "https://www.dropbox.com/s/wc9mwza5yk66i83/spawrious224.tar.gz?dl=1");
    ("o2o_easy", "https://www.dropbox.com/s/bonf1elisg2ohiq/spawrious__o2o_easy.tar.gz?dl=1");
    ("o2o_medium", "https://www.dropbox.com/s/xfea065mhh70me1/spawrious__o2o_medium.tar.gz?dl=1");
    ("o2o_hard", "https://www.dropbox.com/s/m5eeqp0nsc31nyt/spawrious__o2o_hard.tar.gz?dl=1");
    ("m2m", "https://www.dropbox.com/s/spwszi0rxbf53f8/spawrious__m2m.tar.gz?dl=1")
  ].

(** Lines 34-36: lower-case the name and fold every [m2m_*] into [m2m]. *)
Definition normalize (dataset_name : string) : string :=
  let dataset_name := lower dataset_name in
  match split "_" dataset_name with
  | w :: _ => if String.eqb w "m2m" then "m2m" else dataset_name
  | [] => dataset_name
  end.

(** Lines 56-57 and 83-84: the test made on the manifest's content. *)
Definition listed (dataset_name content : string) : bool :=
  let lines : gset string := list_to_set (readlines content) in
  bool_decide (dataset_name ∈ lines) || bool_decide ("entire_dataset" ∈ lines).

Definition manifest_path (data_dir : string) : string :=
  os_path_join data_dir "datasets.txt".

(** Lines 54-57 and 81-84 on a disk: the manifest exists and the test
    on its lines succeeds. *)
Definition is_extracted (dataset_name data_dir : string) (d : disk) : bool :=
  match files d !! manifest_path data_dir with
  | Some content => listed dataset_name content
  | None => false
  end.

Definition mark_extracted (data_dir dataset_name : string) : M disk unit :=
  append_file (manifest_path data_dir) (String nl dataset_name).

(** Lines 91-104: the body is copied block by block to the archive
    path; a connection that breaks leaves what was received.  The root
    is taken to be an existing, writable directory, so that opening the
    archive for writing succeeds. *)
Definition fetch (url tar_file_dst : string) : M disk unit :=
  match remote url with
  | Unreachable => raise (URLError url)
  | Body content =>
      write_file tar_file_dst content;; log (EvFetch url tar_file_dst)
  | Broken partial =>
      write_file tar_file_dst partial;; raise (URLError url)
  end.

Definition _download_dataset_if_not_available (dataset_name data_dir : string)
    (remove_tar_after_extracting : bool) : M disk unit :=
  let dataset_name := normalize dataset_name in
  let tar_file_name := "spawrious__" +:+ dataset_name +:+ ".tar.gz" in
  let tar_file_dst := os_path_join data_dir tar_file_name in
  url ← getitem url_dict dataset_name;
  tar_exists ← os_path_exists tar_file_dst;
  if tar_exists then
    manifest ← gets (fun d => files d !! manifest_path data_dir);
    match manifest with
    | Some content =>
        if listed dataset_name content then ret tt
        else
          _extract_dataset_from_tar tar_file_name data_dir
            remove_tar_after_extracting;;
          mark_extracted data_dir dataset_name
    | None =>
        _extract_dataset_from_tar tar_file_name data_dir
          remove_tar_after_extracting;;
        mark_extracted data_dir dataset_name
    end
  else
    manifest ← gets (fun d => files d !! manifest_path data_dir);
    let download :=
      match manifest with
      | Some content => negb (listed dataset_name content)
      | None => true
      end in
    if download then
      fetch url tar_file_dst;;
      _extract_dataset_from_tar tar_file_name data_dir
        remove_tar_after_extracting;;
      mark_extracted data_dir dataset_name
    else ret tt.

(** Lines 420-426.  The root is taken to be a path that [os.makedirs]
    can create or finds in place, so that the call is an event that
    succeeds. *)
Definition allowed_names : list string :=
  ["o2o_easy"; "o2o_medium"; "o2o_hard"; "m2m_easy"; "m2m_medium";
   "m2m_hard"; "m2m"; "entire_dataset"].

Definition download_spawrious_dataset (dataset_name root_dir : string)
    : M disk unit :=
  if bool_decide (lower dataset_name ∈ allowed_names) then
    log (EvMakedirs root_dir);;
    _download_dataset_if_not_available dataset_name root_dir true
  else raise AssertionError.

End World.

(** The manifest's content under a root, if the file exists. *)
Definition manifest (data_dir : string) (d : disk) : option string :=
  files d !! manifest_path data_dir.

(** Modelled from the spec's words for comparison with [listed]: the
    entries of the manifest are its lines without their line ends, and
    a name counts as extracted when an entry equals it or the superset
    marker. *)
Definition entries (content : string) : list string :=
  split nl (universal_newlines content).

Definition spec_is_extracted (name content : string) : bool :=
  bool_decide (name ∈ entries content)
  || bool_decide ("entire_dataset" ∈ entries content).

End Archive.

(** ** Combination resolver, catalog and path rebinder *)

Module Benchmark.
Import Py.

(** The transform pipeline attached to an image folder: the augmenting
    training pipeline or the plain resize-and-normalise one. *)
Inductive transform : Type := Augmenting | Plain.

(** A sample is a file path with the index of its class. *)
Abbreviation sample := (string * nat)%type.

(** A torchvision [ImageFolder] object. *)
Record ImageFolder : Type := mkImageFolder {
  root : string;
  transform_of : transform;
  class_to_idx : gmap string nat;
  samples : list sample
}.

(** The objects allocated so far; an [ImageFolder] is referred to by
    its position, so that two references to one object see the same
    mutations. *)
Abbreviation heap := (list ImageFolder).

(** The dataset objects built over image folders. *)
Inductive dataset : Type :=
| DFolder (ref : nat)
| DSubset (inner : dataset) (indices : list nat)
| DConcat (datasets : list dataset).

(** A training placement [(location, limit)]. *)
Abbreviation placement := (string * Z)%type.

Inductive train_combinations : Type :=
| TrainDict (items : list (list string * list placement))
| TrainList (locations : list string).

Inductive test_combinations : Type :=
| TestDict (items : list (list string * list string))
| TestList (locations : list string).

(** [len(d)] and [d[i]] (path and label of the item; decoding the image
    is not modelled) as torch defines them. *)
Fixpoint dataset_len (h : heap) (d : dataset) : nat :=
  match d with
  | DFolder r => from_option (fun f => length (samples f)) 0 (h !! r)
  | DSubset _ indices => length indices
  | DConcat ds => sum_list (List.map (dataset_len h) ds)
  end.

Fixpoint dataset_get (h : heap) (d : dataset) (i : nat) : option sample :=
  match d with
  | DFolder r =>
      match h !! r with
      | Some f => samples f !! i
      | None => None
      end
  | DSubset inner indices =>
      match indices !! i with
      | Some j => dataset_get h inner j
      | None => None
      end
  | DConcat ds =>
      (fix pick (ds : list dataset) (i : nat) : option sample :=
         match ds with
         | [] => None
         | d :: rest =>
             if (i <? dataset_len h d)%nat then dataset_get h d i
             else pick rest (i - dataset_len h d)
         end) ds i
  end.

(** Lines 184-191: the scan for one class.  [i] is the index of the
    first of [labels], [count_limit] the matches so far. *)
Fixpoint scan_class (class_to_limit : nat) (limit : Z) (labels : list nat)
    (i : nat) (count_limit : Z) : list nat :=
  match labels with
  | [] => []
  | label :: rest =>
      let hit := Nat.eqb label class_to_limit in
      let kept := if hit then [i] else [] in
      let count_limit := if hit then (count_limit + 1)%Z else count_limit in
      if (limit <=? count_limit)%Z then kept
      else (kept ++ scan_class class_to_limit limit rest (S i) count_limit)%list
  end.

(** Lines 183-191: [to_keep_idx] of a training placement. *)
Definition train_keep (labels : list nat) (classes_idx : list nat)
    (limit : Z) : list nat :=
  concat (List.map (fun c => scan_class c limit labels 0 0%Z) classes_idx).

(** Lines 228-230: [to_keep_idx] of a test placement. *)
Definition test_keep (labels : list nat) (classes_idx : list nat) : list nat :=
  List.filter
    (fun i => match labels !! i with
              | Some label => bool_decide (label ∈ classes_idx)
              | None => false
              end)
    (seq 0 (length labels)).

(** Modelled from the spec's words for comparison with [train_keep]:
    the positions of the items of a class in storage order ([i] is the
    position of the first label), and for each class of the group the
    first [cap] of them. *)
Fixpoint positions_of_class (c : nat) (labels : list nat) (i : nat)
    : list nat :=
  match labels with
  | [] => []
  | label :: rest =>
      if Nat.eqb label c then i :: positions_of_class c rest (S i)
      else positions_of_class c rest (S i)
  end.

Definition spec_train_keep (labels : list nat) (classes_idx : list nat)
    (cap : Z) : list nat :=
  concat (List.map
            (fun c => take (Z.to_nat cap) (positions_of_class c labels 0))
            classes_idx).

(** [ConcatDataset(datasets)]; torch asserts the list is not empty. *)
Definition ConcatDataset {S} (datasets : list dataset) : M S dataset :=
  match datasets with
  | [] => raise AssertionError
  | _ => ret (DConcat datasets)
  end.

(** Lines 197-205 and 236-244: one joint dataset per position of the
    first class group's list. *)
Definition join_groups {S} (for_each_class_group : list (list dataset))
    : M S (list dataset) :=
  first_row ← subscript for_each_class_group 0;
  for_each
    (fun group =>
       parts ← for_each
                 (fun k =>
                    row ← subscript for_each_class_group k;
                    subscript row group)
                 (seq 0 (length for_each_class_group));
       ConcatDataset parts)
    (seq 0 (length first_row)).

(** Lines 177-179: the directory of a placement. *)
Definition placement_path (root_dir : string) (type1 : bool) (ind : nat)
    (location : string) : string :=
  if type1 then os_path_join root_dir (str_of_nat ind +:+ "/" +:+ location +:+ "/")
  else os_path_join root_dir ("0/" +:+ location +:+ "/").

Section Storage.

(** [os.path.expanduser], and what scanning a directory yields: the
    class table and the samples in storage order, or nothing when the
    directory is missing or holds no class folder. *)
Variable expanduser : string -> string.
Variable listing : string -> option (gmap string nat * list sample).

(** [ImageFolder(root=path, transform=t)]: a new object. *)
Definition new_ImageFolder (path : string) (t : transform) : M heap nat :=
  fun h =>
    match listing (expanduser path) with
    | Some (c2i, smp) =>
        Done (length h) (h ++ [mkImageFolder (expanduser path) t c2i smp])%list
    | None => Raised (FileNotFoundError path) h
    end.

Definition deref (r : nat) : M heap ImageFolder :=
  fun h => match h !! r with
           | Some f => Done f h
           | None => Raised AttributeError h
           end.

(** Lines 180-193: one training placement.  The scan reads the label
    of [data[i]], which also decodes image [i]; the images are taken to
    decode, so that only the labels matter. *)
Definition train_placement (root_dir : string) (type1 : bool) (t : transform)
    (classes : list string) (ind : nat) (p : placement) : M heap dataset :=
  let '(location, limit) := p in
  data ← new_ImageFolder (placement_path root_dir type1 ind location) t;
  f ← deref data;
  classes_idx ← for_each (getitem (class_to_idx f)) classes;
  let to_keep_idx := train_keep (List.map snd (samples f)) classes_idx limit in
  ret (DSubset (DFolder data) to_keep_idx).

(** Lines 225-232: one test placement. *)
Definition test_placement (root_dir : string) (type1 : bool)
    (classes : list string) (ind : nat) (location : string) : M heap dataset :=
  data ← new_ImageFolder (placement_path root_dir type1 ind location) Plain;
  f ← deref data;
  classes_idx ← for_each (getitem (class_to_idx f)) classes;
  let to_keep_idx := test_keep (List.map snd (samples f)) classes_idx in
  ret (DSubset (DFolder data) to_keep_idx).

(** Lines 171-196: the matrix [for_each_class_group] of the training
    side. *)
Definition train_matrix (root_dir : string) (type1 : bool) (t : transform)
    (items : list (list string * list placement)) : M heap (list (list dataset)) :=
  for_each
    (fun '(classes, comb_list) =>
       for_enumerate (train_placement root_dir type1 t classes) 0 comb_list)
    items.

(** Lines 216-235: the same matrix on the test side. *)
Definition test_matrix (root_dir : string) (type1 : bool)
    (items : list (list string * list string)) : M heap (list (list dataset)) :=
  for_each
    (fun '(classes, comb_list) =>
       for_enumerate (test_placement root_dir type1 classes) 0 comb_list)
    items.

(** [SpawriousBenchmark.__init__]; the result is [self.datasets]. *)
Definition init (train : train_combinations) (test : test_combinations)
    (root_dir : string) (augment type1 : bool) : M heap (list dataset) :=
  let train_transforms := if augment then Augmenting else Plain in
  train_data_list ←
    match train with
    | TrainDict items =>
        for_each_class_group ← train_matrix root_dir type1 train_transforms items;
        join_groups for_each_class_group
    | TrainList locations =>
        for_each
          (fun location =>
             data ← new_ImageFolder
                      (os_path_join root_dir ("0/" +:+ location +:+ "/"))
                      train_transforms;
             ret (DFolder data))
          locations
    end;
  test_data_list ←
    match test with
    | TestDict items =>
        for_each_class_group ← test_matrix root_dir type1 items;
        join_groups for_each_class_group
    | TestList locations =>
        for_enumerate
          (fun ind location =>
             data ← new_ImageFolder
                      (placement_path root_dir type1 ind location) Plain;
             ret (DFolder data))
          0 locations
    end;
  test_data ← ConcatDataset test_data_list;
  ret (test_data :: train_data_list).

End Storage.

(** Lines 264-276: the new path of a root or of a sample. *)
Definition rebase (to_prepend path : string) : string :=
  os_path_join to_prepend (replace "./data/" "" path).

(** Lines 267-276: the samples are rewritten one index at a time. *)
Definition rebase_samples (to_prepend : string) (smp : list sample)
    : list sample :=
  foldl
    (fun acc idx =>
       match acc !! idx with
       | Some (path, label) => <[idx := (rebase to_prepend path, label)]> acc
       | None => acc
       end)
    smp (seq 0 (length smp)).

(** The attribute [.datasets], which only a [ConcatDataset] has, and
    [.dataset], which only a [Subset] has. *)
Definition attr_datasets {S} (d : dataset) : M S (list dataset) :=
  match d with
  | DConcat ds => ret ds
  | _ => raise AttributeError
  end.

Definition attr_dataset {S} (d : dataset) : M S dataset :=
  match d with
  | DSubset inner _ => ret inner
  | _ => raise AttributeError
  end.

(** Lines 264-276: the body of the inner loop, on the object that
    [two.dataset] refers to; only an [ImageFolder] has [root] and
    [samples]. *)
Definition rebase_folder (to_prepend : string) (two : dataset) : M heap unit :=
  inner ← attr_dataset two;
  match inner with
  | DFolder r =>
      fun h =>
        match h !! r with
        | Some f =>
            Done tt
              (<[r := mkImageFolder (rebase to_prepend (root f)) (transform_of f)
                        (class_to_idx f)
                        (rebase_samples to_prepend (samples f))]> h)
        | None => Raised AttributeError h
        end
  | _ => raise AttributeError
  end.

(** [SpawriousBenchmark.prepend_path] on [self.datasets]. *)
Definition prepend_path (datasets : list dataset) (to_prepend : string)
    : M heap unit :=
  test_data ← subscript datasets 0;
  test_groups ← attr_datasets test_data;
  for_each
    (fun one =>
       twos ← attr_datasets one;
       for_each (rebase_folder to_prepend) twos)
    (test_groups ++ drop 1 datasets)%list;;
  ret tt.

(** Lines 278-301. *)
Definition total : Z := 3168.

Definition type1_counts : exn + list Z :=
  match int_of_float (0.97 * float_of_Z total)%float,
        int_of_float (0.87 * float_of_Z total)%float with
  | inr c0, inr c1 => inr [c0; c1]
  | inl e, _ => inl e
  | _, inl e => inl e
  end.

(** Modelled from the spec's words for comparison with
    [type1_counts]: the counts [round(0.97 x 3168)] and
    [round(0.87 x 3168)]. *)
Definition spec_type1_counts : exn + list Z :=
  match round_of_float (0.97 * float_of_Z total)%float,
        round_of_float (0.87 * float_of_Z total)%float with
  | inr c0, inr c1 => inr [c0; c1]
  | inl e, _ => inl e
  | _, inl e => inl e
  end.

Definition lift {S A} (r : exn + A) : M S A :=
  match r with
  | inr a => ret a
  | inl e => raise e
  end.

Definition build_type1_combination {S} (group test : list string)
    (filler : string) : M S (train_combinations * test_combinations) :=
  counts ← lift type1_counts;
  g0 ← subscript group 0; c0 ← subscript counts 0; c1 ← subscript counts 1;
  g1 ← subscript group 1; g2 ← subscript group 2; g3 ← subscript group 3;
  t0 ← subscript test 0; t1 ← subscript test 1;
  t2 ← subscript test 2; t3 ← subscript test 3;
  ret (TrainDict [
         (["bulldog"], [(g0, c0); (g0, c1)]);
         (["dachshund"], [(g1, c0); (g1, c1)]);
         (["labrador"], [(g2, c0); (g2, c1)]);
         (["corgi"], [(g3, c0); (g3, c1)]);
         (["bulldog"; "dachshund"; "labrador"; "corgi"],
          [(filler, (total - c0)%Z); (filler, (total - c1)%Z)])
       ],
       TestDict [
         (["bulldog"], [t0; t0]);
         (["dachshund"], [t1; t1]);
         (["labrador"], [t2; t2]);
         (["corgi"], [t3; t3])
       ]).

(** Lines 303-320. *)
Definition build_type2_combination {S} (group test : list string)
    : M S (train_combinations * test_combinations) :=
  let counts := [total; total] in
  g0 ← subscript group 0; c0 ← subscript counts 0;
  g1 ← subscript group 1; c1 ← subscript counts 1;
  g2 ← subscript group 2; g3 ← subscript group 3;
  t0 ← subscript test 0; t1 ← subscript test 1;
  t2 ← subscript test 2; t3 ← subscript test 3;
  ret (TrainDict [
         (["bulldog"], [(g0, c0); (g1, c1)]);
         (["dachshund"], [(g1, c0); (g0, c1)]);
         (["labrador"], [(g2, c0); (g3, c1)]);
         (["corgi"], [(g3, c0); (g2, c1)])
       ],
       TestDict [
         (["bulldog"], [t0; t1]);
         (["dachshund"], [t1; t0]);
         (["labrador"], [t2; t3]);
         (["corgi"], [t3; t2])
       ]).

(** The six catalog variants (lines 325-416). *)
Inductive variant : Type :=
| Type1_1 | Type1_2 | Type1_3 | Type2_1 | Type2_2 | Type2_3.

Definition group_of (v : variant) : list string :=
  match v with
  | Type1_1 => ["desert"; "jungle"; "dirt"; "snow"]
  | Type1_2 => ["mountain"; "beach"; "dirt"; "jungle"]
  | Type1_3 => ["jungle"; "mountain"; "snow"; "desert"]
  | Type2_1 => ["dirt"; "jungle"; "snow"; "beach"]
  | Type2_2 => ["desert"; "mountain"; "dirt"; "jungle"]
  | Type2_3 => ["beach"; "snow"; "mountain"; "desert"]
  end.

Definition test_of (v : variant) : list string :=
  match v with
  | Type1_1 => ["dirt"; "snow"; "desert"; "jungle"]
  | Type1_2 => ["jungle"; "dirt"; "beach"; "snow"]
  | Type1_3 => ["mountain"; "snow"; "desert"; "jungle"]
  | Type2_1 => ["snow"; "beach"; "dirt"; "jungle"]
  | Type2_2 => ["dirt"; "jungle"; "mountain"; "desert"]
  | Type2_3 => ["desert"; "mountain"; "beach"; "snow"]
  end.

Definition filler_of (v : variant) : option string :=
  match v with
  | Type1_1 => Some "beach"
  | Type1_2 => Some "desert"
  | Type1_3 => Some "beach"
  | _ => None
  end.

Definition combinations_of {S} (v : variant)
    : M S (train_combinations * test_combinations) :=
  match filler_of v with
  | Some filler => build_type1_combination (group_of v) (test_of v) filler
  | None => build_type2_combination (group_of v) (test_of v)
  end.

(** The four classes, in the order of the variants' location lists. *)
Definition four_classes : list string :=
  ["bulldog"; "dachshund"; "labrador"; "corgi"].

Definition is_type1 (v : variant) : bool :=
  match filler_of v with Some _ => true | None => false end.

Section Catalog.

Variable expanduser : string -> string.
Variable listing : string -> option (gmap string nat * list sample).

(** [SpuriousLocationTypeX_Y(root_dir, test_envs, hparams)], with
    [hparams["data_augmentation"]] as [data_augmentation]. *)
Definition SpuriousLocation (v : variant) (root_dir : string)
    (data_augmentation : bool) : M heap (list dataset) :=
  combinations ← combinations_of v;
  init expanduser listing (fst combinations) (snd combinations) root_dir
    data_augmentation (is_type1 v).

End Catalog.

End Benchmark.

(** ** The load entry point *)

Module Entry.
Import Py.

Section World.

Variable remote : string -> Archive.fetch_outcome.
Variable unpacks : string -> bool.

(** [torch.load(path)]: the pickled benchmark object, as its datasets
    and the image folders they refer to, or nothing when the snapshot
    is missing. *)
Variable torch_load : string -> option (list Benchmark.dataset * Benchmark.heap).

Definition filename_map : gmap string string :=
  list_to_map [
    ("o2o_easy", "sc11.pth");
    ("o2o_medium", "sc12.pth");
    ("o2o_hard", "sc13.pth");
    ("m2m_easy", "sc22.pth");
    ("m2m_medium", "sc23.pth");
    ("m2m_hard", "sc21.pth")
  ].

Definition get_torch_dataset (dataset_name root_dir : string)
    : M Archive.disk (list Benchmark.dataset * Benchmark.heap) :=
  Archive.download_spawrious_dataset remote unpacks dataset_name root_dir;;
  match filename_map !! lower dataset_name with
  | None => raise (ValueError ("Invalid dataset type: " +:+ dataset_name))
  | Some filename =>
      let path_to_dataset :=
        os_path_join (os_path_join root_dir "spawrious224") filename in
      match torch_load path_to_dataset with
      | None => raise (FileNotFoundError path_to_dataset)
      | Some (datasets, h) =>
          match Benchmark.prepend_path datasets root_dir h with
          | Done _ h' => ret (datasets, h')
          | Raised e _ => raise e
          end
      end
  end.

End World.

End Entry.

(** ** Predicates used to state the properties *)

Module Shape.
Import Py Benchmark.

(** The datasets [ds] are subsets over the image folders stored at
    [base], [base + 1], ... in this order. *)
Definition well_placed (base : nat) (ds : list dataset) : Prop :=
  forall (j : nat) (d : dataset),
    ds !! j = Some d -> exists indices, d = DSubset (DFolder (base + j)) indices.

(** The image folder a subset is taken from. *)
Definition folder_ref (d : dataset) : nat :=
  match d with
  | DSubset (DFolder r) _ => r
  | _ => 0
  end.

(** The image folders a dataset reads from. *)
Fixpoint folders_of (d : dataset) : list nat :=
  match d with
  | DFolder r => [r]
  | DSubset inner _ => folders_of inner
  | DConcat ds => concat (List.map folders_of ds)
  end.

(** The parts of a [ConcatDataset]. *)
Definition parts (d : dataset) : list dataset :=
  match d with
  | DConcat ds => ds
  | _ => []
  end.

(** [f] is the folder object that scanning [path] creates, [classes]
    have the indices [classes_idx] in it. *)
Definition scanned (expanduser : string -> string)
    (listing : string -> option (gmap string nat * list sample))
    (path : string) (t : transform) (classes : list string)
    (f : ImageFolder) (classes_idx : list nat) : Prop :=
  listing (expanduser path) = Some (class_to_idx f, samples f) /\
  root f = expanduser path /\
  transform_of f = t /\
  Forall2 (fun c i => class_to_idx f !! c = Some i) classes classes_idx.

(** [f] and [indices] are the folder and the kept positions of the
    training placement [p], or of the test placement at [location], of
    the class group [classes] at position [ind]. *)
Definition train_placed (expanduser : string -> string)
    (listing : string -> option (gmap string nat * list sample))
    (root_dir : string) (type1 : bool) (t : transform)
    (classes : list string) (ind : nat) (p : placement)
    (f : ImageFolder) (indices : list nat) : Prop :=
  exists classes_idx,
    scanned expanduser listing (placement_path root_dir type1 ind p.1) t
      classes f classes_idx /\
    indices = train_keep (List.map snd (samples f)) classes_idx p.2.

Definition test_placed (expanduser : string -> string)
    (listing : string -> option (gmap string nat * list sample))
    (root_dir : string) (type1 : bool)
    (classes : list string) (ind : nat) (location : string)
    (f : ImageFolder) (indices : list nat) : Prop :=
  exists classes_idx,
    scanned expanduser listing (placement_path root_dir type1 ind location)
      Plain classes f classes_idx /\
    indices = test_keep (List.map snd (samples f)) classes_idx.


(** Modelled from the spec's words for comparison with [init]: the test
    dataset, element 0 of the record, concatenates the joint test
    collections across all group indices, so that every class group's
    test placement, at whatever position of its list, is a part of the
    joint collection of that position. *)
Definition spec_test_covers (te : list (list string * list string))
    (datasets : list dataset) : Prop :=
  forall k classes locs g location,
    te !! k = Some (classes, locs) -> locs !! g = Some location ->
    exists test_groups col d,
      datasets !! 0%nat = Some (DConcat test_groups) /\
      test_groups !! g = Some (DConcat col) /\ col !! k = Some d.

(** Modelled from the spec's words for comparison with [rebase]: the
    placeholder is removed where it is a prefix of the path, and only
    there. *)
Definition spec_rebase (to_prepend path : string) : string :=
  os_path_join to_prepend
    (if startswith "./data/" path
     then String.substring 7 (String.length path - 7) path
     else path).

(** What [prepend_path] makes of a sample and of a folder object. *)
Definition rebase_sample (to_prepend : string) (s : sample) : sample :=
  (rebase to_prepend s.1, s.2).

Definition rebased (to_prepend : string) (f : ImageFolder) : ImageFolder :=
  mkImageFolder (rebase to_prepend (root f)) (transform_of f) (class_to_idx f)
    (rebase_sample to_prepend <$> samples f).

End Shape.

(** ** Final states, and small worlds on which the code is run *)

Definition final {S A} (o : outcome S A) : S :=
  match o with
  | Done _ s => s
  | Raised _ s => s
  end.

Definition raised {S A} (o : outcome S A) : option exn :=
  match o with
  | Done _ _ => None
  | Raised e _ => Some e
  end.

Module Fixtures.

(** A host that serves every URL, and archives that all unpack. *)
Definition serving (url : string) : Archive.fetch_outcome :=
  Archive.Body ("archive of " +:+ url).
Definition sound (content : string) : bool := true.

(** Archives that are all damaged. *)
Definition damaged (content : string) : bool := false.

Definition empty_disk : Archive.disk := Archive.Disk ∅ [].

(** Every directory holds the four classes: two bulldogs, then one
    corgi, one dachshund and one labrador. *)
Definition kennel_classes : gmap string nat :=
  list_to_map [("bulldog", 0); ("corgi", 1); ("dachshund", 2); ("labrador", 3)].

Definition kennel (path : string)
    : option (gmap string nat * list Benchmark.sample) :=
  Some (kennel_classes,
        [(path +:+ "bulldog/a.png", 0); (path +:+ "bulldog/b.png", 0);
         (path +:+ "corgi/a.png", 1); (path +:+ "dachshund/a.png", 2);
         (path +:+ "labrador/a.png", 3)]).

Definition same_path (path : string) : string := path.

(** A small pair of dict-shaped inputs with two positions per class
    group. *)
Definition small_train : list (list string * list Benchmark.placement) :=
  [(["bulldog"], [("desert", 2%Z); ("jungle", 1%Z)]);
   (["corgi"; "labrador"], [("beach", 1%Z); ("beach", 1%Z)])].

Definition small_test : list (list string * list string) :=
  [(["bulldog"], ["snow"; "snow"]); (["corgi"], ["dirt"; "dirt"])].

(** A training mapping whose second class group has one placement more
    than the first. *)
Definition ragged : list (list string * list Benchmark.placement) :=
  [(["bulldog"], [("desert", 1%Z)]);
   (["corgi"], [("desert", 1%Z); ("jungle", 1%Z)])].

(** A root that holds an archive of [o2o_hard] and no manifest. *)
Definition archive_only_disk : Archive.disk :=
  Archive.Disk {[ "./data/spawrious__o2o_hard.tar.gz" := "truncated" ]} [].

(** No snapshot can be read. *)
Definition no_snapshot (path : string)
    : option (list Benchmark.dataset * Benchmark.heap) := None.

(** A root whose manifest lists [o2o_easy] and then [m2m]. *)
Definition two_entries : string :=
  String Py.nl "o2o_easy" +:+ String Py.nl "m2m".

Definition two_entries_disk : Archive.disk :=
  Archive.Disk {[ "./data/datasets.txt" := two_entries ]} [].

End Fixtures.

(** ** The container class and the command-line entry *)

Module Domain.
Import Py Benchmark.

(** [SpawriousBenchmark.ENVIRONMENTS] (line 130; the subclasses repeat
    it). *)
Definition ENVIRONMENTS : list string := ["Test"; "SC_group_1"; "SC_group_2"].

(** [xs[index]] for an integer index of either sign. *)
Definition list_getitem {S A} (xs : list A) (index : Z) : M S A :=
  let n := Z.of_nat (length xs) in
  let i := if (index <? 0)%Z then (index + n)%Z else index in
  if (0 <=? i)%Z && (i <? n)%Z then subscript xs (Z.to_nat i)
  else raise IndexError.

(** [MultipleDomainDataset.__getitem__] and [__len__] (lines 121-125)
    on [self.datasets]. *)
Definition getitem_dataset {S} (datasets : list dataset) (index : Z)
    : M S dataset :=
  list_getitem datasets index.

Definition len_datasets (datasets : list dataset) : nat := length datasets.

(** Lines 450-452, with the two fields of the configuration object as
    arguments. *)
Definition main (remote : string -> Archive.fetch_outcome)
    (unpacks : string -> bool) (dataset_name root_dir : string)
    : M Archive.disk unit :=
  Archive.download_spawrious_dataset remote unpacks dataset_name root_dir.

End Domain.

(** ** Further small worlds *)

Module Worlds.

(** A host whose connections all break after the first bytes. *)
Definition breaking (url : string) : Archive.fetch_outcome :=
  Archive.Broken "first bytes".

(** A root that holds only a manifest whose last line is the superset
    marker. *)
Definition marked_disk : Archive.disk :=
  Archive.Disk
    {[ "./data/datasets.txt" := String Py.nl "entire_dataset" ]} [].


(** A directory listing that knows bulldogs only. *)
Definition bulldogs_only (path : string)
    : option (gmap string nat * list Benchmark.sample) :=
  Some ({[ "bulldog" := 0%nat ]}, [(path +:+ "bulldog/a.png", 0%nat)]).

(** A directory listing in which only [desert] exists. *)
Definition desert_only (path : string)
    : option (gmap string nat * list Benchmark.sample) :=
  if String.eqb path "./data/0/desert/" then Fixtures.kennel path else None.

(** A training mapping whose second class group is shorter than the
    first. *)
Definition short_second : list (list string * list Benchmark.placement) :=
  [(["bulldog"], [("desert", 1%Z); ("jungle", 1%Z)]);
   (["corgi"], [("desert", 1%Z)])].

(** A training mapping with a single placement, and a test mapping
    whose second class group has one location more than the first. *)
Definition one_train : list (list string * list Benchmark.placement) :=
  [(["bulldog"], [("desert", 1%Z)])].

Definition ragged_test : list (list string * list string) :=
  [(["bulldog"], ["snow"]); (["corgi"], ["dirt"; "jungle"])].

(** A record in which two subsets share one image folder. *)
Definition shared_record : list Benchmark.dataset :=
  [Benchmark.DConcat
     [Benchmark.DConcat
        [Benchmark.DSubset (Benchmark.DFolder 0) [0%nat]]];
   Benchmark.DConcat [Benchmark.DSubset (Benchmark.DFolder 0) [1%nat]]].

Definition shared_heap : list Benchmark.ImageFolder :=
  [Benchmark.mkImageFolder "./data/0/desert/" Benchmark.Plain ∅
     [("./data/0/desert/bulldog/a.png", 0%nat);
      ("./data/0/desert/bulldog/b.png", 0%nat)]].

End Worlds.
(** * Properties *)

#[local] Arguments String.append !_ _ / : simpl nomatch.

(** ** Sanity checks of the Python primitives *)

Example lower_M2M : Py.lower "M2M_Hard" = "m2m_hard".
Proof. reflexivity. Qed.

Example split_m2m : Py.split "_" "m2m_hard" = ["m2m"; "hard"].
Proof. reflexivity. Qed.

Example join_plain : Py.os_path_join "./data" "0/beach/" = "./data/0/beach/".
Proof. reflexivity. Qed.

Example join_slash : Py.os_path_join "./data/" "0/beach/" = "./data/0/beach/".
Proof. reflexivity. Qed.

Example join_absolute : Py.os_path_join "/new" "/abs/0/beach/" = "/abs/0/beach/".
Proof. reflexivity. Qed.

Example dirname_tar :
  Py.os_path_dirname "./data/spawrious__m2m.tar.gz" = "./data".
Proof. reflexivity. Qed.

Example dirname_root : Py.os_path_dirname "/x.tar" = "/".
Proof. reflexivity. Qed.

Example replace_all :
  Py.replace "./data/" "" "./data/0/./data/a.png" = "0/a.png".
Proof. reflexivity. Qed.

Example replace_parent : Py.replace "./data/" "" "../data/0/" = ".0/".
Proof. reflexivity. Qed.

Example readlines_two :
  Py.readlines (String Py.nl ("m2m" +:+ String Py.nl "o2o_easy"))
  = [String Py.nl ""; "m2m" +:+ String Py.nl ""; "o2o_easy"].
Proof. reflexivity. Qed.

Example readlines_crlf :
  Py.readlines ("a" +:+ String Py.cr (String Py.nl "b"))
  = ["a" +:+ String Py.nl ""; "b"].
Proof. reflexivity. Qed.

Example int_trunc :
  Py.int_of_float (0.97 * Py.float_of_Z 3168)%float = inr 3072%Z.
Proof. vm_compute. reflexivity. Qed.

(** ** Facts about the Python primitives *)

Module PyFacts.
Import Py.

Lemma append_nil_r (s : string) : s +:+ "" = s.
Proof. induction s as [|c s IH]; simpl; [done | by rewrite IH]. Qed.

Lemma append_assoc (a b c : string) : (a +:+ b) +:+ c = a +:+ (b +:+ c).
Proof. induction a as [|x a IH]; simpl; [done | by rewrite IH]. Qed.

Lemma append_cancel_l (p a b : string) : p +:+ a = p +:+ b -> a = b.
Proof. induction p as [|x p IH]; simpl; [done | intros [= H]; auto]. Qed.

(** A relative second component is appended to a prefix that depends
    on the first component only. *)
Lemma join_relative (a : string) :
  exists p, forall b, startswith "/" b = false -> os_path_join a b = p +:+ b.
Proof.
  unfold os_path_join.
  destruct (String.eqb a "" || endswith_char "/" a) eqn:E.
  - exists a. intros b ->. done.
  - exists (a +:+ "/"). intros b ->. by rewrite append_assoc.
Qed.

(** Translating line ends commutes with appending a fresh line: what
    precedes the appended [\n] may change, the line after it does not. *)
Lemma universal_newlines_entry (n : string) :
  forall k (c : string), (String.length c <= k)%nat ->
    exists c', universal_newlines (c +:+ String nl n)
               = c' +:+ String nl (universal_newlines n).
Proof.
  induction k as [|k IH]; intros c Hc.
  - destruct c; [|simpl in Hc; lia]. exists "". done.
  - destruct c as [|a c]; [exists ""; done|].
    simpl in Hc. simpl.
    destruct (Ascii.eqb a cr) eqn:Ea.
    + destruct c as [|b c]; simpl.
      * exists "". done.
      * destruct (Ascii.eqb b nl) eqn:Eb.
        -- destruct (IH c) as [c' Hc']; [simpl in Hc; lia|].
           exists (String nl c'). simpl. by rewrite Hc'.
        -- destruct (IH (String b c)) as [c' Hc']; [simpl in *; lia|].
           exists (String nl c'). simpl. simpl in Hc'. by rewrite Hc'.
    + destruct (IH c) as [c' Hc']; [lia|].
      exists (String a c'). simpl. by rewrite Hc'.
Qed.

Lemma keepends_entry (m : string) (c : string) :
  exists l0 ls, keepends (c +:+ String nl m) = (l0 :: ls) ++ keepends m.
Proof.
  induction c as [|a c (l0 & ls & IH)]; simpl.
  - by exists (String nl ""), [].
  - destruct (Ascii.eqb a nl).
    + rewrite IH. by exists (String nl ""), (l0 :: ls).
    + rewrite IH. simpl. by exists (String a l0), ls.
Qed.

(** A name without line ends that is appended as a new line is the
    last of the lines read back. *)
Lemma readlines_appended (c n : string) :
  universal_newlines n = n -> keepends n = [n] ->
  n ∈ readlines (c +:+ String nl n).
Proof.
  intros Hu Hk. unfold readlines.
  destruct (universal_newlines_entry n _ c (le_n _)) as [c' ->].
  destruct (keepends_entry (universal_newlines n) c') as (l0 & ls & ->).
  rewrite Hu, Hk. set_solver.
Qed.

Lemma split_nonempty (sep : ascii) (s : string) : split sep s <> [].
Proof.
  destruct s as [|c r]; simpl; [done|].
  destruct (Ascii.eqb c sep); [done|]. by destruct (split sep r).
Qed.

Lemma keepends_nil (s : string) : keepends s = [] -> s = "".
Proof.
  destruct s as [|c r]; simpl; [done|].
  destruct (Ascii.eqb c nl); [done|]. by destruct (keepends r).
Qed.

(** Lines with their ends against lines without: a string without
    line end that is the first line, or a later line, is the first
    entry, or a later entry. *)
Lemma keepends_split (s : string) :
  (forall x, split nl x = [x] ->
     x ∈ tail (keepends s) -> x ∈ tail (split nl s)) /\
  (forall x, split nl x = [x] ->
     head (keepends s) = Some x -> head (split nl s) = Some x).
Proof.
  induction s as [|c r [IH1 IH2]]; simpl.
  - split; [by intros x _ ?%elem_of_nil|done].
  - destruct (Ascii.eqb c nl) eqn:E; simpl.
    + split.
      * intros x Hx Hin. destruct (keepends r) as [|l ls] eqn:Ek.
        { by apply elem_of_nil in Hin. }
        apply elem_of_cons in Hin as [->|Hin].
        -- specialize (IH2 l Hx eq_refl).
           destruct (split nl r) as [|w ws]; simplify_eq/=. by left.
        -- specialize (IH1 x Hx Hin).
           destruct (split nl r) as [|w ws]; simpl in *; [done|by right].
      * intros x Hx [= <-]. vm_compute in Hx. discriminate.
    + pose proof (split_nonempty nl r) as Hne.
      destruct (split nl r) as [|w ws] eqn:Ew; [done|].
      destruct (keepends r) as [|l ls] eqn:Ek; simpl.
      * apply keepends_nil in Ek as ->. simpl in Ew. injection Ew as <- <-.
        split; [by intros x _ ?%elem_of_nil|done].
      * split; [exact IH1|].
        intros x Hx [= <-]. simpl in Hx. rewrite E in Hx.
        pose proof (split_nonempty nl l) as Hnl.
        destruct (split nl l) as [|w' ws'] eqn:El; [done|].
        injection Hx as -> ->.
        specialize (IH2 l El eq_refl). by injection IH2 as ->.
Qed.

Lemma keepends_in_split (s x : string) :
  split nl x = [x] -> x ∈ keepends s -> x ∈ split nl s.
Proof.
  intros Hx Hin. destruct (keepends_split s) as [H1 H2].
  destruct (keepends s) as [|l ls] eqn:Ek; [by apply elem_of_nil in Hin|].
  apply elem_of_cons in Hin as [->|Hin].
  - specialize (H2 l Hx eq_refl).
    destruct (split nl s) as [|w ws]; simplify_eq/=. by left.
  - specialize (H1 x Hx Hin).
    destruct (split nl s) as [|w ws]; simpl in *; [done|by right].
Qed.

End PyFacts.

(** ** The archive store *)

Module ArchiveFacts.
Import Py Archive PyFacts.

Lemma tar_ne_manifest (data_dir n : string) :
  os_path_join data_dir ("spawrious__" +:+ n +:+ ".tar.gz")
  <> manifest_path data_dir.
Proof.
  unfold manifest_path.
  destruct (join_relative data_dir) as [p Hp].
  rewrite !Hp by done. intros H. apply append_cancel_l in H. discriminate.
Qed.

Lemma url_dict_names (n u : string) :
  url_dict !! n = Some u ->
  n ∈ ["entire_dataset"; "o2o_easy"; "o2o_medium"; "o2o_hard"; "m2m"].
Proof.
  unfold url_dict. intros H. apply elem_of_list_to_map_2 in H.
  repeat (apply elem_of_cons in H as [H|H]; [injection H as -> _; set_solver|]).
  by apply elem_of_nil in H.
Qed.

(** Right after a name is marked, the test on the manifest finds it. *)
Lemma listed_after_mark (n u c : string) :
  url_dict !! n = Some u -> listed n (c +:+ String nl n) = true.
Proof.
  intros H%url_dict_names. unfold listed.
  apply orb_true_iff. left. apply bool_decide_eq_true, elem_of_list_to_set.
  repeat (apply elem_of_cons in H as [->|H];
          [by apply readlines_appended|]).
  by apply elem_of_nil in H.
Qed.

Section World.

Variable remote : string -> fetch_outcome.
Variable unpacks : string -> bool.

(** The extractor in closed form. *)
Lemma extract_run (tar_file_name data_dir : string) (rm : bool) (d : disk) :
  let tar := os_path_join data_dir tar_file_name in
  let started := Disk (files d) (trace d ++ [EvExtractStart tar]) in
  _extract_dataset_from_tar unpacks tar_file_name data_dir rm d =
  match files d !! tar with
  | None => Raised (FileNotFoundError tar) started
  | Some content =>
      if unpacks content then
        if rm then
          Done tt (Disk (delete tar (files d))
                     (trace d ++ [EvExtractStart tar;
                                  EvExtracted tar (os_path_dirname tar);
                                  EvRemove tar]))
        else
          Done tt (Disk (files d)
                     (trace d ++ [EvExtractStart tar;
                                  EvExtracted tar (os_path_dirname tar)]))
      else Raised (ReadError tar) started
  end.
Proof.
  intros tar started.
  unfold _extract_dataset_from_tar, bind, log, modify, read_file, os_remove,
    raise, ret; simpl. fold tar.
  destruct (files d !! tar) as [content|] eqn:E; [|done].
  destruct (unpacks content); [|done].
  destruct rm; simpl; [|by rewrite <- app_assoc].
  unfold bind, read_file, modify; simpl.
  rewrite E. simpl. rewrite <- !app_assoc. reflexivity.
Qed.

Lemma fetch_run (url tar : string) (d : disk) :
  fetch remote url tar d =
  match remote url with
  | Unreachable => Raised (URLError url) d
  | Body content =>
      Done tt (Disk (<[tar := content]> (files d)) (trace d ++ [EvFetch url tar]))
  | Broken partial =>
      Raised (URLError url) (Disk (<[tar := partial]> (files d)) (trace d))
  end.
Proof. unfold fetch. by destruct (remote url). Qed.

(** The whole operation: a missing URL raises, a listed name is left
    alone, anything else is acquired. *)
Lemma download_run (name data_dir : string) (rm : bool) (d : disk) :
  let n := normalize name in
  let tar_name := "spawrious__" +:+ n +:+ ".tar.gz" in
  let tar := os_path_join data_dir tar_name in
  _download_dataset_if_not_available remote unpacks name data_dir rm d =
  match url_dict !! n with
  | None => Raised (KeyError n) d
  | Some url =>
      if is_extracted n data_dir d then Done tt d
      else
        match files d !! tar with
        | Some _ =>
            bind (_extract_dataset_from_tar unpacks tar_name data_dir rm)
              (fun _ => mark_extracted data_dir n) d
        | None =>
            bind (fetch remote url tar)
              (fun _ =>
                 bind (_extract_dataset_from_tar unpacks tar_name data_dir rm)
                   (fun _ => mark_extracted data_dir n)) d
        end
  end.
Proof.
  intros n tar_name tar.
  unfold _download_dataset_if_not_available, is_extracted.
  fold n. fold tar_name. fold tar.
  unfold bind at 1, getitem.
  destruct (url_dict !! n) as [url|]; [|done].
  unfold ret at 1, bind at 1, os_path_exists, gets.
  destruct (files d !! tar) as [c|] eqn:Et.
  - rewrite bool_decide_eq_true_2 by eauto.
    unfold bind at 1.
    destruct (files d !! manifest_path data_dir) as [m|]; [|done].
    by destruct (listed n m).
  - rewrite bool_decide_eq_false_2 by (intros [? ?]; done).
    unfold bind at 1.
    destruct (files d !! manifest_path data_dir) as [m|]; [|done].
    by destruct (listed n m).
Qed.

(** Extraction followed by the manifest update, when it finishes and
    when it raises. *)
Lemma extract_mark_done (n data_dir : string) (rm : bool) (d d1 : disk) :
  let tar_name := "spawrious__" +:+ n +:+ ".tar.gz" in
  let tar := os_path_join data_dir tar_name in
  bind (_extract_dataset_from_tar unpacks tar_name data_dir rm)
    (fun _ => mark_extracted data_dir n) d = Done tt d1 ->
  files d1 !! manifest_path data_dir
  = Some (default "" (files d !! manifest_path data_dir) +:+ String nl n)
  /\ exists post,
      trace d1 = trace d ++ [EvExtractStart tar;
                             EvExtracted tar (os_path_dirname tar)] ++ post.
Proof.
  intros tar_name tar. unfold bind. rewrite extract_run. fold tar.
  pose proof (tar_ne_manifest data_dir n) as Hne. fold tar_name tar in Hne.
  destruct (files d !! tar) as [c|]; [|done].
  destruct (unpacks c); [|done].
  unfold mark_extracted, append_file, modify.
  destruct rm; intros [= <-]; simpl.
  - rewrite lookup_insert_eq, lookup_delete_ne by done.
    split; [done|]. by exists [EvRemove tar].
  - rewrite lookup_insert_eq. split; [done|]. by exists [].
Qed.

Lemma extract_mark_raised (n data_dir : string) (rm : bool) (d d' : disk)
    (e : exn) :
  let tar_name := "spawrious__" +:+ n +:+ ".tar.gz" in
  let tar := os_path_join data_dir tar_name in
  bind (_extract_dataset_from_tar unpacks tar_name data_dir rm)
    (fun _ => mark_extracted data_dir n) d = Raised e d' ->
  d' = Disk (files d) (trace d ++ [EvExtractStart tar])
  /\ match files d !! tar with
     | Some c => unpacks c = false /\ e = ReadError tar
     | None => e = FileNotFoundError tar
     end.
Proof.
  intros tar_name tar. unfold bind. rewrite extract_run. fold tar.
  destruct (files d !! tar) as [c|]; [|by intros [= <- <-]].
  destruct (unpacks c) eqn:Eu.
  - unfold mark_extracted, append_file, modify. by destruct rm.
  - by intros [= <- <-].
Qed.

(** A listed name makes the operation a no-op. *)
Lemma listed_is_noop (name data_dir u : string) (rm : bool) (d : disk) :
  url_dict !! normalize name = Some u ->
  is_extracted (normalize name) data_dir d = true ->
  _download_dataset_if_not_available remote unpacks name data_dir rm d
  = Done tt d.
Proof. intros Hu Hx. rewrite download_run. simpl. by rewrite Hu, Hx. Qed.

(** What a finished run has done: nothing, or an extraction followed
    by the manifest update. *)
Lemma download_done (name data_dir : string) (rm : bool) (d d1 : disk) :
  let n := normalize name in
  let tar := os_path_join data_dir ("spawrious__" +:+ n +:+ ".tar.gz") in
  _download_dataset_if_not_available remote unpacks name data_dir rm d
  = Done tt d1 ->
  exists u, url_dict !! n = Some u /\
    ((d1 = d /\ is_extracted n data_dir d = true) \/
     (is_extracted n data_dir d = false /\
      files d1 !! manifest_path data_dir
      = Some (default "" (files d !! manifest_path data_dir) +:+ String nl n) /\
      exists pre post,
        trace d1 = trace d ++ pre ++ [EvExtracted tar (os_path_dirname tar)]
                     ++ post)).
Proof.
  intros n tar. rewrite download_run. fold n. fold tar.
  pose proof (tar_ne_manifest data_dir n) as Hne. fold tar in Hne.
  destruct (url_dict !! n) as [u|]; [|done]. intros H. exists u. split; [done|].
  destruct (is_extracted n data_dir d) eqn:Ex.
  { left. by injection H as <-. }
  right. split; [done|].
  destruct (files d !! tar) as [c|] eqn:Et.
  - apply extract_mark_done in H as [Hm [post Ht]]. split; [done|].
    exists [EvExtractStart tar], post. by rewrite Ht.
  - unfold bind at 1 in H. rewrite fetch_run in H.
    destruct (remote u) as [b| |p]; [|done..].
    apply extract_mark_done in H as [Hm [post Ht]]. simpl in Hm, Ht.
    rewrite lookup_insert_ne in Hm by done. split; [done|].
    exists [EvFetch u tar; EvExtractStart tar], post.
    rewrite Ht. by rewrite <- !app_assoc.
Qed.

(** What a run that raised has done: the manifest is as it was. *)
Lemma download_raised (name data_dir : string) (rm : bool) (d d' : disk)
    (e : exn) :
  _download_dataset_if_not_available remote unpacks name data_dir rm d
  = Raised e d' ->
  files d' !! manifest_path data_dir = files d !! manifest_path data_dir.
Proof.
  rewrite download_run.
  set (n := normalize name).
  set (tar := os_path_join data_dir ("spawrious__" +:+ n +:+ ".tar.gz")).
  pose proof (tar_ne_manifest data_dir n) as Hne. fold tar in Hne.
  destruct (url_dict !! n) as [u|]; [|by intros [= _ <-]].
  destruct (is_extracted n data_dir d); [done|].
  destruct (files d !! tar) as [c|] eqn:Et.
  - intros [-> _]%extract_mark_raised. done.
  - unfold bind at 1. rewrite fetch_run.
    destruct (remote u) as [b| |p].
    + intros [-> _]%extract_mark_raised. simpl. by rewrite lookup_insert_ne.
    + by intros [= _ <-].
    + intros [= _ <-]. simpl. by rewrite lookup_insert_ne.
Qed.

End World.

(** One half of the manifest test is right: a name without line end
    that the test finds is an entry of the manifest.  The converse
    fails for every entry but the last. *)
Lemma listed_sound (n content : string) :
  split nl n = [n] ->
  listed n content = true -> spec_is_extracted n content = true.
Proof.
  intros Hn. unfold listed, spec_is_extracted, readlines, entries.
  rewrite !orb_true_iff, !bool_decide_eq_true, !elem_of_list_to_set.
  intros [H|H]; [left|right]; by apply keepends_in_split.
Qed.

(** The same for the public entry point, which only adds the call of
    [os.makedirs] to each run. *)
Lemma download_spawrious_dataset_twice (remote : string -> fetch_outcome)
    (unpacks : string -> bool) (name root_dir : string) (d d1 : disk) :
  download_spawrious_dataset remote unpacks name root_dir d = Done tt d1 ->
  download_spawrious_dataset remote unpacks name root_dir d1
  = Done tt (Disk (files d1) (trace d1 ++ [EvMakedirs root_dir])).
Proof.
  unfold download_spawrious_dataset.
  destruct (bool_decide _); [|done]. unfold bind, log, modify.
  intros H.
  destruct (download_done _ _ _ _ _ _ _ H) as (u & Hu & Hcase).
  apply listed_is_noop with u; [done|].
  destruct Hcase as [[-> Hx]|(_ & Hm & _)]; [done|].
  unfold is_extracted. simpl. rewrite Hm. by apply listed_after_mark with u.
Qed.

(** C4: calling the download operation twice in succession, the first
    call succeeding, leaves the disk (manifest, archives) exactly as
    the first call left it, and the second call records no fetch, no
    extraction and no deletion: it returns the state it was given. *)
Theorem download_twice_is_noop (remote : string -> fetch_outcome)
    (unpacks : string -> bool) (name data_dir : string) (rm rm' : bool)
    (d d1 : disk) :
  _download_dataset_if_not_available remote unpacks name data_dir rm d
  = Done tt d1 ->
  _download_dataset_if_not_available remote unpacks name data_dir rm' d1
  = Done tt d1.
Proof.
  intros H. destruct (download_done _ _ _ _ _ _ _ H) as (u & Hu & Hcase).
  apply listed_is_noop with u; [done|].
  destruct Hcase as [[-> Hx]|(_ & Hm & _)]; [done|].
  unfold is_extracted. rewrite Hm. by apply listed_after_mark with u.
Qed.

Lemma download_twice_is_noop_witness :
  _download_dataset_if_not_available Fixtures.serving Fixtures.sound
    "m2m_hard" "./data" false
    (final (_download_dataset_if_not_available Fixtures.serving Fixtures.sound
              "m2m_hard" "./data" true Fixtures.empty_disk))
  = Done tt
      (final (_download_dataset_if_not_available Fixtures.serving
                Fixtures.sound "m2m_hard" "./data" true Fixtures.empty_disk)).
Proof.
  apply (download_twice_is_noop Fixtures.serving Fixtures.sound "m2m_hard"
           "./data" true false Fixtures.empty_disk).
  vm_compute. reflexivity.
Defined.

(** C7: when the run raises, the manifest is as it was before the run;
    when it raises because the archive does not unpack, a further run
    starts the extraction of the same archive again (without fetching)
    and leaves the manifest alone again; and a run changes the manifest
    only by appending the name after an extraction has completed. *)
Theorem manifest_updated_only_after_extraction
    (remote : string -> fetch_outcome) (unpacks : string -> bool)
    (name data_dir : string) (rm : bool) (d : disk)
    (o : outcome disk unit) :
  let n := normalize name in
  let tar := os_path_join data_dir ("spawrious__" +:+ n +:+ ".tar.gz") in
  _download_dataset_if_not_available remote unpacks name data_dir rm d = o ->
  (forall e, raised o = Some e -> manifest data_dir (final o) = manifest data_dir d)
  /\ (forall path, raised o = Some (ReadError path) ->
        path = tar /\
        forall rm',
          _download_dataset_if_not_available remote unpacks name data_dir rm'
            (final o)
          = Raised (ReadError tar)
              (Disk (files (final o)) (trace (final o) ++ [EvExtractStart tar])))
  /\ (manifest data_dir (final o) <> manifest data_dir d ->
        raised o = None /\
        manifest data_dir (final o)
        = Some (default "" (manifest data_dir d) +:+ String nl n) /\
        exists pre post,
          trace (final o)
          = trace d ++ pre ++ [EvExtracted tar (os_path_dirname tar)] ++ post).
Proof.
  intros n tar Ho. unfold manifest.
  assert (Hraised : forall e d', o = Raised e d' ->
            files d' !! manifest_path data_dir = files d !! manifest_path data_dir).
  { intros e d' ->. by eapply download_raised. }
  split; [|split].
  - intros e He. destruct o as [[] d1|e' d']; [done|]. by eapply Hraised.
  - intros path He. destruct o as [[] d1|e' d']; [done|].
    injection He as ->. simpl.
    pose proof (Hraised _ _ eq_refl) as Hman.
    rewrite download_run in Ho. fold n in Ho. fold tar in Ho.
    pose proof (tar_ne_manifest data_dir n) as Hne. fold tar in Hne.
    destruct (url_dict !! n) as [u|] eqn:Hu; [|done].
    destruct (is_extracted n data_dir d) eqn:Hx; [done|].
    assert (Hleft : exists c, path = tar /\ files d' !! tar = Some c
                              /\ unpacks c = false).
    { destruct (files d !! tar) as [c|] eqn:Et.
      - apply extract_mark_raised in Ho as [-> Hc]. fold tar in Hc.
        rewrite Et in Hc. destruct Hc as [Hc [= ->]]. by exists c.
      - unfold bind at 1 in Ho. rewrite fetch_run in Ho.
        destruct (remote u) as [b| |p]; [|done..].
        apply extract_mark_raised in Ho as [-> Hc]. fold tar in Hc.
        simpl in Hc. rewrite lookup_insert_eq in Hc.
        destruct Hc as [Hc [= ->]]. exists b. simpl.
        by rewrite lookup_insert_eq. }
    destruct Hleft as (c & -> & Hc & Hbad). split; [done|]. intros rm'.
    rewrite download_run. fold n. fold tar. rewrite Hu.
    unfold is_extracted in *. rewrite Hman, Hx, Hc.
    unfold bind. rewrite extract_run. fold tar. by rewrite Hc, Hbad.
  - intros Hchg. destruct o as [[] d1|e' d'].
    + simpl in *. split; [done|].
      destruct (download_done _ _ _ _ _ _ _ Ho)
        as (u & Hu & [[-> _]|(_ & Hm & Ht)]); [done|]. done.
    + simpl in Hchg. by erewrite Hraised in Hchg.
Qed.

Lemma manifest_updated_only_after_extraction_witness :
  manifest "./data"
    (final (_download_dataset_if_not_available Fixtures.serving
              Fixtures.damaged "o2o_hard" "./data" true
              Fixtures.archive_only_disk))
  = manifest "./data" Fixtures.archive_only_disk.
Proof.
  pose proof (manifest_updated_only_after_extraction Fixtures.serving
                Fixtures.damaged "o2o_hard" "./data" true
                Fixtures.archive_only_disk _ eq_refl) as [H _].
  apply (H (ReadError "./data/spawrious__o2o_hard.tar.gz")).
  vm_compute. reflexivity.
Defined.

(** C8: a name whose lower-cased first underscore-separated component
    is [m2m] is normalised to [m2m]; the operation on it is the
    operation on [m2m]; and when the archive is absent, the name is not
    listed and fetching and unpacking succeed, it fetches the m2m URL
    into [spawrious__m2m.tar.gz] under the root, unpacks that archive
    and appends the line [m2m] to the manifest. *)
Theorem m2m_names_resolve_to_m2m (remote : string -> fetch_outcome)
    (unpacks : string -> bool) (name : string) :
  first (split "_" (lower name)) = Some "m2m" ->
  normalize name = "m2m" /\
  forall (data_dir : string) (rm : bool) (d : disk),
    _download_dataset_if_not_available remote unpacks name data_dir rm d
    = _download_dataset_if_not_available remote unpacks "m2m" data_dir rm d
    /\
    let tar := os_path_join data_dir "spawrious__m2m.tar.gz" in
    let url :=
      "https://www.dropbox.com/s/spwszi0rxbf53f8/spawrious__m2m.tar.gz?dl=1" in
    forall body,
      files d !! tar = None ->
      is_extracted "m2m" data_dir d = false ->
      remote url = Body body ->
      unpacks body = true ->
      _download_dataset_if_not_available remote unpacks name data_dir rm d
      = Done tt
          (Disk
             (<[manifest_path data_dir :=
                  default "" (manifest data_dir d) +:+ String nl "m2m"]>
                (if rm then delete tar (<[tar := body]> (files d))
                 else <[tar := body]> (files d)))
             (trace d ++ [EvFetch url tar; EvExtractStart tar;
                          EvExtracted tar (os_path_dirname tar)]
                ++ if rm then [EvRemove tar] else [])).
Proof.
  intros Hfirst.
  assert (Hn : normalize name = "m2m").
  { unfold normalize. unfold first in Hfirst.
    destruct (split "_" (lower name)) as [|w ws]; [done|].
    injection Hfirst as ->. done. }
  split; [done|]. intros data_dir rm d. split.
  { unfold _download_dataset_if_not_available. by rewrite Hn. }
  intros tar url body Htar Hx Hr Hu.
  rewrite download_run, Hn.
  replace (url_dict !! "m2m") with (Some url) by (vm_compute; reflexivity).
  rewrite Hx. simpl. fold tar. rewrite Htar.
  pose proof (tar_ne_manifest data_dir "m2m") as Hne. simpl in Hne. fold tar in Hne.
  unfold bind at 1. rewrite fetch_run, Hr.
  unfold bind. rewrite extract_run. simpl. fold tar.
  rewrite lookup_insert_eq, Hu.
  unfold mark_extracted, append_file, modify, manifest.
  destruct rm; simpl.
  - rewrite lookup_delete_ne, lookup_insert_ne by done.
    by rewrite <- !app_assoc.
  - rewrite lookup_insert_ne by done. by rewrite <- !app_assoc.
Qed.

Lemma m2m_names_resolve_to_m2m_witness :
  normalize "M2M_Hard" = "m2m".
Proof.
  apply (m2m_names_resolve_to_m2m Fixtures.serving Fixtures.sound "M2M_Hard").
  reflexivity.
Defined.

Example m2m_easy_fetches_m2m :
  trace (final (_download_dataset_if_not_available Fixtures.serving
                  Fixtures.sound "m2m_easy" "./data" true Fixtures.empty_disk))
  = [EvFetch "https://www.dropbox.com/s/spwszi0rxbf53f8/spawrious__m2m.tar.gz?dl=1"
       "./data/spawrious__m2m.tar.gz";
     EvExtractStart "./data/spawrious__m2m.tar.gz";
     EvExtracted "./data/spawrious__m2m.tar.gz" "./data";
     EvRemove "./data/spawrious__m2m.tar.gz"].
Proof. vm_compute. reflexivity. Qed.

(** C1 (the code departs from the claim): with the manifest holding
    the entries [o2o_easy] and [m2m], in that order, an entry equals
    [o2o_easy], yet the test on the lines read back fails, because
    every line but the last keeps its line end; the operation then
    fetches and unpacks [o2o_easy] once more.  The same manifest is what
    two runs on an empty root, for [o2o_easy] and then [m2m], leave. *)
Theorem listed_misses_terminated_lines :
  spec_is_extracted "o2o_easy" Fixtures.two_entries = true /\
  listed "o2o_easy" Fixtures.two_entries = false /\
  manifest "./data"
    (final (_download_dataset_if_not_available Fixtures.serving Fixtures.sound
              "m2m" "./data" true
              (final (_download_dataset_if_not_available Fixtures.serving
                        Fixtures.sound "o2o_easy" "./data" true
                        Fixtures.empty_disk))))
  = Some Fixtures.two_entries /\
  let o := _download_dataset_if_not_available Fixtures.serving Fixtures.sound
             "o2o_easy" "./data" true Fixtures.two_entries_disk in
  raised o = None /\
  trace (final o)
  = [EvFetch "https://www.dropbox.com/s/bonf1elisg2ohiq/spawrious__o2o_easy.tar.gz?dl=1"
       "./data/spawrious__o2o_easy.tar.gz";
     EvExtractStart "./data/spawrious__o2o_easy.tar.gz";
     EvExtracted "./data/spawrious__o2o_easy.tar.gz" "./data";
     EvRemove "./data/spawrious__o2o_easy.tar.gz"] /\
  manifest "./data" (final o)
  = Some (Fixtures.two_entries +:+ String nl "o2o_easy").
Proof. vm_compute. repeat split; reflexivity. Qed.

End ArchiveFacts.

(** ** The load entry point *)

Module EntryFacts.
Import Py Archive Entry.

Lemma filename_map_names (n f : string) :
  filename_map !! n = Some f ->
  n ∈ ["o2o_easy"; "o2o_medium"; "o2o_hard"; "m2m_easy"; "m2m_medium";
       "m2m_hard"].
Proof.
  unfold filename_map. intros H. apply elem_of_list_to_map_2 in H.
  repeat (apply elem_of_cons in H as [H|H]; [injection H as -> _; set_solver|]).
  by apply elem_of_nil in H.
Qed.

(** C10, as the code has it: the load entry point runs the download
    step first.  For a name outside the six-entry snapshot map: if its
    lower-cased form is one of the eight names the download step
    accepts (so [m2m] and [entire_dataset]), load raises whatever the
    download step raises, and ValueError once that step has finished,
    on the disk it left; if it is not, load raises the AssertionError of
    the download step before anything is done.  Every name of the
    snapshot map is accepted by download, while [m2m] and
    [entire_dataset] are accepted by download and are not in the map. *)
Theorem load_rejects_names_without_snapshot
    (remote : string -> fetch_outcome) (unpacks : string -> bool)
    (torch_load : string -> option (list Benchmark.dataset * Benchmark.heap))
    (dataset_name root_dir : string) (d : disk) :
  filename_map !! lower dataset_name = None ->
  (lower dataset_name ∈ allowed_names ->
     match download_spawrious_dataset remote unpacks dataset_name root_dir d with
     | Done _ d1 =>
         get_torch_dataset remote unpacks torch_load dataset_name root_dir d
         = Raised (ValueError ("Invalid dataset type: " +:+ dataset_name)) d1
     | Raised e d' =>
         get_torch_dataset remote unpacks torch_load dataset_name root_dir d
         = Raised e d'
     end)
  /\ (lower dataset_name ∉ allowed_names ->
        get_torch_dataset remote unpacks torch_load dataset_name root_dir d
        = Raised AssertionError d)
  /\ (forall n, is_Some (filename_map !! n) -> n ∈ allowed_names)
  /\ (forall n, n ∈ ["m2m"; "entire_dataset"] ->
        n ∈ allowed_names /\ filename_map !! n = None).
Proof.
  intros Hmap. split_and!.
  - intros _. unfold get_torch_dataset, bind.
    destruct (download_spawrious_dataset _ _ _ _ _) as [[] d1|e d']; [|done].
    by rewrite Hmap.
  - intros Hout. unfold get_torch_dataset, bind, download_spawrious_dataset.
    by rewrite bool_decide_eq_false_2.
  - intros n [f Hf]. apply filename_map_names in Hf. unfold allowed_names.
    repeat (apply elem_of_cons in Hf as [->|Hf]; [by repeat constructor|]).
    by apply elem_of_nil in Hf.
  - intros n Hn. unfold allowed_names.
    repeat (apply elem_of_cons in Hn as [->|Hn];
            [split; [by repeat constructor|vm_compute; reflexivity]|]).
    by apply elem_of_nil in Hn.
Qed.

Lemma load_rejects_names_without_snapshot_witness :
  get_torch_dataset Fixtures.serving Fixtures.sound Fixtures.no_snapshot
    "M2M" "./data" Fixtures.empty_disk
  = Raised (ValueError "Invalid dataset type: M2M")
      (final (download_spawrious_dataset Fixtures.serving Fixtures.sound
                "M2M" "./data" Fixtures.empty_disk)).
Proof.
  pose proof (load_rejects_names_without_snapshot Fixtures.serving
                Fixtures.sound Fixtures.no_snapshot "M2M" "./data"
                Fixtures.empty_disk eq_refl) as [H _].
  apply H. vm_compute. by repeat constructor.
Defined.

(** C10 as stated fails: for a name outside the snapshot map that the
    download step does not accept either, load raises AssertionError,
    not ValueError. *)
Lemma load_raises_assertion_not_value_error :
  filename_map !! lower "imagenet" = None /\
  raised (get_torch_dataset Fixtures.serving Fixtures.sound Fixtures.no_snapshot
            "imagenet" "./data" Fixtures.empty_disk)
  = Some AssertionError /\
  ~ (exists msg,
       raised (get_torch_dataset Fixtures.serving Fixtures.sound
                 Fixtures.no_snapshot "imagenet" "./data" Fixtures.empty_disk)
       = Some (ValueError msg)).
Proof.
  assert (H : raised (get_torch_dataset Fixtures.serving Fixtures.sound
                        Fixtures.no_snapshot "imagenet" "./data"
                        Fixtures.empty_disk) = Some AssertionError)
    by (vm_compute; reflexivity).
  split; [vm_compute; reflexivity|]. split; [done|].
  intros [msg Hmsg]. rewrite H in Hmsg. discriminate.
Qed.

End EntryFacts.

(** ** The per-class scan of a training placement *)

Module ScanFacts.
Import Benchmark.

(** With a limit of at least one, the scan keeps the first
    [limit - count_limit] positions of the class. *)
Lemma scan_class_take (c : nat) (limit : Z) (labels : list nat) :
  forall (i : nat) (count : Z),
    (count < limit)%Z ->
    scan_class c limit labels i count
    = take (Z.to_nat (limit - count)) (positions_of_class c labels i).
Proof.
  induction labels as [|label rest IH]; intros i count Hlt; simpl.
  - by rewrite take_nil.
  - destruct (Nat.eqb label c).
    + destruct (Z.leb_spec limit (count + 1)) as [Hle|Hgt].
      * replace (Z.to_nat (limit - count)) with 1%nat by lia.
        simpl. by rewrite take_0.
      * rewrite IH by lia.
        replace (Z.to_nat (limit - count))
          with (S (Z.to_nat (limit - (count + 1)))) by lia.
        done.
    + destruct (Z.leb_spec limit count) as [Hle|Hgt]; [lia|].
      simpl. by apply IH.
Qed.

(** With a limit below one, the scan stops after the first item, which
    it keeps when it is of the class. *)
Lemma scan_class_nonpositive (c : nat) (limit : Z) (labels : list nat) (i : nat) :
  (limit <= 0)%Z ->
  scan_class c limit labels i 0
  = match labels with
    | label :: _ => if Nat.eqb label c then [i] else []
    | [] => []
    end.
Proof.
  intros Hle. destruct labels as [|label rest]; simpl; [done|].
  destruct (Nat.eqb label c).
  - by destruct (Z.leb_spec limit (0 + 1)) as [?|?]; [|lia].
  - by destruct (Z.leb_spec limit 0) as [?|?]; [|lia].
Qed.

Lemma positions_of_class_spec (c : nat) (labels : list nat) :
  forall (i j : nat),
    j ∈ positions_of_class c labels i <->
    (i <= j)%nat /\ labels !! (j - i)%nat = Some c.
Proof.
  induction labels as [|label rest IH]; intros i j; simpl.
  - split; [by intros ?%elem_of_nil | by intros [_ ?]].
  - assert (Hrest : j ∈ positions_of_class c rest (S i) <->
              (i < j)%nat /\ (label :: rest) !! (j - i)%nat = Some c).
    { rewrite IH. split.
      - intros [Hle Hl]. split; [lia|].
        replace (j - i)%nat with (S (j - S i)) by lia. done.
      - intros [Hlt Hl]. split; [lia|].
        replace (j - i)%nat with (S (j - S i)) in Hl by lia. done. }
    destruct (Nat.eqb_spec label c) as [->|Hne].
    + rewrite elem_of_cons, Hrest. split.
      * intros [->|[Hlt Hl]]; [|split; [lia|done]].
        split; [lia|]. by rewrite Nat.sub_diag.
      * intros [Hle Hl]. destruct (decide (j = i)) as [->|Hji]; [by left|].
        right. split; [lia|done].
    + rewrite Hrest. split.
      * intros [Hlt Hl]. split; [lia|done].
      * intros [Hle Hl]. split; [|done].
        destruct (decide (j = i)) as [->|Hji]; [|lia].
        rewrite Nat.sub_diag in Hl. simpl in Hl. congruence.
Qed.

(** For a cap of at least one the resolver keeps what the prose says:
    for each class of the group the first [cap] positions of that
    class. *)
Lemma train_keep_first_cap (labels classes_idx : list nat) (cap : Z) :
  (1 <= cap)%Z ->
  train_keep labels classes_idx cap = spec_train_keep labels classes_idx cap.
Proof.
  intros Hcap. unfold train_keep, spec_train_keep. f_equal.
  apply map_ext. intros c. rewrite scan_class_take by lia.
  by rewrite Z.sub_0_r.
Qed.

(** For a group of one class and a cap of at least one, at most [cap]
    items are kept, all of that class and none twice. *)
Lemma train_keep_single (labels : list nat) (c : nat) (cap : Z) :
  (1 <= cap)%Z ->
  (length (train_keep labels [c] cap) <= Z.to_nat cap)%nat /\
  forall j, j ∈ train_keep labels [c] cap -> labels !! j = Some c.
Proof.
  intros Hcap. rewrite train_keep_first_cap by done.
  unfold spec_train_keep. simpl. rewrite app_nil_r. split.
  - rewrite length_take. lia.
  - intros j Hj. apply elem_of_take in Hj as (k & Hk & _).
    apply list_elem_of_lookup_2 in Hk.
    apply positions_of_class_spec in Hk as [_ Hk].
    by rewrite Nat.sub_0_r in Hk.
Qed.

(** C3 (the code departs from the claim): with a cap of zero the scan
    still keeps the first item when it is of the class, so one item is
    kept where the claim allows none.  The first conjunct is the scan on
    the labels of a directory, the second the training subset that the
    constructor builds for the placement [("desert", 0)] of the class
    group [("bulldog",)]. *)
Theorem zero_cap_keeps_first_item :
  train_keep [0; 0; 1; 2; 3]%nat [0%nat] 0 = [0%nat] /\
  exists datasets h,
    init Fixtures.same_path Fixtures.kennel
      (TrainDict [(["bulldog"], [("desert", 0%Z)])])
      (TestDict [(["bulldog"], ["beach"])])
      "./data/" true false [] = Done datasets h /\
    datasets !! 1%nat = Some (DConcat [DSubset (DFolder 0) [0%nat]]) /\
    List.map (dataset_len h) datasets = [2; 1]%nat.
Proof.
  split; [reflexivity|]. eexists _, _.
  split; [vm_compute; reflexivity|]. split; reflexivity.
Qed.

End ScanFacts.

(** ** Loops in the monad *)

Module LoopFacts.

Lemma for_each_getitem {S A} (m : gmap string A) (keys : list string)
    (s s' : S) (vals : list A) :
  for_each (getitem m) keys s = Done vals s' ->
  s' = s /\ Forall2 (fun k v => m !! k = Some v) keys vals.
Proof.
  revert vals. induction keys as [|k keys IH]; intros vals; simpl.
  - intros [= <- <-]. by split.
  - unfold bind, getitem at 1. destruct (m !! k) as [v|] eqn:Ek; [|done].
    unfold ret at 1.
    destruct (for_each (getitem m) keys s) as [vs s1|e s1] eqn:E; [|done].
    intros [= <- <-]. destruct (IH vs eq_refl) as [-> HF].
    split; [done|]. by constructor.
Qed.

(** A loop whose body leaves the state alone leaves it alone. *)
Lemma for_each_pure {S A B} (f : A -> M S B) (xs : list A) :
  (forall x s, x ∈ xs -> exists r, f x s = r /\ final r = s) ->
  forall s, final (for_each f xs s) = s.
Proof.
  induction xs as [|x xs IH]; intros Hf s; simpl; [done|].
  unfold bind. destruct (Hf x s) as (r & Hr & Hs); [by left|].
  rewrite Hr. destruct r as [y s1|e s1]; simpl in Hs; subst s1; [|done].
  specialize (IH (fun x s Hx => Hf x s (list_elem_of_further _ _ _ Hx)) s).
  destruct (for_each f xs s) as [ys s2|e s2]; simpl in *; by subst.
Qed.

(** A finished loop has run its body on every element, in order, each
    time from the state the previous element left. *)
Lemma for_each_done {S A B} (f : A -> M S B) (P : A -> B -> Prop)
    (I : S -> Prop) :
  (forall x s y s', I s -> f x s = Done y s' -> s' = s /\ P x y) ->
  forall xs s ys s',
    I s -> for_each f xs s = Done ys s' -> s' = s /\ Forall2 P xs ys.
Proof.
  intros Hf. induction xs as [|x xs IH]; intros s ys s' Hs; simpl.
  - intros [= <- <-]. by split.
  - unfold bind.
    destruct (f x s) as [y s1|e s1] eqn:E1; [|done].
    destruct (Hf _ _ _ _ Hs E1) as [-> Hy].
    destruct (for_each f xs s) as [zs s2|e s2] eqn:E2; [|done].
    intros [= <- <-]. destruct (IH _ _ _ Hs E2) as [-> HF].
    split; [done|]. by constructor.
Qed.

Lemma for_each_cons {S A B} (f : A -> M S B) (x : A) (xs : list A) (s : S) :
  for_each f (x :: xs) s
  = match f x s with
    | Done y s1 =>
        match for_each f xs s1 with
        | Done ys s2 => Done (y :: ys) s2
        | Raised e s2 => Raised e s2
        end
    | Raised e s1 => Raised e s1
    end.
Proof. reflexivity. Qed.

(** A relation that every run of the body respects is respected by a
    finished loop. *)
Lemma for_each_mono {S A B} (R : S -> S -> Prop) `{!PreOrder R}
    (f : A -> M S B) :
  (forall x s y s', f x s = Done y s' -> R s s') ->
  forall xs s ys s', for_each f xs s = Done ys s' -> R s s'.
Proof.
  intros Hf. induction xs as [|x xs IH]; intros s ys s'; simpl.
  - by intros [= <- <-].
  - unfold bind.
    destruct (f x s) as [y s1|e s1] eqn:E1; [|done].
    destruct (for_each f xs s1) as [zs s2|e s2] eqn:E2; [|done].
    intros [= <- <-]. etrans; [by eapply Hf | by eapply IH].
Qed.

Lemma for_enumerate_mono {S A B} (R : S -> S -> Prop) `{!PreOrder R}
    (f : nat -> A -> M S B) :
  (forall i x s y s', f i x s = Done y s' -> R s s') ->
  forall xs i s ys s', for_enumerate f i xs s = Done ys s' -> R s s'.
Proof.
  intros Hf. induction xs as [|x xs IH]; intros i s ys s'; simpl.
  - by intros [= <- <-].
  - unfold bind.
    destruct (f i x s) as [y s1|e s1] eqn:E1; [|done].
    destruct (for_enumerate f (Datatypes.S i) xs s1) as [zs s2|e s2] eqn:E2; [|done].
    intros [= <- <-]. etrans; [by eapply Hf | by eapply IH].
Qed.

End LoopFacts.

(** ** Placements and the matrix of sub-collections *)

Module ResolverFacts.
Import Py Benchmark Shape LoopFacts.

(** The joint datasets are the columns of the matrix, one per position
    of its first row. *)
Lemma join_groups_done {S} (m : list (list dataset)) (s s' : S)
    (js : list dataset) :
  join_groups m s = Done js s' ->
  s' = s /\
  exists first_row,
    m !! 0%nat = Some first_row /\ length js = length first_row /\
    forall g, (g < length first_row)%nat ->
      exists col,
        js !! g = Some (DConcat col) /\ length col = length m /\
        forall k row, m !! k = Some row ->
          exists d, row !! g = Some d /\ col !! k = Some d.
Proof.
  unfold join_groups, bind at 1, subscript at 1.
  destruct (m !! 0%nat) as [first_row|] eqn:E0; [|done].
  unfold ret at 1. intros H.
  eapply (for_each_done _
            (fun g one =>
               exists col, one = DConcat col /\ length col = length m /\
                 forall k row, m !! k = Some row ->
                   exists d, row !! g = Some d /\ col !! k = Some d)
            (fun _ => True)) in H as [-> HF]; [|clear H|done].
  - split; [done|]. exists first_row. split; [done|].
    pose proof (Forall2_length _ _ _ HF) as Hlen. rewrite length_seq in Hlen.
    split; [done|]. intros g Hg.
    destruct (Forall2_lookup_l _ _ _ g g HF) as (one & Hone & col & -> & Hcol);
      [by apply lookup_seq_lt|].
    by exists col.
  - intros g s0 one s1 _. unfold bind at 1.
    destruct (for_each _ (seq 0 (length m)) s0) as [col s2|e s2] eqn:E1; [|done].
    eapply (for_each_done _
              (fun k d => exists row, m !! k = Some row /\ row !! g = Some d)
              (fun _ => True)) in E1 as [-> HF]; [| |done].
    + unfold ConcatDataset. destruct col as [|d0 col0] eqn:Ec; [done|].
      rewrite <- Ec in *. intros [= <- <-]. split; [done|].
      exists col. split; [done|].
      pose proof (Forall2_length _ _ _ HF) as Hlen. rewrite length_seq in Hlen.
      split; [done|]. intros k row Hk.
      destruct (Forall2_lookup_l _ _ _ k k HF) as (d & Hd & row' & Hr' & Hg).
      { apply lookup_seq_lt. by eapply lookup_lt_Some. }
      exists d. split; [congruence|done].
    + intros k s3 d s4 _. unfold bind, subscript.
      destruct (m !! k) as [row|]; [|done]. unfold ret at 1.
      destruct (row !! g) as [d'|] eqn:Eg; [|done].
      intros [= <- <-]. split; [done|]. by exists row.
Qed.

Section Alloc.

(** A loop body that allocates one image folder and returns a subset
    over it, described by [Q]. *)
Context {A C : Type}.
Variable step : C -> nat -> A -> M heap dataset.
Variable Q : C -> nat -> A -> ImageFolder -> list nat -> Prop.
Hypothesis step_done :
  forall c i x h d h',
    step c i x h = Done d h' ->
    exists f indices,
      h' = h ++ [f] /\ d = DSubset (DFolder (length h)) indices /\
      Q c i x f indices.

Lemma row_done (c : C) :
  forall (xs : list A) (i : nat) (h : heap) (row : list dataset) (h' : heap),
    for_enumerate (step c) i xs h = Done row h' ->
    exists fs,
      h' = h ++ fs /\ length fs = length xs /\ length row = length xs /\
      forall g x, xs !! g = Some x ->
        exists f indices,
          fs !! g = Some f /\
          row !! g = Some (DSubset (DFolder (length h + g)) indices) /\
          Q c (i + g) x f indices.
Proof.
  induction xs as [|x xs IH]; intros i h row h'; simpl.
  - intros [= <- <-]. exists []. rewrite app_nil_r. by repeat split.
  - unfold bind at 1.
    destruct (step c i x h) as [d h1|e h1] eqn:E1; [|done].
    unfold bind at 1.
    destruct (for_enumerate (step c) (S i) xs h1) as [ds h2|e h2] eqn:E2;
      [|done].
    intros [= <- <-].
    destruct (step_done _ _ _ _ _ _ E1) as (f & idx & -> & -> & HQ).
    destruct (IH _ _ _ _ E2) as (fs & -> & Hfs & Hrow & Hall).
    exists (f :: fs). rewrite <- app_assoc. simpl.
    repeat split; [by rewrite Hfs | by rewrite Hrow |].
    intros [|g] y Hy; simpl in *.
    + injection Hy as <-. exists f, idx.
      rewrite !Nat.add_0_r. by repeat split.
    + destruct (Hall g y Hy) as (f' & idx' & Hf' & Hr' & HQ').
      exists f', idx'. rewrite length_app in Hr'. simpl in Hr'.
      replace (length h + S g)%nat with (length h + 1 + g)%nat by lia.
      replace (i + S g)%nat with (S i + g)%nat by lia. by repeat split.
Qed.

Lemma matrix_done :
  forall (items : list (C * list A)) (h : heap) (m : list (list dataset))
         (h' : heap),
    for_each (fun '(c, xs) => for_enumerate (step c) 0 xs) items h = Done m h' ->
    exists fs,
      h' = h ++ fs /\ length m = length items /\
      length fs = length (concat m) /\
      well_placed (length h) (concat m) /\
      forall k c xs, items !! k = Some (c, xs) ->
        exists row,
          m !! k = Some row /\ length row = length xs /\
          forall g x, xs !! g = Some x ->
            exists r f indices,
              row !! g = Some (DSubset (DFolder r) indices) /\
              h' !! r = Some f /\ Q c g x f indices.
Proof.
  induction items as [|[c xs] items IH]; intros h m h'; simpl.
  - intros [= <- <-]. exists []. rewrite app_nil_r.
    repeat split; [by intros j d ?|by intros k c xs ?].
  - unfold bind at 1.
    destruct (for_enumerate (step c) 0 xs h) as [row h1|e h1] eqn:E1; [|done].
    unfold bind at 1.
    destruct (for_each _ items h1) as [m' h2|e h2] eqn:E2; [|done].
    intros [= <- <-].
    destruct (row_done _ _ _ _ _ _ E1) as (fs1 & -> & Hfs1 & Hrow & Hall).
    destruct (IH _ _ _ E2) as (fs2 & -> & Hm' & Hfs2 & Hwp & Hrows).
    exists (fs1 ++ fs2). rewrite <- app_assoc. simpl.
    repeat split.
    + by rewrite Hm'.
    + rewrite !length_app. lia.
    + intros j d Hj.
      destruct (decide (j < length row)%nat) as [Hlt|Hge].
      * rewrite lookup_app_l in Hj by done.
        destruct (lookup_lt_is_Some_2 xs j) as [x Hx]; [lia|].
        destruct (Hall j x Hx) as (f & idx & _ & Hr & _).
        rewrite Hr in Hj. injection Hj as <-. by exists idx.
      * rewrite lookup_app_r in Hj by lia.
        destruct (Hwp _ _ Hj) as [idx ->]. exists idx.
        rewrite length_app. do 2 f_equal. lia.
    + intros [|k] c' xs' Hk; simpl in *.
      * injection Hk as <- <-. exists row. repeat split; [done|].
        intros g x Hx. destruct (Hall g x Hx) as (f & idx & Hf & Hr & HQ).
        exists (length h + g)%nat, f, idx. repeat split; [done| |done].
        rewrite lookup_app_r by lia.
        replace (length h + g - length h)%nat with g by lia.
        by apply lookup_app_l_Some.
      * destruct (Hrows k c' xs' Hk) as (row' & Hrow' & Hlen' & Hall').
        exists row'. repeat split; [done..|].
        intros g x Hx. destruct (Hall' g x Hx) as (r & f & idx & ? & Hf & ?).
        exists r, f, idx. repeat split; [done| |done].
        by rewrite app_assoc.
Qed.

(** The joint datasets of a matrix built by such a loop, in terms of
    the items the loop ran over. *)
Lemma groups_done {S} (items : list (C * list A)) (h h' : heap)
    (m : list (list dataset)) (s s' : S) (js : list dataset) :
  for_each (fun '(c, xs) => for_enumerate (step c) 0 xs) items h = Done m h' ->
  join_groups m s = Done js s' ->
  exists c0 xs0,
    items !! 0%nat = Some (c0, xs0) /\ length js = length xs0 /\
    forall g, (g < length xs0)%nat ->
      exists col,
        js !! g = Some (DConcat col) /\ length col = length items /\
        (forall k row, m !! k = Some row ->
           exists d, row !! g = Some d /\ col !! k = Some d) /\
        forall k c xs, items !! k = Some (c, xs) ->
          exists x r f indices,
            xs !! g = Some x /\
            col !! k = Some (DSubset (DFolder r) indices) /\
            h' !! r = Some f /\ Q c g x f indices.
Proof.
  intros Hm Hj.
  destruct (matrix_done _ _ _ _ Hm) as (fs & -> & Hlen & _ & _ & Hrows).
  destruct (join_groups_done _ _ _ _ Hj) as (-> & row0 & Hrow0 & Hjs & Hcols).
  destruct (lookup_lt_is_Some_2 items 0) as [[c0 xs0] H0].
  { rewrite <- Hlen. by eapply lookup_lt_Some. }
  destruct (Hrows _ _ _ H0) as (row0' & Hrow0' & Hlen0 & _).
  assert (row0' = row0) as -> by congruence.
  exists c0, xs0. split; [done|]. split; [congruence|].
  intros g Hg. destruct (Hcols g) as (col & Hcol & Hclen & Hparts); [lia|].
  exists col. split; [done|]. split; [congruence|]. split; [done|].
  intros k c xs Hk.
  destruct (Hrows _ _ _ Hk) as (row & Hrow & Hrlen & Hentries).
  destruct (Hparts _ _ Hrow) as (d & Hd & Hck).
  destruct (lookup_lt_is_Some_2 xs g) as [x Hx].
  { rewrite <- Hrlen. by eapply lookup_lt_Some. }
  destruct (Hentries _ _ Hx) as (r & f & idx & Hr & Hf & HQ).
  exists x, r, f, idx. repeat split; [done| |done..]. congruence.
Qed.

End Alloc.

Section Storage.

Variable expanduser : string -> string.
Variable listing : string -> option (gmap string nat * list sample).

Lemma new_ImageFolder_done (path : string) (t : transform) (h h' : heap)
    (r : nat) :
  new_ImageFolder expanduser listing path t h = Done r h' ->
  exists c2i smp,
    listing (expanduser path) = Some (c2i, smp) /\ r = length h /\
    h' = h ++ [mkImageFolder (expanduser path) t c2i smp].
Proof.
  unfold new_ImageFolder.
  destruct (listing (expanduser path)) as [[c2i smp]|]; [|done].
  intros [= <- <-]. by exists c2i, smp.
Qed.

Lemma train_placement_done (root_dir : string) (type1 : bool) (t : transform)
    (classes : list string) (ind : nat) (p : placement) (h : heap)
    (d : dataset) (h' : heap) :
  train_placement expanduser listing root_dir type1 t classes ind p h
  = Done d h' ->
  exists f indices,
    h' = h ++ [f] /\ d = DSubset (DFolder (length h)) indices /\
    train_placed expanduser listing root_dir type1 t classes ind p f indices.
Proof.
  destruct p as [location limit]. unfold train_placement, bind at 1.
  destruct (new_ImageFolder _ _ _ _ h) as [r h1|e h1] eqn:E1; [|done].
  apply new_ImageFolder_done in E1 as (c2i & smp & Hl & -> & ->).
  unfold bind at 1, deref. rewrite list_lookup_middle by done.
  unfold bind at 1. simpl.
  destruct (for_each (getitem c2i) classes _) as [cidx h2|e h2] eqn:E2; [|done].
  apply for_each_getitem in E2 as [-> HF]. intros [= <- <-].
  eexists _, _. split; [done|]. split; [done|].
  exists cidx. by repeat split.
Qed.

Lemma test_placement_done (root_dir : string) (type1 : bool)
    (classes : list string) (ind : nat) (location : string) (h : heap)
    (d : dataset) (h' : heap) :
  test_placement expanduser listing root_dir type1 classes ind location h
  = Done d h' ->
  exists f indices,
    h' = h ++ [f] /\ d = DSubset (DFolder (length h)) indices /\
    test_placed expanduser listing root_dir type1 classes ind location f indices.
Proof.
  unfold test_placement, bind at 1.
  destruct (new_ImageFolder _ _ _ _ h) as [r h1|e h1] eqn:E1; [|done].
  apply new_ImageFolder_done in E1 as (c2i & smp & Hl & -> & ->).
  unfold bind at 1, deref. rewrite list_lookup_middle by done.
  unfold bind at 1. simpl.
  destruct (for_each (getitem c2i) classes _) as [cidx h2|e h2] eqn:E2; [|done].
  apply for_each_getitem in E2 as [-> HF]. intros [= <- <-].
  eexists _, _. split; [done|]. split; [done|].
  exists cidx. by repeat split.
Qed.

End Storage.

Lemma well_placed_refs (base : nat) (ds : list dataset) :
  well_placed base ds -> folder_ref <$> ds = seq base (length ds).
Proof.
  intros Hwp. apply list_eq. intros j. rewrite list_lookup_fmap.
  destruct (ds !! j) as [d|] eqn:Ej; simpl.
  - destruct (Hwp _ _ Ej) as [idx ->]. simpl. symmetry.
    apply lookup_seq_lt. by eapply lookup_lt_Some.
  - symmetry. apply lookup_seq_ge. by apply lookup_ge_None.
Qed.



Section Init.

Variable expanduser : string -> string.
Variable listing : string -> option (gmap string nat * list sample).

(** The constructor on two dict-shaped inputs, step by step. *)
Lemma init_dict_done (tr : list (list string * list placement))
    (te : list (list string * list string)) (root_dir : string)
    (augment type1 : bool) (h0 h : heap) (datasets : list dataset) :
  init expanduser listing (TrainDict tr) (TestDict te) root_dir augment type1 h0
  = Done datasets h ->
  exists mtr h1 mte train_groups test_groups,
    train_matrix expanduser listing root_dir type1
      (if augment then Augmenting else Plain) tr h0 = Done mtr h1 /\
    test_matrix expanduser listing root_dir type1 te h1 = Done mte h /\
    join_groups mtr h1 = Done train_groups h1 /\
    join_groups mte h = Done test_groups h /\
    datasets = DConcat test_groups :: train_groups.
Proof.
  unfold init, bind at 1, bind at 1.
  destruct (train_matrix _ _ _ _ _ tr h0) as [mtr h1|e h1] eqn:E1; [|done].
  destruct (join_groups mtr h1) as [trj h1'|e h1'] eqn:E2; [|done].
  pose proof (join_groups_done _ _ _ _ E2) as [-> _].
  unfold bind at 1, bind at 1.
  destruct (test_matrix _ _ _ _ te h1) as [mte h2|e h2] eqn:E3; [|done].
  destruct (join_groups mte h2) as [tej h2'|e h2'] eqn:E4; [|done].
  pose proof (join_groups_done _ _ _ _ E4) as [-> _].
  unfold bind, ConcatDataset. destruct tej as [|t0 tej0] eqn:Et; [done|].
  rewrite <- Et in *. intros [= <- <-].
  by exists mtr, h1, mte, trj, tej.
Qed.

(** With a dict-shaped training input, whatever the test input. *)
Lemma init_train_done (tr : list (list string * list placement))
    (test : test_combinations) (root_dir : string)
    (augment type1 : bool) (h0 h : heap) (datasets : list dataset) :
  init expanduser listing (TrainDict tr) test root_dir augment type1 h0
  = Done datasets h ->
  exists mtr h1 train_groups test_data,
    train_matrix expanduser listing root_dir type1
      (if augment then Augmenting else Plain) tr h0 = Done mtr h1 /\
    join_groups mtr h1 = Done train_groups h1 /\
    datasets = test_data :: train_groups /\
    h1 `prefix_of` h.
Proof.
  unfold init, bind at 1, bind at 1.
  destruct (train_matrix _ _ _ _ _ tr h0) as [mtr h1|e h1] eqn:E1; [|done].
  destruct (join_groups mtr h1) as [trj h1'|e h1'] eqn:E2; [|done].
  pose proof (join_groups_done _ _ _ _ E2) as [-> _].
  unfold bind at 1.
  match goal with
  | |- context [match ?c h1 with Done _ _ => _ | Raised _ _ => _ end] =>
      destruct (c h1) as [tl h2|e h2] eqn:E3; [|done]
  end.
  unfold bind, ConcatDataset. destruct tl as [|t0 tl0] eqn:Et; [done|].
  rewrite <- Et in *. intros [= <- <-].
  exists mtr, h1, trj, (DConcat tl). repeat split; [done..|].
  destruct test as [te|locations].
  - unfold bind at 1 in E3.
    destruct (test_matrix _ _ _ _ te h1) as [mte h3|e h3] eqn:E4; [|done].
    apply (matrix_done _ _ (test_placement_done expanduser listing root_dir type1))
      in E4 as (fs & -> & _).
    apply join_groups_done in E3 as [-> _]. by apply prefix_app_r.
  - eapply (for_enumerate_mono prefix) in E3; [done|].
    intros i x s y s'. unfold bind at 1.
    destruct (new_ImageFolder _ _ _ _ s) as [r s1|e s1] eqn:E5; [|done].
    apply new_ImageFolder_done in E5 as (c2i & smp & _ & _ & ->).
    intros [= <- <-]. by apply prefix_app_r.
Qed.

End Init.

End ResolverFacts.

(** ** The assembled record *)

Module RecordFacts.
Import Py Benchmark Shape LoopFacts ResolverFacts.

(** A test placement keeps exactly the positions whose label is one of
    the class indices: there is no cap. *)
Lemma test_keep_spec (labels classes_idx : list nat) (i : nat) :
  i ∈ test_keep labels classes_idx <->
  exists label, labels !! i = Some label /\ label ∈ classes_idx.
Proof.
  unfold test_keep. rewrite list_elem_of_In, filter_In, <- list_elem_of_In.
  rewrite elem_of_seq. split.
  - intros [_ H]. destruct (labels !! i) as [label|]; [|done].
    apply bool_decide_eq_true in H. by exists label.
  - intros (label & Hl & Hc). split.
    + apply lookup_lt_Some in Hl. lia.
    + rewrite Hl. by apply bool_decide_eq_true.
Qed.

Lemma Forall2_class_index (c2i : gmap string nat) (classes : list string)
    (classes_idx : list nat) (label : nat) :
  Forall2 (fun c i => c2i !! c = Some i) classes classes_idx ->
  label ∈ classes_idx <-> exists c, c ∈ classes /\ c2i !! c = Some label.
Proof.
  induction 1 as [|c i classes classes_idx Hc HF IH].
  - split; [by intros ?%elem_of_nil|by intros (c & ?%elem_of_nil & _)].
  - rewrite elem_of_cons, IH. split.
    + intros [->|(c' & Hin & Hc')]; [exists c|exists c']; split; try done;
        [by left|by right].
    + intros (c' & [->|Hin]%elem_of_cons & Hc'); [left; congruence|].
      right. by exists c'.
Qed.

Section Record.

Variable expanduser : string -> string.
Variable listing : string -> option (gmap string nat * list sample).

(** C5, as the code has it: for dict-shaped inputs on which the
    constructor finishes, the record is the test dataset followed
    by the joint training datasets.  The test dataset is one
    [ConcatDataset] over the joint test collections, one per position of
    the first test class group's list; joint collection [g] has one part
    per class group, the part of a group being the subset of the folder
    of its location at position [g] that keeps every position whose
    label is the index of a class of the group (no cap).  The remaining
    elements are the joint training datasets, one per position of the
    first training class group's list and in that order, with the
    capped subsets as parts. *)
Theorem record_is_test_then_training_groups
    (tr : list (list string * list placement))
    (te : list (list string * list string)) (root_dir : string)
    (augment type1 : bool) (h0 h : heap) (datasets : list dataset) :
  init expanduser listing (TrainDict tr) (TestDict te) root_dir augment type1 h0
  = Done datasets h ->
  exists test_groups train_groups classes_te locs0 classes_tr pls0,
    datasets = DConcat test_groups :: train_groups /\
    te !! 0%nat = Some (classes_te, locs0) /\
    length test_groups = length locs0 /\
    tr !! 0%nat = Some (classes_tr, pls0) /\
    length train_groups = length pls0 /\
    (forall g, (g < length locs0)%nat ->
       exists col,
         test_groups !! g = Some (DConcat col) /\ length col = length te /\
         forall k classes locs, te !! k = Some (classes, locs) ->
           exists location r f indices,
             locs !! g = Some location /\
             col !! k = Some (DSubset (DFolder r) indices) /\
             h !! r = Some f /\
             test_placed expanduser listing root_dir type1 classes g location
               f indices /\
             forall i, i ∈ indices <->
               exists smp c, samples f !! i = Some smp /\ c ∈ classes /\
                             class_to_idx f !! c = Some smp.2) /\
    (forall g, (g < length pls0)%nat ->
       exists col,
         train_groups !! g = Some (DConcat col) /\ length col = length tr /\
         forall k classes pls, tr !! k = Some (classes, pls) ->
           exists p r f indices,
             pls !! g = Some p /\
             col !! k = Some (DSubset (DFolder r) indices) /\
             h !! r = Some f /\
             train_placed expanduser listing root_dir type1
               (if augment then Augmenting else Plain) classes g p f indices).
Proof.
  intros H.
  apply init_dict_done in H
    as (mtr & h1 & mte & trj & tej & Htr & Hte & Hjtr & Hjte & ->).
  pose proof (matrix_done _ _
                (test_placement_done expanduser listing root_dir type1)
                _ _ _ _ Hte) as (fs & -> & _).
  destruct (groups_done _ _
              (test_placement_done expanduser listing root_dir type1)
              _ _ _ _ _ _ _ Hte Hjte)
    as (cte & locs0 & Hte0 & Hlte & Htcols).
  destruct (groups_done _ _
              (train_placement_done expanduser listing root_dir type1
                 (if augment then Augmenting else Plain))
              _ _ _ _ _ _ _ Htr Hjtr)
    as (ctr & pls0 & Htr0 & Hltr & Hrcols).
  exists tej, trj, cte, locs0, ctr, pls0. repeat split; try done.
  - intros g Hg. destruct (Htcols g Hg) as (col & Hcol & Hclen & _ & Hparts).
    exists col. repeat split; [done..|].
    intros k classes locs Hk.
    destruct (Hparts _ _ _ Hk) as (loc & r & f & idx & Hloc & Hck & Hf & HQ).
    exists loc, r, f, idx. repeat split; try done.
    + destruct HQ as (cidx & (_ & _ & _ & HF) & ->).
      intros (label & Hl & Hc)%test_keep_spec.
      rewrite list_lookup_fmap in Hl.
      destruct (samples f !! i) as [smp|] eqn:Es; simplify_eq/=.
      apply (Forall2_class_index _ _ _ _ HF) in Hc as (c & Hin & Hc).
      exists smp, c. by split_and!.
    + destruct HQ as (cidx & (_ & _ & _ & HF) & ->).
      intros (smp & c & Hs & Hin & Hc). apply test_keep_spec.
      exists smp.2. split; [by rewrite list_lookup_fmap, Hs|].
      apply (Forall2_class_index _ _ _ _ HF). by exists c.
  - intros g Hg. destruct (Hrcols g Hg) as (col & Hcol & Hclen & _ & Hparts).
    exists col. repeat split; [done..|].
    intros k classes pls Hk.
    destruct (Hparts _ _ _ Hk) as (p & r & f & idx & Hp & Hck & Hf & HQ).
    exists p, r, f, idx. repeat split; [done..| |done].
    by apply lookup_app_l_Some.
Qed.


(** The joint training datasets in terms of the training mapping. *)
Lemma train_groups_done (tr : list (list string * list placement))
    (test : test_combinations) (root_dir : string) (augment type1 : bool)
    (h0 h : heap) (datasets : list dataset) :
  init expanduser listing (TrainDict tr) test root_dir augment type1 h0
  = Done datasets h ->
  exists classes0 pls0,
    tr !! 0%nat = Some (classes0, pls0) /\
    length datasets = S (length pls0) /\
    forall g, (g < length pls0)%nat ->
      exists col,
        datasets !! S g = Some (DConcat col) /\ length col = length tr /\
        forall k classes pls, tr !! k = Some (classes, pls) ->
          exists p r f indices,
            pls !! g = Some p /\
            col !! k = Some (DSubset (DFolder r) indices) /\
            h !! r = Some f /\
            train_placed expanduser listing root_dir type1
              (if augment then Augmenting else Plain) classes g p f indices.
Proof.
  intros H.
  apply init_train_done in H as (mtr & h1 & trj & td & Htr & Hj & -> & Hpre).
  destruct (groups_done _ _
              (train_placement_done expanduser listing root_dir type1
                 (if augment then Augmenting else Plain))
              _ _ _ _ _ _ _ Htr Hj)
    as (c0 & pls0 & Htr0 & Hltr & Hcols).
  exists c0, pls0. split_and!; [done|by simpl; rewrite Hltr|].
  intros g Hg. destruct (Hcols g Hg) as (col & Hcol & Hclen & _ & Hparts).
  exists col. split_and!; [done..|]. intros k classes pls Hk.
  destruct (Hparts _ _ _ Hk) as (p & r & f & idx & Hp & Hck & Hf & HQ).
  exists p, r, f, idx. split_and!; [done..| |done].
  by eapply prefix_lookup_Some.
Qed.

(** A placement of a single class with a cap of at least one keeps at
    most [cap] items, all of that class. *)
Lemma single_class_placed (root_dir : string) (type1 : bool) (t : transform)
    (c : string) (ind : nat) (location : string) (cap : Z)
    (f : ImageFolder) (indices : list nat) :
  (1 <= cap)%Z ->
  train_placed expanduser listing root_dir type1 t [c] ind (location, cap)
    f indices ->
  (length indices <= Z.to_nat cap)%nat /\
  forall i, i ∈ indices ->
    exists smp, samples f !! i = Some smp /\ class_to_idx f !! c = Some smp.2.
Proof.
  intros Hcap (cidx & (_ & _ & _ & HF) & ->). simpl.
  apply Forall2_cons_inv_l in HF as (ci & cidx' & Hc & ->%Forall2_nil_inv_l & ->).
  destruct (ScanFacts.train_keep_single (List.map snd (samples f)) ci cap Hcap)
    as [Hlen Hall].
  split; [done|]. intros i Hi. specialize (Hall i Hi).
  change (List.map snd (samples f)) with (snd <$> samples f) in Hall.
  rewrite list_lookup_fmap in Hall.
  destruct (samples f !! i) as [smp|]; simplify_eq/=. by exists smp.
Qed.

End Record.



Lemma record_is_test_then_training_groups_witness :
  exists datasets h test_groups train_groups,
    init Fixtures.same_path Fixtures.kennel (TrainDict Fixtures.small_train)
      (TestDict Fixtures.small_test) "./data/" true true []
    = Done datasets h /\
    datasets = DConcat test_groups :: train_groups /\
    length test_groups = 2%nat /\ length train_groups = 2%nat.
Proof.
  destruct (init Fixtures.same_path Fixtures.kennel
              (TrainDict Fixtures.small_train) (TestDict Fixtures.small_test)
              "./data/" true true [])
    as [datasets h|e h] eqn:E.
  - destruct (record_is_test_then_training_groups _ _ _ _ _ _ _ _ _ _ E)
      as (tg & trg & cte & locs0 & ctr & pls0 & -> & Hte0 & Hlte & Htr0 & Hltr & _).
    injection Hte0 as <- <-. injection Htr0 as <- <-.
    by exists (DConcat tg :: trg), h, tg, trg.
  - vm_compute in E. discriminate.
Defined.

(** C5 as stated fails: with a second test class group that has one
    location more than the first, the constructor finishes, all four
    directories are scanned, and the test dataset has three items: the
    second group's placement at position 1, with its one corgi, is in
    no joint test collection. *)
Lemma ragged_test_mapping_drops_a_placement :
  exists datasets h test_data,
    init Fixtures.same_path Fixtures.kennel (TrainDict Worlds.one_train)
      (TestDict Worlds.ragged_test) "./data/" true true []
    = Done datasets h /\
    length h = 4%nat /\
    datasets !! 0%nat = Some test_data /\
    dataset_len h test_data = 3%nat /\
    ~ spec_test_covers Worlds.ragged_test datasets.
Proof.
  eexists _, _, _. split; [vm_compute; reflexivity|].
  split; [reflexivity|]. split; [reflexivity|]. split; [reflexivity|].
  intros Hal.
  destruct (Hal 1%nat ["corgi"] ["dirt"; "jungle"] 1%nat "jungle"
              eq_refl eq_refl) as (tg & col & d & Htg & Hcol & _).
  injection Htg as <-. discriminate.
Qed.

(** ** The Type-1 builder *)

Lemma type1_counts_value : type1_counts = inr [3072; 2756]%Z.
Proof. vm_compute. reflexivity. Qed.

Lemma build_type1_done {S} (group test : list string) (filler : string)
    (s s' : S) (tr : train_combinations) (te : test_combinations) :
  build_type1_combination group test filler s = Done (tr, te) s' ->
  exists g0 g1 g2 g3,
    group !! 0%nat = Some g0 /\ group !! 1%nat = Some g1 /\
    group !! 2%nat = Some g2 /\ group !! 3%nat = Some g3 /\
    tr = TrainDict [
           (["bulldog"], [(g0, 3072%Z); (g0, 2756%Z)]);
           (["dachshund"], [(g1, 3072%Z); (g1, 2756%Z)]);
           (["labrador"], [(g2, 3072%Z); (g2, 2756%Z)]);
           (["corgi"], [(g3, 3072%Z); (g3, 2756%Z)]);
           (["bulldog"; "dachshund"; "labrador"; "corgi"],
            [(filler, 96%Z); (filler, 412%Z)])
         ].
Proof.
  unfold build_type1_combination. rewrite type1_counts_value.
  unfold bind, lift, subscript, ret, raise. simpl.
  destruct (group !! 0%nat) as [g0|]; [|done].
  destruct (group !! 1%nat) as [g1|]; [|done].
  destruct (group !! 2%nat) as [g2|]; [|done].
  destruct (group !! 3%nat) as [g3|]; [|done].
  destruct (test !! 0%nat) as [t0|]; [|done].
  destruct (test !! 1%nat) as [t1|]; [|done].
  destruct (test !! 2%nat) as [t2|]; [|done].
  destruct (test !! 3%nat) as [t3|]; [|done].
  intros [= <- <- <-]. by exists g0, g1, g2, g3.
Qed.

(** C2, as the code has it: the two caps of the correlated placements
    are [int(0.97 x 3168) = 3072] and [int(0.87 x 3168) = 2756]
    (truncation, not rounding), the caps of the filler placements are
    3168 minus these ([96] and [412]), and in the record of every Type-1
    variant each of the four classes has, in joint training datasets 1
    and 2, a part from its correlated location with at most 3072 and at
    most 2756 items, all of that class: at most 5828 together, whatever
    the directories hold. *)
Theorem type1_caps_bound_each_class
    (expanduser : string -> string)
    (listing : string -> option (gmap string nat * list sample))
    (v : variant) (root_dir : string) (data_augmentation : bool)
    (h0 h : heap) (datasets : list dataset) :
  is_type1 v = true ->
  SpuriousLocation expanduser listing v root_dir data_augmentation h0
  = Done datasets h ->
  type1_counts = inr [3072; 2756]%Z /\
  (exists tr te filler,
     combinations_of v h0 = Done (TrainDict tr, te) h0 /\
     filler_of v = Some filler /\
     tr !! 4%nat
     = Some (four_classes,
             [(filler, (total - 3072)%Z); (filler, (total - 2756)%Z)]) /\
     forall k c, four_classes !! k = Some c ->
       exists location,
         group_of v !! k = Some location /\
         tr !! k = Some ([c], [(location, 3072%Z); (location, 2756%Z)])) /\
  forall k c, four_classes !! k = Some c ->
    exists col1 col2 r1 f1 kept1 r2 f2 kept2,
      datasets !! 1%nat = Some (DConcat col1) /\
      datasets !! 2%nat = Some (DConcat col2) /\
      col1 !! k = Some (DSubset (DFolder r1) kept1) /\
      col2 !! k = Some (DSubset (DFolder r2) kept2) /\
      h !! r1 = Some f1 /\ h !! r2 = Some f2 /\
      (Z.of_nat (length kept1) <= 3072)%Z /\
      (Z.of_nat (length kept2) <= 2756)%Z /\
      (Z.of_nat (dataset_len h (DSubset (DFolder r1) kept1)
                 + dataset_len h (DSubset (DFolder r2) kept2)) <= 5828)%Z /\
      (forall i, i ∈ kept1 ->
         exists smp, samples f1 !! i = Some smp /\
                     class_to_idx f1 !! c = Some smp.2) /\
      (forall i, i ∈ kept2 ->
         exists smp, samples f2 !! i = Some smp /\
                     class_to_idx f2 !! c = Some smp.2).
Proof.
  intros Hv H. split; [apply type1_counts_value|].
  unfold SpuriousLocation, bind in H.
  destruct (combinations_of v h0) as [[tr te] h1|e h1] eqn:Ec; [|done].
  simpl in H.
  assert (Hfill : exists filler, filler_of v = Some filler).
  { unfold is_type1 in Hv. destruct (filler_of v); [eauto|done]. }
  destruct Hfill as [filler Hfill].
  unfold combinations_of in Ec. rewrite Hfill in Ec.
  assert (h1 = h0) as ->.
  { revert Ec. unfold build_type1_combination, bind, lift, subscript, ret, raise.
    rewrite type1_counts_value. simpl.
    repeat (match goal with
            | |- context [match ?l !! ?i with _ => _ end] =>
                destruct (l !! i); [|done]
            end).
    by intros [= _ _ <-]. }
  destruct (build_type1_done _ _ _ _ _ _ _ Ec)
    as (g0 & g1 & g2 & g3 & Hg0 & Hg1 & Hg2 & Hg3 & ->).
  set (tr := [(["bulldog"], [(g0, 3072%Z); (g0, 2756%Z)]);
              (["dachshund"], [(g1, 3072%Z); (g1, 2756%Z)]);
              (["labrador"], [(g2, 3072%Z); (g2, 2756%Z)]);
              (["corgi"], [(g3, 3072%Z); (g3, 2756%Z)]);
              (["bulldog"; "dachshund"; "labrador"; "corgi"],
               [(filler, 96%Z); (filler, 412%Z)])]) in *.
  assert (Hrows : forall k c, four_classes !! k = Some c ->
            exists location,
              group_of v !! k = Some location /\
              tr !! k = Some ([c], [(location, 3072%Z); (location, 2756%Z)])).
  { intros [|[|[|[|k]]]] c Hc; simplify_eq/=; eauto. }
  split.
  { exists tr, te, filler. unfold combinations_of. rewrite Hfill.
    by split_and!. }
  intros k c Hc. destruct (Hrows k c Hc) as (location & _ & Hk).
  destruct (train_groups_done _ _ _ _ _ _ _ _ _ _ H)
    as (c0 & pls0 & H0 & _ & Hcols).
  injection H0 as <- <-.
  destruct (Hcols 0%nat) as (col1 & Hcol1 & _ & Hp1); [simpl; lia|].
  destruct (Hcols 1%nat) as (col2 & Hcol2 & _ & Hp2); [simpl; lia|].
  destruct (Hp1 _ _ _ Hk) as (p1 & r1 & f1 & kept1 & Hpl1 & Hk1 & Hf1 & HQ1).
  destruct (Hp2 _ _ _ Hk) as (p2 & r2 & f2 & kept2 & Hpl2 & Hk2 & Hf2 & HQ2).
  injection Hpl1 as <-. injection Hpl2 as <-.
  apply single_class_placed in HQ1 as [Hlen1 Hall1]; [|lia].
  apply single_class_placed in HQ2 as [Hlen2 Hall2]; [|lia].
  exists col1, col2, r1, f1, kept1, r2, f2, kept2.
  simpl. split_and!; try done; lia.
Qed.

Lemma type1_caps_bound_each_class_witness :
  exists datasets h col1 kept1 r1,
    SpuriousLocation Fixtures.same_path Fixtures.kennel Type1_2 "./data/"
      true [] = Done datasets h /\
    datasets !! 1%nat = Some (DConcat col1) /\
    col1 !! 3%nat = Some (DSubset (DFolder r1) kept1) /\
    (Z.of_nat (length kept1) <= 3072)%Z.
Proof.
  destruct (SpuriousLocation Fixtures.same_path Fixtures.kennel Type1_2
              "./data/" true []) as [datasets h|e h] eqn:E.
  - destruct (type1_caps_bound_each_class Fixtures.same_path Fixtures.kennel
                Type1_2 "./data/" true [] h datasets eq_refl E)
      as (_ & _ & Hall).
    destruct (Hall 3%nat "corgi" eq_refl)
      as (col1 & col2 & r1 & f1 & kept1 & r2 & f2 & kept2 & H1 & _ & Hk1 & _
          & _ & _ & Hlen & _).
    by exists datasets, h, col1, kept1, r1.
  - vm_compute in E. discriminate.
Defined.

(** C2 as stated fails: the first cap is the truncation 3072, while
    [round(0.97 x 3168)] is 3073. *)
Lemma type1_counts_are_not_rounded :
  type1_counts = inr [3072; 2756]%Z /\
  spec_type1_counts = inr [3073; 2756]%Z /\
  type1_counts <> spec_type1_counts.
Proof.
  assert (H1 : type1_counts = inr [3072; 2756]%Z) by apply type1_counts_value.
  assert (H2 : spec_type1_counts = inr [3073; 2756]%Z)
    by (vm_compute; reflexivity).
  split_and!; [done..|]. rewrite H1, H2. discriminate.
Qed.

End RecordFacts.

(** ** The path rebinder *)

Module RebindFacts.
Import Py Benchmark Shape LoopFacts ResolverFacts.

(** Induction on datasets that goes through the lists of parts. *)
Lemma dataset_nested_ind (P : dataset -> Prop) :
  (forall r, P (DFolder r)) ->
  (forall d indices, P d -> P (DSubset d indices)) ->
  (forall ds, Forall P ds -> P (DConcat ds)) ->
  forall d, P d.
Proof.
  intros Hf Hs Hc. fix IH 1. intros [r|d indices|ds].
  - apply Hf.
  - apply Hs, IH.
  - apply Hc. induction ds as [|d ds IHds]; constructor; [apply IH|apply IHds].
Qed.

(** A list that is a sub-multiset of a list without duplicates has
    none. *)
Lemma NoDup_submseteq_l {A} (l k : list A) : l ⊆+ k -> NoDup k -> NoDup l.
Proof.
  intros [k' Hk']%submseteq_Permutation Hnd. rewrite Hk' in Hnd.
  by apply NoDup_app in Hnd as (? & _ & _).
Qed.

Lemma concat_heads_tails {A} (cols : list (list A)) (xs : list A) :
  Forall2 (fun col x => head col = Some x) cols xs ->
  concat cols ≡ₚ xs ++ concat (tail <$> cols).
Proof.
  induction 1 as [|col x cols xs Hhead HF IH]; [done|].
  destruct col as [|y col]; simplify_eq/=.
  constructor. rewrite IH. apply Permutation_app_swap_app.
Qed.

Lemma concat_all_nil {A} (cols : list (list A)) :
  (forall g col, cols !! g = Some col -> col = []) -> concat cols = [].
Proof.
  induction cols as [|col cols IH]; intros H; [done|].
  simpl. rewrite (H 0%nat col eq_refl). simpl. apply IH.
  intros g c Hg. by apply (H (S g)).
Qed.

(** The parts of the joint datasets, taken group by group, are among
    the entries of the matrix, each entry being taken at most once. *)
Lemma columns_submseteq {A} (m : list (list A)) :
  forall (cols : list (list A)),
    (forall g col, cols !! g = Some col ->
       length col = length m /\
       forall k row, m !! k = Some row ->
         exists d, row !! g = Some d /\ col !! k = Some d) ->
    concat cols ⊆+ concat m.
Proof.
  induction m as [|row0 m IH]; intros cols Hcols.
  - rewrite concat_all_nil; [done|].
    intros g col Hg. destruct (Hcols g col Hg) as [Hlen _].
    by apply nil_length_inv.
  - assert (Hlen : (length cols <= length row0)%nat).
    { destruct (decide (length cols = 0)%nat) as [->|Hne]; [lia|].
      destruct (lookup_lt_is_Some_2 cols (length cols - 1)) as [c0 Hc0]; [lia|].
      destruct (Hcols _ c0 Hc0) as [_ Hrow].
      destruct (Hrow 0%nat row0 eq_refl) as (d & Hd & _).
      apply lookup_lt_Some in Hd. lia. }
    assert (HF : Forall2 (fun col x => head col = Some x) cols
                   (take (length cols) row0)).
    { apply Forall2_same_length_lookup_2.
      - rewrite length_take. lia.
      - intros g col x Hg Hx. rewrite lookup_take_Some in Hx.
        destruct Hx as [Hx _].
        destruct (Hcols g col Hg) as [_ Hrow].
        destruct (Hrow 0%nat row0 eq_refl) as (d & Hd & Hc0).
        rewrite head_lookup. congruence. }
    rewrite (concat_heads_tails _ _ HF). simpl.
    apply submseteq_app; [apply submseteq_take|]. apply IH.
    intros g col' Hg. rewrite list_lookup_fmap in Hg.
    destruct (cols !! g) as [col|] eqn:Ecol; simplify_eq/=.
    destruct (Hcols g col Ecol) as [Hclen Hrow]. split.
    + destruct col; simpl in *; lia.
    + intros k row Hk. destruct (Hrow (S k) row Hk) as (d & Hd & Hck).
      exists d. split; [done|]. by rewrite lookup_tail.
Qed.

Section Rebase.

Variable to_prepend : string.

Local Abbreviation F := (rebase_sample to_prepend).

(** The index loop over the samples rewrites every sample once. *)
Lemma rebase_loop_lookup (k : nat) :
  forall (i : nat) (acc : list sample) (j : nat),
    foldl
      (fun acc idx =>
         match acc !! idx with
         | Some (path, label) => <[idx := (rebase to_prepend path, label)]> acc
         | None => acc
         end)
      acc (seq i k) !! j
    = if decide (i <= j < i + k)%nat then F <$> acc !! j else acc !! j.
Proof.
  induction k as [|k IH]; intros i acc j; simpl.
  - case_decide; [lia|done].
  - rewrite IH. destruct (decide (j = i)) as [->|Hne].
    + rewrite decide_False by lia. rewrite decide_True by lia.
      destruct (acc !! i) as [[path label]|] eqn:Ei; [|by rewrite Ei].
      rewrite list_lookup_insert_eq by (by eapply lookup_lt_Some). done.
    + assert (Hj : forall acc' : list sample,
                match acc !! i with
                | Some (path, label) =>
                    <[i := (rebase to_prepend path, label)]> acc
                | None => acc
                end = acc' -> acc' !! j = acc !! j).
      { intros acc' <-. destruct (acc !! i) as [[path label]|]; [|done].
        by apply list_lookup_insert_ne. }
      rewrite (Hj _ eq_refl).
      destruct (decide (S i <= j < S i + k)%nat),
               (decide (i <= j < i + S k)%nat); try done; lia.
Qed.

Lemma rebase_samples_map (smp : list sample) :
  rebase_samples to_prepend smp = F <$> smp.
Proof.
  apply list_eq. intros j. unfold rebase_samples.
  rewrite rebase_loop_lookup, list_lookup_fmap.
  case_decide as Hj; [done|].
  rewrite (lookup_ge_None_2 smp j) by lia. done.
Qed.

(** The body of the inner loop on a subset over the folder at [r]. *)
Lemma rebase_folder_run (r : nat) (indices : list nat) (h : heap)
    (f : ImageFolder) :
  h !! r = Some f ->
  rebase_folder to_prepend (DSubset (DFolder r) indices) h
  = Done tt (alter (rebased to_prepend) r h).
Proof.
  intros Hr. unfold rebase_folder, bind, attr_dataset, ret. simpl.
  rewrite Hr. f_equal. rewrite rebase_samples_map.
  apply list_eq. intros j.
  rewrite list_lookup_insert, list_lookup_alter.
  destruct (decide (r = j)) as [->|Hne].
  - rewrite decide_True by (split; [done|by eapply lookup_lt_Some]).
    by rewrite Hr.
  - by rewrite decide_False by (intros [? _]; done).
Qed.

(** The heap after the folders at [refs] have been rewritten in turn. *)
Lemma walk_length (refs : list nat) :
  forall h : heap,
    length (foldl (fun h r => alter (rebased to_prepend) r h) h refs)
    = length h.
Proof.
  induction refs as [|r refs IH]; intros h; simpl; [done|].
  by rewrite IH, length_alter.
Qed.

Lemma walk_lookup (refs : list nat) :
  NoDup refs ->
  forall (h : heap) (r : nat),
    foldl (fun h r => alter (rebased to_prepend) r h) h refs !! r
    = if decide (r ∈ refs) then rebased to_prepend <$> h !! r else h !! r.
Proof.
  induction 1 as [|r0 refs Hnotin Hnd IH]; intros h r; cbn [foldl].
  - by rewrite decide_False by apply not_elem_of_nil.
  - rewrite IH, list_lookup_alter. destruct (decide (r0 = r)) as [->|Hne].
    + rewrite (decide_False (P := r ∈ refs)) by done.
      by rewrite decide_True by (apply elem_of_cons; auto).
    + destruct (decide (r ∈ refs)) as [Hin|Hout].
      * by rewrite decide_True by (apply elem_of_cons; auto).
      * by rewrite decide_False by (intros [->|?]%elem_of_cons; done).
Qed.

(** The two loops of [prepend_path] over joint datasets whose parts are
    subsets of folders that exist. *)
Lemma inner_loop_run (twos : list dataset) :
  forall h : heap,
    Forall (fun d => exists indices,
                d = DSubset (DFolder (folder_ref d)) indices /\
                (folder_ref d < length h)%nat) twos ->
    exists us,
      for_each (rebase_folder to_prepend) twos h
      = Done us (foldl (fun h r => alter (rebased to_prepend) r h) h
                   (folder_ref <$> twos)).
Proof.
  induction twos as [|d twos IH]; intros h Hall; simpl.
  - by exists [].
  - apply Forall_cons in Hall as [(idx & Hd & Hlt) Hall].
    destruct (lookup_lt_is_Some_2 h (folder_ref d) Hlt) as [f Hf].
    destruct d as [?|[r|?|?] idx0|?]; try discriminate Hd. simpl in *.
    unfold bind at 1. rewrite (rebase_folder_run _ _ _ _ Hf).
    destruct (IH (alter (rebased to_prepend) r h)) as [us Hus].
    { eapply Forall_impl; [exact Hall|]. intros d' (idx' & ? & ?).
      exists idx'. by rewrite length_alter. }
    unfold bind. rewrite Hus. by eexists.
Qed.

Lemma outer_loop_run (ones : list dataset) :
  forall h : heap,
    Forall (fun one => exists col, one = DConcat col) ones ->
    Forall (fun d => exists indices,
                d = DSubset (DFolder (folder_ref d)) indices /\
                (folder_ref d < length h)%nat) (concat (parts <$> ones)) ->
    exists us,
      for_each
        (fun one =>
           bind (attr_datasets one)
             (fun twos => for_each (rebase_folder to_prepend) twos))
        ones h
      = Done us (foldl (fun h r => alter (rebased to_prepend) r h) h
                   (folder_ref <$> concat (parts <$> ones))).
Proof.
  induction ones as [|one ones IH]; intros h Hones Hall.
  - by exists [].
  - apply Forall_cons in Hones as [[col ->] Hones].
    rewrite fmap_cons in Hall |- *. cbn [concat parts] in Hall |- *.
    apply Forall_app in Hall as [Hcol Hall].
    destruct (inner_loop_run col h Hcol) as [us1 Hus1].
    destruct (IH (foldl (fun h r => alter (rebased to_prepend) r h) h
                    (folder_ref <$> col))) as [us Hus]; [done| |].
    { eapply Forall_impl; [exact Hall|]. intros d' (idx' & ? & ?).
      exists idx'. by rewrite walk_length. }
    rewrite for_each_cons. cbv beta.
    change (bind (attr_datasets (DConcat col))
              (fun twos => for_each (rebase_folder to_prepend) twos) h)
      with (for_each (rebase_folder to_prepend) col h).
    rewrite Hus1, Hus, fmap_app, foldl_app. by eexists.
Qed.

(** Reading a dataset after its folders have been rewritten: as many
    items, the same labels, every path rewritten. *)
Lemma rebased_view (h h' : heap) (d : dataset) :
  (forall r, r ∈ folders_of d ->
     exists f, h !! r = Some f /\ h' !! r = Some (rebased to_prepend f)) ->
  dataset_len h' d = dataset_len h d /\
  forall i, dataset_get h' d i = F <$> dataset_get h d i.
Proof.
  induction d as [r|d indices IH|ds IH] using dataset_nested_ind; intros Hr.
  - destruct (Hr r) as (f & Hf & Hf'); [by apply list_elem_of_singleton|].
    simpl. rewrite Hf, Hf'. simpl. split; [by rewrite length_fmap|].
    intros i. by rewrite list_lookup_fmap.
  - simpl. split; [done|]. intros i.
    destruct (indices !! i) as [j|]; [|done]. by apply IH.
  - assert (Hall : Forall (fun d => dataset_len h' d = dataset_len h d /\
                             forall i, dataset_get h' d i
                                       = F <$> dataset_get h d i) ds).
    { apply Forall_forall. intros d Hd.
      rewrite Forall_forall in IH. apply (IH d Hd).
      intros r Hin. apply Hr. simpl.
      clear -Hd Hin. induction Hd; simpl; apply elem_of_app; auto. }
    clear IH Hr. simpl. split.
    + induction Hall as [|d ds [Hlen _] Hall IH]; [done|].
      simpl. by rewrite Hlen, IH.
    + induction Hall as [|d ds [Hlen Hget] Hall IH]; intros i; [done|].
      rewrite Hlen. destruct (i <? dataset_len h d)%nat; [apply Hget|apply IH].
Qed.

(** On joint datasets whose parts are subsets over folders, the
    folders read are the folders of the parts. *)
Lemma folders_of_parts (col : list dataset) :
  Forall (fun d => exists indices,
              d = DSubset (DFolder (folder_ref d)) indices) col ->
  folders_of (DConcat col) = folder_ref <$> col.
Proof.
  induction 1 as [|d col [idx Hd] Hall IH]; [done|].
  simpl in *. rewrite IH. by rewrite Hd at 1.
Qed.

Lemma folders_of_groups (ones : list dataset) :
  Forall (fun one => exists col, one = DConcat col) ones ->
  Forall (fun d => exists indices,
              d = DSubset (DFolder (folder_ref d)) indices)
    (concat (parts <$> ones)) ->
  concat (folders_of <$> ones) = folder_ref <$> concat (parts <$> ones).
Proof.
  induction 1 as [|one ones [col ->] Hones IH]; intros Hall; [done|].
  rewrite fmap_cons in Hall. rewrite !fmap_cons.
  cbn [concat parts] in Hall |- *.
  apply Forall_app in Hall as [Hcol Hall].
  by rewrite fmap_app, (folders_of_parts _ Hcol), IH.
Qed.

End Rebase.

Lemma prepend_path_run (test_groups train_groups : list dataset)
    (to_prepend : string) (h : heap) :
  prepend_path (DConcat test_groups :: train_groups) to_prepend h
  = match
      for_each
        (fun one =>
           bind (attr_datasets one)
             (fun twos => for_each (rebase_folder to_prepend) twos))
        (test_groups ++ train_groups) h
    with
    | Done _ h' => Done tt h'
    | Raised e h' => Raised e h'
    end.
Proof. reflexivity. Qed.

(** The parts of the joint datasets of a matrix: subsets over
    distinct folders allocated while the matrix was built. *)
Lemma visited_parts {A C S : Type} (step : C -> nat -> A -> M heap dataset)
    (Q : C -> nat -> A -> ImageFolder -> list nat -> Prop)
    (items : list (C * list A)) (h h' : heap) (m : list (list dataset))
    (js : list dataset) (s s' : S) :
  (forall c i x h d h',
     step c i x h = Done d h' ->
     exists f indices,
       h' = h ++ [f] /\ d = DSubset (DFolder (length h)) indices /\
       Q c i x f indices) ->
  for_each (fun '(c, xs) => for_enumerate (step c) 0 xs) items h = Done m h' ->
  join_groups m s = Done js s' ->
  Forall (fun one => exists col, one = DConcat col) js /\
  Forall (fun d => exists indices,
              d = DSubset (DFolder (folder_ref d)) indices)
    (concat (parts <$> js)) /\
  (length h <= length h')%nat /\
  folder_ref <$> concat (parts <$> js)
    ⊆+ seq (length h) (length h' - length h).
Proof.
  intros Hstep Hm Hj.
  destruct (matrix_done _ _ Hstep _ _ _ _ Hm) as (fs & -> & _ & Hfs & Hwp & _).
  destruct (join_groups_done _ _ _ _ Hj) as (_ & row0 & _ & Hlen & Hcols).
  assert (Hsub : concat (parts <$> js) ⊆+ concat m).
  { apply columns_submseteq. intros g col Hg.
    rewrite list_lookup_fmap in Hg.
    destruct (js !! g) as [one|] eqn:Eone; simplify_eq/=.
    destruct (Hcols g) as (col & Hcol & Hclen & Hparts).
    { rewrite <- Hlen. by eapply lookup_lt_Some. }
    assert (one = DConcat col) as -> by congruence. by split. }
  split_and!.
  - apply Forall_lookup. intros g one Hone.
    destruct (Hcols g) as (col & Hcol & _).
    { rewrite <- Hlen. by eapply lookup_lt_Some. }
    exists col. congruence.
  - apply Forall_forall. intros d Hd.
    apply (elem_of_submseteq _ _ _ Hd) in Hsub.
    apply list_elem_of_lookup in Hsub as [j Hj'].
    destruct (Hwp _ _ Hj') as [idx ->]. by exists idx.
  - rewrite length_app. lia.
  - rewrite length_app.
    replace (length h + length fs - length h)%nat with (length (concat m))
      by lia.
    rewrite <- (well_placed_refs _ _ Hwp). by apply fmap_submseteq.
Qed.

(** C9, as the code has it: on a record built from dict-shaped
    combinations [prepend_path] finishes; every image folder the record
    reads from is rewritten exactly once, its root and the path of each
    of its samples becoming [os.path.join(new_root, p')] where [p'] is
    the old path with EVERY occurrence of ["./data/"] removed
    ([str.replace], which is the removal of the prefix when the path
    starts with the placeholder and holds no other occurrence); labels,
    class tables and transforms stay; no other folder changes; and every
    dataset of the record has as many items as before, each with its old
    label and its rewritten path. *)
Theorem prepend_path_rebases_every_folder
    (expanduser : string -> string)
    (listing : string -> option (gmap string nat * list sample))
    (tr : list (list string * list placement))
    (te : list (list string * list string)) (root_dir : string)
    (augment type1 : bool) (h0 h : heap) (datasets : list dataset)
    (to_prepend : string) :
  init expanduser listing (TrainDict tr) (TestDict te) root_dir augment type1 h0
  = Done datasets h ->
  exists h',
    prepend_path datasets to_prepend h = Done tt h' /\
    length h' = length h /\
    (forall r, r ∈ concat (folders_of <$> datasets) ->
       exists f, h !! r = Some f /\ h' !! r = Some (rebased to_prepend f)) /\
    (forall r, r ∉ concat (folders_of <$> datasets) -> h' !! r = h !! r) /\
    (forall d, d ∈ datasets ->
       dataset_len h' d = dataset_len h d /\
       forall i, dataset_get h' d i
                 = rebase_sample to_prepend <$> dataset_get h d i).
Proof.
  intros H.
  apply init_dict_done in H
    as (mtr & h1 & mte & trj & tej & Htr & Hte & Hjtr & Hjte & ->).
  destruct (visited_parts _ _ _ _ _ _ _ _ _
              (train_placement_done expanduser listing root_dir type1
                 (if augment then Augmenting else Plain)) Htr Hjtr)
    as (Hc_tr & Hs_tr & Hle_tr & Hsub_tr).
  destruct (visited_parts _ _ _ _ _ _ _ _ _
              (test_placement_done expanduser listing root_dir type1)
              Hte Hjte)
    as (Hc_te & Hs_te & Hle_te & Hsub_te).
  set (vis := concat (parts <$> (tej ++ trj))).
  assert (Hvis : vis = concat (parts <$> tej) ++ concat (parts <$> trj)).
  { unfold vis. by rewrite fmap_app, concat_app. }
  assert (Hones : Forall (fun one => exists col, one = DConcat col) (tej ++ trj)).
  { by apply Forall_app. }
  assert (Hshape : Forall (fun d => exists indices,
                      d = DSubset (DFolder (folder_ref d)) indices) vis).
  { rewrite Hvis. by apply Forall_app. }
  assert (Hrange : forall r, r ∈ folder_ref <$> vis -> (r < length h)%nat).
  { intros r. rewrite Hvis, fmap_app, elem_of_app.
    intros [Hr|Hr].
    - apply (elem_of_submseteq _ _ _ Hr) in Hsub_te.
      apply elem_of_seq in Hsub_te. lia.
    - apply (elem_of_submseteq _ _ _ Hr) in Hsub_tr.
      apply elem_of_seq in Hsub_tr. lia. }
  assert (Hnd : NoDup (folder_ref <$> vis)).
  { rewrite Hvis, fmap_app. apply NoDup_app. split_and!.
    - eapply NoDup_submseteq_l; [exact Hsub_te|apply NoDup_seq].
    - intros r Hr1 Hr2.
      apply (elem_of_submseteq _ _ _ Hr1) in Hsub_te.
      apply (elem_of_submseteq _ _ _ Hr2) in Hsub_tr.
      apply elem_of_seq in Hsub_te, Hsub_tr. lia.
    - eapply NoDup_submseteq_l; [exact Hsub_tr|apply NoDup_seq]. }
  assert (Hgood : Forall (fun d => exists indices,
                     d = DSubset (DFolder (folder_ref d)) indices /\
                     (folder_ref d < length h)%nat) vis).
  { apply Forall_forall. intros d Hd.
    rewrite Forall_forall in Hshape. destruct (Hshape d Hd) as [idx Hidx].
    exists idx. split; [done|]. apply Hrange.
    apply list_elem_of_fmap. by exists d. }
  destruct (outer_loop_run to_prepend (tej ++ trj) h Hones Hgood) as [us Hus].
  fold vis in Hus.
  set (h' := foldl (fun h r => alter (rebased to_prepend) r h) h
               (folder_ref <$> vis)) in *.
  assert (Hreach : concat (folders_of <$> DConcat tej :: trj)
                   = folder_ref <$> vis).
  { rewrite fmap_cons. cbn [concat folders_of].
    change (List.map folders_of tej) with (folders_of <$> tej).
    rewrite <- concat_app, <- fmap_app. by apply folders_of_groups. }
  assert (Hin : forall r, r ∈ folder_ref <$> vis ->
            exists f, h !! r = Some f /\ h' !! r = Some (rebased to_prepend f)).
  { intros r Hr.
    destruct (lookup_lt_is_Some_2 h r (Hrange r Hr)) as [f Hf].
    exists f. split; [done|]. unfold h'.
    rewrite (walk_lookup _ _ Hnd), decide_True by done. by rewrite Hf. }
  exists h'. split_and!.
  - rewrite prepend_path_run. by rewrite Hus.
  - apply walk_length.
  - rewrite Hreach. apply Hin.
  - rewrite Hreach. intros r Hr. unfold h'.
    by rewrite (walk_lookup _ _ Hnd), decide_False by done.
  - intros d Hd. apply rebased_view. intros r Hr. apply Hin.
    rewrite <- Hreach. clear -Hd Hr.
    induction Hd; rewrite fmap_cons; cbn [concat]; apply elem_of_app; auto.
Qed.

Lemma prepend_path_rebases_every_folder_witness :
  exists datasets h h',
    init Fixtures.same_path Fixtures.kennel (TrainDict Fixtures.small_train)
      (TestDict Fixtures.small_test) "./data/" true true []
    = Done datasets h /\
    prepend_path datasets "/new" h = Done tt h' /\
    length h' = length h.
Proof.
  destruct (init Fixtures.same_path Fixtures.kennel
              (TrainDict Fixtures.small_train) (TestDict Fixtures.small_test)
              "./data/" true true [])
    as [datasets h|e h] eqn:E.
  - destruct (prepend_path_rebases_every_folder Fixtures.same_path
                Fixtures.kennel Fixtures.small_train Fixtures.small_test
                "./data/" true true [] h datasets "/new" E)
      as (h' & Hrun & Hlen & _).
    by exists datasets, h, h'.
  - vm_compute in E. discriminate.
Defined.

Lemma substring_all (s : string) : String.substring 0 (String.length s) s = s.
Proof. induction s as [|c s IH]; simpl; [done|by rewrite IH]. Qed.

(** Where a path starts with the placeholder and holds no further
    occurrence of it, the code removes exactly that prefix. *)
Lemma rebase_on_placeholder_prefix (to_prepend rest : string) :
  replace "./data/" "" rest = rest ->
  rebase to_prepend ("./data/" +:+ rest)
  = spec_rebase to_prepend ("./data/" +:+ rest).
Proof.
  intros Hrest. unfold rebase, spec_rebase. f_equal.
  transitivity rest.
  { transitivity (replace "./data/" "" rest); [|exact Hrest].
    unfold replace. simpl. by destruct rest. }
  assert (Hs : startswith "" rest = true) by (by destruct rest).
  simpl. rewrite Hs, Nat.sub_0_r. symmetry. apply substring_all.
Qed.

(** C9 as stated fails: a record built under the root ["../data/"]
    holds the placeholder inside its paths, not as their prefix;
    [prepend_path] removes it all the same, where removing a prefix
    would leave the path as it is. *)
Lemma replace_removes_inner_occurrences :
  exists datasets h h' f f',
    init Fixtures.same_path Fixtures.kennel (TrainDict Fixtures.small_train)
      (TestDict Fixtures.small_test) "../data/" true true []
    = Done datasets h /\
    prepend_path datasets "/new" h = Done tt h' /\
    0%nat ∈ concat (folders_of <$> datasets) /\
    h !! 0%nat = Some f /\ h' !! 0%nat = Some f' /\
    root f = "../data/0/desert/" /\
    root f' = "/new/.0/desert/" /\
    spec_rebase "/new" (root f) = "/new/../data/0/desert/" /\
    root f' <> spec_rebase "/new" (root f).
Proof.
  eexists _, _, _, _, _.
  split; [vm_compute; reflexivity|].
  split; [vm_compute; reflexivity|].
  split; [vm_compute; set_solver|].
  split; [reflexivity|]. split; [reflexivity|].
  split; [reflexivity|]. split; [reflexivity|].
  split; [reflexivity|]. discriminate.
Qed.

End RebindFacts.

(** ** Further properties of the archive store *)

Module ArchiveMore.
Import Py Archive PyFacts ArchiveFacts.

(** Extraction and manifest update from a disk that holds the
    archive, in closed form. *)
Lemma acquire_outcome (unpacks : string -> bool) (n data_dir : string)
    (rm : bool) (d : disk) (content : string) :
  let tar_name := "spawrious__" +:+ n +:+ ".tar.gz" in
  let tar := os_path_join data_dir tar_name in
  files d !! tar = Some content ->
  bind (_extract_dataset_from_tar unpacks tar_name data_dir rm)
    (fun _ => mark_extracted data_dir n) d
  = if unpacks content then
      Done tt
        (Disk
           (<[manifest_path data_dir :=
                default "" (files d !! manifest_path data_dir) +:+ String nl n]>
              (if rm then delete tar (files d) else files d))
           (trace d ++ [EvExtractStart tar; EvExtracted tar (os_path_dirname tar)]
              ++ if rm then [EvRemove tar] else []))
    else Raised (ReadError tar) (Disk (files d) (trace d ++ [EvExtractStart tar])).
Proof.
  intros tar_name tar Htar. unfold bind. rewrite extract_run. fold tar.
  pose proof (tar_ne_manifest data_dir n) as Hne. fold tar_name tar in Hne.
  rewrite Htar. destruct (unpacks content); [|done].
  unfold mark_extracted, append_file, modify.
  destruct rm; simpl.
  - by rewrite lookup_delete_ne by done.
  - reflexivity.
Qed.


(** The normal form of a name, by the part before its first
    underscore. *)
Lemma normalize_cases (name : string) :
  (first (split "_" (lower name)) = Some "m2m" /\ normalize name = "m2m") \/
  (first (split "_" (lower name)) <> Some "m2m" /\ normalize name = lower name).
Proof.
  unfold normalize, first.
  destruct (split "_" (lower name)) as [|w ws] eqn:Es.
  { by destruct (split_nonempty "_" (lower name)). }
  simpl. destruct (String.eqb_spec w "m2m") as [->|Hne]; [by left|].
  right. split; [congruence|done].
Qed.

Lemma url_dict_none (n : string) :
  url_dict !! n = None <->
  n ∉ ["entire_dataset"; "o2o_easy"; "o2o_medium"; "o2o_hard"; "m2m"].
Proof.
  split.
  - intros Hn Hin.
    repeat (apply elem_of_cons in Hin as [->|Hin]; [by vm_compute in Hn|]).
    by apply elem_of_nil in Hin.
  - intros Hout. destruct (url_dict !! n) as [u|] eqn:E; [|done].
    by apply url_dict_names in E.
Qed.

(** X1: the names the operation knows.  The table lookup fails exactly
    for the names whose lower-case form is none of ["entire_dataset"],
    ["o2o_easy"], ["o2o_medium"], ["o2o_hard"] and whose part before
    the first underscore is not ["m2m"] (so [m2m_anything] is known,
    also where the public entry point refuses it); for such a name the
    operation raises KeyError with the lower-case name at the lookup,
    before the disk is read or written and before a host is
    contacted. *)
Theorem unknown_names_raise_key_error_first
    (remote : string -> fetch_outcome) (unpacks : string -> bool)
    (name data_dir : string) (rm : bool) (d : disk) :
  (url_dict !! normalize name = None <->
   ((lower name ∉ ["entire_dataset"; "o2o_easy"; "o2o_medium"; "o2o_hard"]) /\
    first (split "_" (lower name)) <> Some "m2m")) /\
  (url_dict !! normalize name = None ->
   _download_dataset_if_not_available remote unpacks name data_dir rm d
   = Raised (KeyError (lower name)) d).
Proof.
  destruct (normalize_cases name) as [[Hf Hn]|[Hf Hn]]; rewrite Hn.
  - split; [|done]. split; [done|]. by intros [_ ?].
  - split.
    + rewrite url_dict_none. split.
      * intros Hout. split; [|done]. intros Hin. apply Hout.
        apply elem_of_app with (l1 := [_; _; _; _]). by left.
      * intros [Hout _] Hin.
        apply elem_of_app with (l1 := [_; _; _; _]) in Hin as [Hin|Hin];
          [done|].
        apply list_elem_of_singleton in Hin. apply Hf. by rewrite Hin.
    + intros Hnone. rewrite download_run. simpl. by rewrite Hn, Hnone.
Qed.

Lemma lower_char_idem (c : ascii) : lower_char (lower_char c) = lower_char c.
Proof. by destruct c as [[] [] [] [] [] [] [] []]. Qed.

Lemma lower_idem (s : string) : lower (lower s) = lower s.
Proof.
  induction s as [|c s IH]; simpl; [done|]. by rewrite lower_char_idem, IH.
Qed.

Lemma normalize_lower (name : string) : normalize (lower name) = normalize name.
Proof. unfold normalize. by rewrite lower_idem. Qed.

Lemma normalize_idem (name : string) :
  normalize (normalize name) = normalize name.
Proof.
  unfold normalize at 2 3.
  destruct (split "_" (lower name)) as [|w ws] eqn:Es.
  { unfold normalize. by rewrite lower_idem, Es. }
  destruct (String.eqb w "m2m") eqn:Ew; [reflexivity|].
  unfold normalize. by rewrite lower_idem, Es, Ew.
Qed.






(** X4: a run that had to acquire the dataset and finished has
    unpacked an archive that was on disk or was fetched whole; with
    the removal flag set the archive file is gone afterwards, without
    it the file is kept with the content that was unpacked. *)
Theorem archive_kept_iff_flag_unset (remote : string -> fetch_outcome)
    (unpacks : string -> bool) (name data_dir : string) (rm : bool)
    (d d1 : disk) :
  let n := normalize name in
  let tar := os_path_join data_dir ("spawrious__" +:+ n +:+ ".tar.gz") in
  is_extracted n data_dir d = false ->
  _download_dataset_if_not_available remote unpacks name data_dir rm d
  = Done tt d1 ->
  exists content,
    unpacks content = true /\
    files d1 !! tar = (if rm then None else Some content) /\
    (files d !! tar = Some content \/
     (files d !! tar = None /\
      exists url, url_dict !! n = Some url /\ remote url = Body content)).
Proof.
  intros n tar Hx. rewrite download_run. fold n. fold tar. rewrite Hx.
  pose proof (tar_ne_manifest data_dir n) as Hne. fold tar in Hne.
  destruct (url_dict !! n) as [url|]; [|done].
  destruct (files d !! tar) as [c|] eqn:Et.
  - rewrite (acquire_outcome unpacks n data_dir rm d c Et). fold tar.
    destruct (unpacks c) eqn:Ec; [|done]. intros [= <-]. exists c.
    split_and!; [done| |by left]. simpl. rewrite lookup_insert_ne by done.
    destruct rm; [by rewrite lookup_delete_eq|done].
  - unfold bind at 1. rewrite fetch_run.
    destruct (remote url) as [b| |p] eqn:Er; [|done..].
    rewrite (acquire_outcome unpacks n data_dir rm _ b); fold tar.
    2:{ simpl. by rewrite lookup_insert_eq. }
    destruct (unpacks b) eqn:Ec; [|done]. intros [= <-]. exists b.
    split_and!; [done| |right; split; [done|by exists url]].
    simpl. rewrite lookup_insert_ne by done.
    destruct rm; [by rewrite lookup_delete_eq|by rewrite lookup_insert_eq].
Qed.

Lemma archive_kept_iff_flag_unset_witness :
  exists content,
    files (final (_download_dataset_if_not_available Fixtures.serving
                    Fixtures.sound "o2o_easy" "./data" false
                    Fixtures.empty_disk))
      !! "./data/spawrious__o2o_easy.tar.gz" = Some content.
Proof.
  destruct (_download_dataset_if_not_available Fixtures.serving Fixtures.sound
              "o2o_easy" "./data" false Fixtures.empty_disk)
    as [[] d1|e d1] eqn:E.
  - destruct (archive_kept_iff_flag_unset Fixtures.serving Fixtures.sound
                "o2o_easy" "./data" false Fixtures.empty_disk d1 eq_refl E)
      as (content & _ & Hfile & _).
    by exists content.
  - vm_compute in E. discriminate.
Defined.

(** X5: a transfer that breaks leaves the bytes received under the
    archive's name and raises; the next run finds a file there and
    never asks the host again: it unpacks what is there, raising
    ReadError when that fails and marking the dataset as extracted when
    it happens to succeed. *)
Theorem broken_transfer_is_not_repeated (remote remote' : string -> fetch_outcome)
    (unpacks : string -> bool) (name data_dir url partial : string)
    (rm rm' : bool) (d : disk) :
  let n := normalize name in
  let tar := os_path_join data_dir ("spawrious__" +:+ n +:+ ".tar.gz") in
  let d1 := Disk (<[tar := partial]> (files d)) (trace d) in
  url_dict !! n = Some url ->
  files d !! tar = None ->
  is_extracted n data_dir d = false ->
  remote url = Broken partial ->
  _download_dataset_if_not_available remote unpacks name data_dir rm d
  = Raised (URLError url) d1 /\
  _download_dataset_if_not_available remote' unpacks name data_dir rm' d1
  = if unpacks partial then
      Done tt
        (Disk
           (<[manifest_path data_dir :=
                default "" (manifest data_dir d) +:+ String nl n]>
              (if rm' then delete tar (files d1) else files d1))
           (trace d ++ [EvExtractStart tar; EvExtracted tar (os_path_dirname tar)]
              ++ if rm' then [EvRemove tar] else []))
    else Raised (ReadError tar) (Disk (files d1) (trace d ++ [EvExtractStart tar])).
Proof.
  intros n tar d1 Hu Htar Hx Hr.
  pose proof (tar_ne_manifest data_dir n) as Hne. fold tar in Hne.
  split.
  - rewrite download_run. fold n. fold tar. rewrite Hu, Hx, Htar.
    unfold bind at 1. by rewrite fetch_run, Hr.
  - rewrite download_run. fold n. fold tar. rewrite Hu.
    assert (Hx1 : is_extracted n data_dir d1 = false).
    { unfold is_extracted in *. simpl. by rewrite lookup_insert_ne. }
    assert (Ht1 : files d1 !! tar = Some partial).
    { simpl. by rewrite lookup_insert_eq. }
    rewrite Hx1, Ht1.
    rewrite (acquire_outcome unpacks n data_dir rm' d1 partial Ht1). fold tar.
    unfold manifest. simpl. by rewrite lookup_insert_ne.
Qed.

Lemma broken_transfer_is_not_repeated_witness :
  raised (_download_dataset_if_not_available Worlds.breaking Fixtures.damaged
            "o2o_hard" "./data" true Fixtures.empty_disk)
  = Some (URLError
            "https://www.dropbox.com/s/m5eeqp0nsc31nyt/spawrious__o2o_hard.tar.gz?dl=1").
Proof.
  destruct (broken_transfer_is_not_repeated Worlds.breaking Fixtures.serving
              Fixtures.damaged "o2o_hard" "./data"
              "https://www.dropbox.com/s/m5eeqp0nsc31nyt/spawrious__o2o_hard.tar.gz?dl=1"
              "first bytes" true true Fixtures.empty_disk)
    as [H _]; [vm_compute; reflexivity..|].
  by rewrite H.
Defined.

Lemma marker_lists_every_name (n content : string) :
  listed "entire_dataset" content = true -> listed n content = true.
Proof.
  unfold listed. rewrite !orb_true_iff. intros [H|H]; by right.
Qed.

(** X6: once a run for ["entire_dataset"] has finished, a run for any
    name with a URL that follows it directly does nothing: the marker
    on the last line stands for every dataset. *)
Theorem entire_dataset_covers_every_name
    (remote remote' : string -> fetch_outcome)
    (unpacks unpacks' : string -> bool) (name data_dir url : string)
    (rm rm' : bool) (d d1 : disk) :
  _download_dataset_if_not_available remote unpacks "entire_dataset" data_dir
    rm d = Done tt d1 ->
  url_dict !! normalize name = Some url ->
  _download_dataset_if_not_available remote' unpacks' name data_dir rm' d1
  = Done tt d1.
Proof.
  intros H Hu.
  destruct (download_done _ _ _ _ _ _ _ H) as (u & Hu0 & Hcase).
  change (normalize "entire_dataset") with "entire_dataset" in *.
  apply listed_is_noop with url; [done|].
  unfold is_extracted in *.
  destruct Hcase as [[-> Hx]|(_ & Hm & _)].
  - destruct (files d !! manifest_path data_dir) as [c|]; [|done].
    by apply marker_lists_every_name.
  - rewrite Hm. apply marker_lists_every_name.
    by apply listed_after_mark with u.
Qed.

Lemma entire_dataset_covers_every_name_witness :
  _download_dataset_if_not_available Fixtures.serving Fixtures.damaged
    "m2m_hard" "./data" true
    (final (_download_dataset_if_not_available Fixtures.serving Fixtures.sound
              "entire_dataset" "./data" true Fixtures.empty_disk))
  = Done tt
      (final (_download_dataset_if_not_available Fixtures.serving
                Fixtures.sound "entire_dataset" "./data" true
                Fixtures.empty_disk)).
Proof.
  apply (entire_dataset_covers_every_name Fixtures.serving Fixtures.serving
           Fixtures.sound Fixtures.damaged "m2m_hard" "./data"
           "https://www.dropbox.com/s/spwszi0rxbf53f8/spawrious__m2m.tar.gz?dl=1"
           true true Fixtures.empty_disk);
    vm_compute; reflexivity.
Defined.

(** X7: a run depends on the name only through its normal form, which
    is stable: the name, its lower-case form and its normal form give
    the same run, and the public entry point gives the same run for a
    name and for its lower-case form. *)
Theorem names_matter_up_to_normal_form (remote : string -> fetch_outcome)
    (unpacks : string -> bool) (name data_dir : string) (rm : bool)
    (d : disk) :
  normalize (normalize name) = normalize name /\
  _download_dataset_if_not_available remote unpacks (normalize name) data_dir
    rm d
  = _download_dataset_if_not_available remote unpacks name data_dir rm d /\
  _download_dataset_if_not_available remote unpacks (lower name) data_dir rm d
  = _download_dataset_if_not_available remote unpacks name data_dir rm d /\
  download_spawrious_dataset remote unpacks (lower name) data_dir d
  = download_spawrious_dataset remote unpacks name data_dir d.
Proof.
  split_and!.
  - apply normalize_idem.
  - unfold _download_dataset_if_not_available. by rewrite normalize_idem.
  - unfold _download_dataset_if_not_available. by rewrite normalize_lower.
  - unfold download_spawrious_dataset, _download_dataset_if_not_available.
    by rewrite lower_idem, normalize_lower.
Qed.

(** Lines with their ends against entries: a text without line end
    is its own single line; otherwise the first line is the first
    entry with its line end. *)
Lemma keepends_head (s : string) :
  match split nl s with
  | [] => False
  | [w] => s = w /\ keepends s = (if String.eqb s "" then [] else [s])
  | w :: _ :: _ => exists ls, keepends s = (w +:+ String nl "") :: ls
  end.
Proof.
  induction s as [|c r IH]; simpl; [done|].
  destruct (Ascii.eqb c nl) eqn:E.
  - apply Ascii.eqb_eq in E as ->.
    pose proof (split_nonempty nl r) as Hne.
    destruct (split nl r) as [|w ws]; [done|]. by eexists.
  - destruct (split nl r) as [|w [|w' ws]]; [done| |].
    + destruct IH as [<- Hk]. split; [done|]. rewrite Hk.
      by destruct r.
    + destruct IH as [ls ->]. by exists ls.
Qed.

Lemma split_terminated (u : string) :
  exists w w' ws, split nl (u +:+ String nl "") = w :: w' :: ws.
Proof.
  induction u as [|c u (w & w' & ws & IH)]; simpl.
  - by eexists _, _, _.
  - destruct (Ascii.eqb c nl); rewrite IH; by eexists _, _, _.
Qed.

(** A non-empty text without line end is among the lines read exactly
    when it is the last entry. *)
Lemma keepends_last (x : string) :
  split nl x = [x] -> x <> "" ->
  forall s, x ∈ keepends s <-> last (split nl s) = Some x.
Proof.
  intros Hx Hne. induction s as [|c r IH]; simpl.
  - split; [by intros ?%elem_of_nil|]. intros [= <-]. done.
  - pose proof (keepends_head r) as Hh.
    pose proof (split_nonempty nl r) as Hsp.
    destruct (Ascii.eqb c nl) eqn:E.
    + rewrite elem_of_cons, IH.
      destruct (split nl r) as [|w ws] eqn:Es; [done|]. simpl.
      split; [|by right]. intros [->|H]; [|done].
      vm_compute in Hx. discriminate.
    + destruct (split nl r) as [|w [|w' ws]] eqn:Es; [done| |].
      * destruct Hh as [-> Hk]. rewrite Hk. simpl.
        destruct (String.eqb w "") eqn:Ew.
        -- apply String.eqb_eq in Ew as ->. rewrite list_elem_of_singleton.
           split; [by intros ->|by intros [= <-]].
        -- rewrite list_elem_of_singleton.
           split; [by intros ->|by intros [= <-]].
      * destruct Hh as [ls Hk]. rewrite Hk in IH |- *.
        change (last (String c w :: w' :: ws)) with (last (w :: w' :: ws)).
        rewrite <- IH, !elem_of_cons.
        assert (Hterm : forall u, x <> u +:+ String nl "").
        { intros u ->. destruct (split_terminated u) as (a & b & l & Hu).
          rewrite Hu in Hx. discriminate. }
        split; (intros [He|Hin]; [|by right]); exfalso.
        -- by apply (Hterm (String c w)).
        -- by apply (Hterm w).
Qed.

(** X8: what the test on the manifest decides.  For a non-empty name
    without line end, the name counts as extracted exactly when the
    text after the last line end of the manifest is the name or the
    marker ["entire_dataset"]; entries on earlier lines, and a last
    line that is terminated, count for nothing. *)
Theorem listed_iff_last_entry (n content : string) :
  split nl n = [n] -> n <> "" ->
  listed n content = true <->
  last (split nl (universal_newlines content)) = Some n \/
  last (split nl (universal_newlines content)) = Some "entire_dataset".
Proof.
  intros Hn Hne. unfold listed, readlines.
  rewrite orb_true_iff, !bool_decide_eq_true, !elem_of_list_to_set.
  by rewrite (keepends_last n Hn Hne), (keepends_last "entire_dataset").
Qed.

Lemma listed_iff_last_entry_witness :
  listed "m2m" Fixtures.two_entries = true.
Proof.
  apply (listed_iff_last_entry "m2m" Fixtures.two_entries);
    [reflexivity|discriminate|]. left. reflexivity.
Defined.

End ArchiveMore.

(** ** Further properties of the per-class scan *)

Module ScanMore.
Import Benchmark ScanFacts.

Lemma positions_length (c : nat) (labels : list nat) :
  forall i, length (positions_of_class c labels i)
            = length (filter (fun label => label = c) labels).
Proof.
  induction labels as [|label rest IH]; intros i; simpl; [done|].
  rewrite filter_cons. destruct (Nat.eqb_spec label c) as [->|Hne].
  - rewrite decide_True by done. simpl. by rewrite IH.
  - rewrite decide_False by done. apply IH.
Qed.

Lemma positions_increasing (c : nat) (labels : list nat) :
  forall i, Forall (fun j => (i <= j)%nat) (positions_of_class c labels i) /\
            NoDup (positions_of_class c labels i).
Proof.
  induction labels as [|label rest IH]; intros i; simpl.
  - split; constructor.
  - destruct (IH (S i)) as [Hge Hnd].
    assert (Hge' : Forall (fun j => (i <= j)%nat)
                     (positions_of_class c rest (S i))).
    { eapply Forall_impl; [exact Hge|]. intros j Hj. simpl in *. clear -Hj. lia. }
    destruct (Nat.eqb label c); [|done].
    split; [by constructor|]. constructor; [|done].
    intros Hin. rewrite Forall_forall in Hge. specialize (Hge _ Hin).
    simpl in Hge. lia.
Qed.

(** X9: for a cap of at least one, the number of positions a training
    placement keeps is the sum, over the class indices of the group in
    the order given, of the smaller of the cap and the number of items
    of that class: every item of a class is kept when the class has at
    most [cap] items, and a class index that occurs twice in the group
    is counted, and kept, twice. *)
Theorem train_keep_length (labels classes_idx : list nat) (cap : Z) :
  (1 <= cap)%Z ->
  length (train_keep labels classes_idx cap)
  = sum_list
      ((fun c => Z.to_nat cap `min`
                 length (filter (fun label => label = c) labels))
         <$> classes_idx).
Proof.
  intros Hcap. rewrite train_keep_first_cap by done. unfold spec_train_keep.
  induction classes_idx as [|c cs IH]; simpl; [done|].
  rewrite length_app, IH, length_take, positions_length. reflexivity.
Qed.

Lemma train_keep_length_witness :
  length (train_keep [0; 0; 1; 2; 0]%nat [0; 1; 0]%nat 2) = 5%nat.
Proof.
  rewrite (train_keep_length [0; 0; 1; 2; 0]%nat [0; 1; 0]%nat 2); [|lia].
  reflexivity.
Defined.

(** X10: for a cap of at least one and a group whose class indices are
    pairwise different, no position is kept twice, every kept position
    exists and carries a class index of the group. *)
Theorem train_keep_no_repetition (labels classes_idx : list nat) (cap : Z) :
  (1 <= cap)%Z -> NoDup classes_idx ->
  NoDup (train_keep labels classes_idx cap) /\
  forall j, j ∈ train_keep labels classes_idx cap ->
    exists c, c ∈ classes_idx /\ labels !! j = Some c.
Proof.
  intros Hcap Hnd. rewrite train_keep_first_cap by done. unfold spec_train_keep.
  assert (Hmem : forall cs j,
            j ∈ concat (List.map
                          (fun c => take (Z.to_nat cap)
                                      (positions_of_class c labels 0)) cs) ->
            exists c, c ∈ cs /\ labels !! j = Some c).
  { induction cs as [|c cs IH]; intros j; simpl.
    - by intros ?%elem_of_nil.
    - rewrite elem_of_app. intros [Hj|Hj].
      + apply elem_of_take in Hj as (k & Hk & _).
        apply list_elem_of_lookup_2, positions_of_class_spec in Hk as [_ Hk].
        rewrite Nat.sub_0_r in Hk. exists c. split; [by left|done].
      + destruct (IH j Hj) as (c' & Hc' & Hl). exists c'. split; [by right|done]. }
  split; [|apply Hmem].
  induction Hnd as [|c cs Hnotin Hnd IH]; simpl; [constructor|].
  apply NoDup_app. split_and!.
  - eapply RebindFacts.NoDup_submseteq_l; [apply submseteq_take|].
    apply positions_increasing.
  - intros j Hj Hj'.
    apply elem_of_take in Hj as (k & Hk & _).
    apply list_elem_of_lookup_2, positions_of_class_spec in Hk as [_ Hk].
    rewrite Nat.sub_0_r in Hk.
    destruct (Hmem cs j Hj') as (c' & Hc' & Hl). congruence.
  - exact IH.
Qed.

Lemma train_keep_no_repetition_witness :
  NoDup (train_keep [0; 0; 1; 2; 0]%nat [0; 1]%nat 2) /\
  forall j, j ∈ train_keep [0; 0; 1; 2; 0]%nat [0; 1]%nat 2 ->
    exists c, c ∈ [0; 1]%nat /\ [0; 0; 1; 2; 0]%nat !! j = Some c.
Proof.
  apply (train_keep_no_repetition [0; 0; 1; 2; 0]%nat [0; 1]%nat 2); [lia|].
  repeat constructor; rewrite ?elem_of_cons; intros H;
    repeat (destruct H as [H|H]; [discriminate|]); by apply elem_of_nil in H.
Defined.

End ScanMore.

(** ** Outcomes of loops, finished or not *)

Module LoopMore.
Import LoopFacts.

(** A run that relates its two states by [R] and raises only what [E]
    allows. *)
Local Abbreviation fits R E s o :=
  (R s (final o) /\ forall e, raised o = Some e -> E e).

Lemma bind_fits {S A B} (R : S -> S -> Prop) `{!PreOrder R} (E : exn -> Prop)
    (c : M S A) (k : A -> M S B) (s : S) :
  fits R E s (c s) ->
  (forall a s1, c s = Done a s1 -> fits R E s1 (k a s1)) ->
  fits R E s (bind c k s).
Proof.
  intros [HR HE] Hk. unfold bind. destruct (c s) as [a s1|e s1]; simpl in *.
  - destruct (Hk a s1 eq_refl) as [HR' HE']. split; [by etrans|done].
  - by split.
Qed.

Lemma for_each_fits {S A B} (R : S -> S -> Prop) `{!PreOrder R}
    (E : exn -> Prop) (f : A -> M S B) :
  forall xs : list A,
    (forall x s, x ∈ xs -> fits R E s (f x s)) ->
    forall s, fits R E s (for_each f xs s).
Proof.
  induction xs as [|x xs IH]; intros Hf s.
  - simpl. split; [reflexivity|done].
  - change (for_each f (x :: xs))
      with (bind (f x) (fun y => bind (for_each f xs) (fun ys => ret (y :: ys)))).
    apply bind_fits; [done|by apply Hf; left|]. intros y s1 _.
    apply bind_fits; [done| |].
    + apply IH. intros x' s' Hin. apply Hf. by right.
    + intros ys s2 _. simpl. split; [reflexivity|done].
Qed.

(** A loop that finishes has one result per element. *)
Lemma for_each_length {S A B} (f : A -> M S B) :
  forall (xs : list A) (s : S) (ys : list B) (s' : S),
    for_each f xs s = Done ys s' -> length ys = length xs.
Proof.
  induction xs as [|x xs IH]; intros s ys s'.
  - simpl. by intros [= <- <-].
  - rewrite for_each_cons. destruct (f x s) as [y s1|e s1]; [|done].
    destruct (for_each f xs s1) as [ys1 s2|e s2] eqn:E; [|done].
    intros [= <- <-]. simpl. f_equal. by eapply IH.
Qed.

(** A loop whose body finishes on every element, leaving the state
    alone, finishes. *)
Lemma for_each_total {S A B} (f : A -> M S B) (xs : list A) (s : S) :
  (forall x, x ∈ xs -> exists y, f x s = Done y s) ->
  exists ys, for_each f xs s = Done ys s.
Proof.
  induction xs as [|x xs IH]; intros Hf; [by exists []|].
  rewrite for_each_cons. destruct (Hf x) as [y ->]; [by left|].
  destruct IH as [ys ->]; [|by eexists].
  intros x' Hx'. apply Hf. by right.
Qed.

End LoopMore.

(** ** The joining stage of the constructor *)

Module InitMore.
Import Py Benchmark Shape LoopFacts ResolverFacts LoopMore.

Local Abbreviation fits R E s o :=
  (R s (final o) /\ forall e, raised o = Some e -> E e).

(** Joining the groups of a matrix changes no state and raises nothing
    but IndexError: the list of parts of a joint dataset has one entry
    per class group and the matrix has a first row, so the assertion of
    [ConcatDataset] cannot fail there. *)
Lemma join_groups_fits {S} (m : list (list dataset)) (s : S) :
  fits eq (fun e => e = IndexError) s (join_groups m s).
Proof.
  unfold join_groups. apply bind_fits; [apply _| |].
  - unfold subscript. destruct (m !! 0%nat); simpl; (split; [done|]); [done|].
    by intros e [= <-].
  - intros first_row s1 H0. unfold subscript in H0.
    destruct (m !! 0%nat) as [row0|] eqn:E0; [|done]. clear H0.
    apply for_each_fits; [apply _|]. intros g s2 _.
    apply bind_fits; [apply _| |].
    + apply for_each_fits; [apply _|]. intros k s3 _.
      apply bind_fits; [apply _| |].
      * unfold subscript. destruct (m !! k); simpl; (split; [done|]); [done|].
        by intros e [= <-].
      * intros row s4 _. unfold subscript.
        destruct (row !! g); simpl; (split; [done|]); [done|].
        by intros e [= <-].
    + intros col s3 Hcol. apply for_each_length in Hcol.
      rewrite length_seq in Hcol. unfold ConcatDataset.
      destruct col as [|d col]; [|by split].
      apply lookup_lt_Some in E0. simpl in Hcol. lia.
Qed.

(** A matrix with a row shorter than the first cannot be joined. *)
Lemma join_groups_short_row {S} (m : list (list dataset)) (s : S)
    (first_row row : list dataset) (k : nat) :
  m !! 0%nat = Some first_row -> m !! k = Some row ->
  (length row < length first_row)%nat ->
  join_groups m s = Raised IndexError s.
Proof.
  intros H0 Hk Hlt. destruct (join_groups_fits m s) as [Hs He].
  destruct (join_groups m s) as [js s'|e s'] eqn:E; simpl in *.
  - exfalso. apply join_groups_done in E as (_ & fr & Hfr & _ & Hcols).
    assert (fr = first_row) as -> by congruence.
    destruct (Hcols (length row) Hlt) as (col & _ & _ & Hrows).
    destruct (Hrows k row Hk) as (d & Hd & _).
    apply lookup_lt_Some in Hd. lia.
  - subst s'. by rewrite (He e eq_refl).
Qed.

(** A matrix none of whose rows is shorter than the first can be
    joined. *)
Lemma join_groups_total {S} (m : list (list dataset)) (s : S)
    (first_row : list dataset) :
  m !! 0%nat = Some first_row ->
  (forall k row, m !! k = Some row -> (length first_row <= length row)%nat) ->
  exists js, join_groups m s = Done js s /\ length js = length first_row.
Proof.
  intros H0 Hall. unfold join_groups, bind at 1, subscript at 1. rewrite H0.
  unfold ret at 1.
  match goal with
  | |- context [for_each ?F ?xs s] =>
      destruct (for_each_total F xs s) as [js Hjs]
  end.
  - intros g Hg%elem_of_seq. cbv beta.
    match goal with
    | |- context [bind (for_each ?F ?xs) _ s] =>
        destruct (for_each_total F xs s) as [col Hcol]
    end.
    + intros k Hk%elem_of_seq.
      destruct (lookup_lt_is_Some_2 m k) as [row Hrow]; [lia|].
      destruct (lookup_lt_is_Some_2 row g) as [d Hd].
      { specialize (Hall k row Hrow). lia. }
      exists d. unfold bind, subscript, ret. rewrite Hrow. cbv beta iota.
      by rewrite Hd.
    + unfold bind at 1. rewrite Hcol.
      apply for_each_length in Hcol. rewrite length_seq in Hcol.
      destruct col as [|d col]; [|by eexists].
      apply lookup_lt_Some in H0. simpl in Hcol. lia.
  - exists js. split; [done|].
    apply for_each_length in Hjs. by rewrite length_seq in Hjs.
Qed.

Section Storage.

Variable expanduser : string -> string.
Variable listing : string -> option (gmap string nat * list sample).

(** A constructor run whose training matrix was built and cannot be
    joined. *)
Lemma init_unjoinable (tr : list (list string * list placement))
    (test : test_combinations) (root_dir : string) (augment type1 : bool)
    (h0 h1 : heap) (m : list (list dataset)) :
  train_matrix expanduser listing root_dir type1
    (if augment then Augmenting else Plain) tr h0 = Done m h1 ->
  join_groups m h1 = Raised IndexError h1 ->
  init expanduser listing (TrainDict tr) test root_dir augment type1 h0
  = Raised IndexError h1.
Proof.
  intros Hm Hj. unfold init, bind at 1, bind at 1. by rewrite Hm, Hj.
Qed.

Lemma short_group_run (tr : list (list string * list placement))
    (test : test_combinations) (root_dir : string) (augment type1 : bool)
    (h0 h1 : heap) (m : list (list dataset))
    (classes0 classes : list string) (pls0 pls : list placement) (k : nat) :
  tr !! 0%nat = Some (classes0, pls0) -> tr !! k = Some (classes, pls) ->
  (length pls < length pls0)%nat ->
  train_matrix expanduser listing root_dir type1
    (if augment then Augmenting else Plain) tr h0 = Done m h1 ->
  init expanduser listing (TrainDict tr) test root_dir augment type1 h0
  = Raised IndexError h1.
Proof.
  intros H0 Hk Hlt Hm. apply init_unjoinable with m; [done|].
  apply (matrix_done _ _
           (train_placement_done expanduser listing root_dir type1
              (if augment then Augmenting else Plain)))
    in Hm as (fs & _ & _ & _ & _ & Hrows).
  destruct (Hrows _ _ _ H0) as (row0 & Hr0 & Hl0 & _).
  destruct (Hrows _ _ _ Hk) as (row & Hr & Hl & _).
  apply join_groups_short_row with row0 row k; [done..|lia].
Qed.

(** X12: a training mapping in which some class group has fewer
    placements than the first never yields a record: once every
    placement of every class group has been scanned, joining the groups
    raises IndexError, the folders scanned staying allocated. *)
Theorem shorter_class_group_raises_index_error
    (tr : list (list string * list placement)) (test : test_combinations)
    (root_dir : string) (augment type1 : bool) (h0 : heap)
    (classes0 classes : list string) (pls0 pls : list placement) (k : nat) :
  tr !! 0%nat = Some (classes0, pls0) -> tr !! k = Some (classes, pls) ->
  (length pls < length pls0)%nat ->
  (forall datasets h,
     init expanduser listing (TrainDict tr) test root_dir augment type1 h0
     <> Done datasets h) /\
  forall m h1,
    train_matrix expanduser listing root_dir type1
      (if augment then Augmenting else Plain) tr h0 = Done m h1 ->
    init expanduser listing (TrainDict tr) test root_dir augment type1 h0
    = Raised IndexError h1.
Proof.
  intros H0 Hk Hlt. split.
  - intros datasets h Hdone.
    pose proof Hdone as (m & h1 & _ & _ & Hm & _)%init_train_done.
    by rewrite (short_group_run _ test _ _ _ _ _ _ _ _ _ _ _ H0 Hk Hlt Hm)
      in Hdone.
  - intros m h1 Hm. by eapply short_group_run.
Qed.

(** X13: empty inputs.  An empty training mapping raises IndexError
    before any directory is read; an empty test mapping or an empty
    test list never yields a record; with nothing to train on either,
    the empty test list raises the AssertionError of [ConcatDataset]
    and the empty test mapping raises IndexError. *)
Theorem empty_inputs_never_finish (train : train_combinations)
    (test : test_combinations) (root_dir : string) (augment type1 : bool)
    (h0 : heap) :
  init expanduser listing (TrainDict []) test root_dir augment type1 h0
  = Raised IndexError h0 /\
  (forall datasets h,
     init expanduser listing train (TestDict []) root_dir augment type1 h0
     <> Done datasets h) /\
  (forall datasets h,
     init expanduser listing train (TestList []) root_dir augment type1 h0
     <> Done datasets h) /\
  init expanduser listing (TrainList []) (TestList []) root_dir augment type1 h0
  = Raised AssertionError h0 /\
  init expanduser listing (TrainList []) (TestDict []) root_dir augment type1 h0
  = Raised IndexError h0.
Proof.
  split_and!; try reflexivity.
  - intros datasets h. unfold init, bind at 1.
    match goal with
    | |- context [match ?c h0 with Done _ _ => _ | Raised _ _ => _ end] =>
        destruct (c h0) as [tl h1|e h1]; [|done]
    end.
    done.
  - intros datasets h. unfold init, bind at 1.
    match goal with
    | |- context [match ?c h0 with Done _ _ => _ | Raised _ _ => _ end] =>
        destruct (c h0) as [tl h1|e h1]; [|done]
    end.
    done.
Qed.

(** The size of a matrix whose rows are as long as the lists they were
    built from. *)
Lemma matrix_size {A B C : Type} :
  forall (items : list (C * list A)) (m : list (list B)),
    length m = length items ->
    (forall k c xs, items !! k = Some (c, xs) ->
       exists row, m !! k = Some row /\ length row = length xs) ->
    length (concat m) = sum_list ((fun item => length item.2) <$> items).
Proof.
  induction items as [|[c xs] items IH]; intros [|row m] Hlen Hrows;
    try done.
  simpl. rewrite length_app. f_equal.
  - destruct (Hrows 0%nat c xs eq_refl) as (row' & [= <-] & Hl). done.
  - apply IH; [by injection Hlen|]. intros k c' xs' Hk.
    apply (Hrows (S k) c' xs' Hk).
Qed.

(** The number of parts of the joint datasets of a matrix. *)
Lemma joined_size {S} (m : list (list dataset)) (s s' : S)
    (js : list dataset) (first_row : list dataset) :
  join_groups m s = Done js s' -> m !! 0%nat = Some first_row ->
  length (concat (parts <$> js)) = (length first_row * length m)%nat.
Proof.
  intros (_ & fr & Hfr & Hlen & Hcols)%join_groups_done H0.
  assert (fr = first_row) as -> by congruence.
  rewrite <- Hlen.
  assert (Hall : forall g one, js !! g = Some one -> length (parts one) = length m).
  { intros g one Hg. destruct (Hcols g) as (col & Hc & Hl & _).
    - rewrite <- Hlen. by eapply lookup_lt_Some.
    - rewrite Hg in Hc. injection Hc as ->. done. }
  clear -Hall. induction js as [|one js IH]; [done|].
  rewrite fmap_cons. cbn [concat length].
  rewrite length_app, (Hall 0%nat one eq_refl), IH; [lia|].
  intros g one' Hg. apply (Hall (S g) one' Hg).
Qed.

(** X11: once every placement of the two mappings has been scanned,
    the constructor finishes whenever no class group has fewer
    placements than the first class group of its mapping and the first
    test class group has a location: the joins of lines 197-205 and
    236-244 and the final [ConcatDataset] then cannot fail, and the
    record is the test dataset followed by as many joint training
    datasets as the first training class group has placements. *)
Theorem construction_finishes_when_no_group_is_shorter
    (tr : list (list string * list placement))
    (te : list (list string * list string)) (root_dir : string)
    (augment type1 : bool) (h0 h1 h : heap) (mtr mte : list (list dataset))
    (classes0 classes_te : list string) (pls0 : list placement)
    (locs0 : list string) :
  train_matrix expanduser listing root_dir type1
    (if augment then Augmenting else Plain) tr h0 = Done mtr h1 ->
  test_matrix expanduser listing root_dir type1 te h1 = Done mte h ->
  tr !! 0%nat = Some (classes0, pls0) ->
  te !! 0%nat = Some (classes_te, locs0) ->
  locs0 <> [] ->
  (forall k classes pls,
     tr !! k = Some (classes, pls) -> (length pls0 <= length pls)%nat) ->
  (forall k classes locs,
     te !! k = Some (classes, locs) -> (length locs0 <= length locs)%nat) ->
  exists datasets,
    init expanduser listing (TrainDict tr) (TestDict te) root_dir augment type1
      h0 = Done datasets h /\
    length datasets = S (length pls0).
Proof.
  intros Htr Hte H0 H1 Hne Hall_tr Hall_te.
  pose proof Htr as Htr'. pose proof Hte as Hte'.
  apply (matrix_done _ _
           (train_placement_done expanduser listing root_dir type1
              (if augment then Augmenting else Plain)))
    in Htr' as (fs1 & _ & Hl1 & _ & _ & Hrows1).
  apply (matrix_done _ _ (test_placement_done expanduser listing root_dir type1))
    in Hte' as (fs2 & _ & Hl2 & _ & _ & Hrows2).
  destruct (Hrows1 _ _ _ H0) as (row_tr & Hrow_tr & Hlen_tr & _).
  destruct (Hrows2 _ _ _ H1) as (row_te & Hrow_te & Hlen_te & _).
  destruct (join_groups_total mtr h1 row_tr Hrow_tr) as (trj & Hjtr & Hltr).
  { intros k row Hk.
    destruct (lookup_lt_is_Some_2 tr k) as [[c pls] Hc].
    { rewrite <- Hl1. by eapply lookup_lt_Some. }
    destruct (Hrows1 _ _ _ Hc) as (row' & Hrow' & Hlen' & _).
    assert (row' = row) as -> by congruence.
    rewrite Hlen_tr, Hlen'. by eapply Hall_tr. }
  destruct (join_groups_total mte h row_te Hrow_te) as (tej & Hjte & Hlte).
  { intros k row Hk.
    destruct (lookup_lt_is_Some_2 te k) as [[c locs] Hc].
    { rewrite <- Hl2. by eapply lookup_lt_Some. }
    destruct (Hrows2 _ _ _ Hc) as (row' & Hrow' & Hlen' & _).
    assert (row' = row) as -> by congruence.
    rewrite Hlen_te, Hlen'. by eapply Hall_te. }
  exists (DConcat tej :: trj). split; [|simpl; congruence].
  unfold init, bind at 1, bind at 1. rewrite Htr, Hjtr.
  unfold bind at 1, bind at 1. rewrite Hte, Hjte.
  unfold bind, ConcatDataset. destruct tej as [|t0 tej0]; [|done].
  destruct locs0; [done|]. simpl in *. lia.
Qed.

(** X14: a finished construction on two mappings has scanned one
    directory for every placement of either mapping, as many new image
    folders as the two mappings list placements, added after the
    folders that existed; the record reads from one folder per class
    group and position of the first class group's list, so the
    placements beyond that length were scanned for nothing. *)
Theorem init_scans_every_placement
    (tr : list (list string * list placement))
    (te : list (list string * list string)) (root_dir : string)
    (augment type1 : bool) (h0 h : heap) (datasets : list dataset) :
  init expanduser listing (TrainDict tr) (TestDict te) root_dir augment type1 h0
  = Done datasets h ->
  exists fs classes0 pls0 classes_te locs0,
    h = h0 ++ fs /\
    length fs
    = (sum_list ((fun item => length item.2) <$> tr)
       + sum_list ((fun item => length item.2) <$> te))%nat /\
    tr !! 0%nat = Some (classes0, pls0) /\
    te !! 0%nat = Some (classes_te, locs0) /\
    length (concat (folders_of <$> datasets))
    = (length locs0 * length te + length pls0 * length tr)%nat.
Proof.
  intros H.
  apply init_dict_done in H
    as (mtr & h1 & mte & trj & tej & Htr & Hte & Hjtr & Hjte & ->).
  destruct (RebindFacts.visited_parts _ _ _ _ _ _ _ _ _
              (train_placement_done expanduser listing root_dir type1
                 (if augment then Augmenting else Plain)) Htr Hjtr)
    as (Hc_tr & Hs_tr & _ & _).
  destruct (RebindFacts.visited_parts _ _ _ _ _ _ _ _ _
              (test_placement_done expanduser listing root_dir type1)
              Hte Hjte)
    as (Hc_te & Hs_te & _ & _).
  apply (matrix_done _ _
           (train_placement_done expanduser listing root_dir type1
              (if augment then Augmenting else Plain)))
    in Htr as (fs1 & -> & Hl1 & Hfs1 & _ & Hrows1).
  apply (matrix_done _ _ (test_placement_done expanduser listing root_dir type1))
    in Hte as (fs2 & -> & Hl2 & Hfs2 & _ & Hrows2).
  pose proof Hjtr as (_ & row_tr & Hrow_tr & _)%join_groups_done.
  pose proof Hjte as (_ & row_te & Hrow_te & _)%join_groups_done.
  destruct tr as [|[classes0 pls0] tr']; [by destruct mtr|].
  destruct te as [|[classes_te locs0] te']; [by destruct mte|].
  destruct (Hrows1 0%nat classes0 pls0 eq_refl) as (r1 & Hr1 & Hlr1 & _).
  destruct (Hrows2 0%nat classes_te locs0 eq_refl) as (r2 & Hr2 & Hlr2 & _).
  assert (r1 = row_tr) as -> by congruence.
  assert (r2 = row_te) as -> by congruence.
  exists (fs1 ++ fs2), classes0, pls0, classes_te, locs0.
  split_and!; [by rewrite app_assoc| |done|done|].
  - rewrite length_app, Hfs1, Hfs2. f_equal.
    + apply matrix_size; [done|]. intros k c xs Hk.
      destruct (Hrows1 k c xs Hk) as (row & ? & ? & _). by exists row.
    + apply matrix_size; [done|]. intros k c xs Hk.
      destruct (Hrows2 k c xs Hk) as (row & ? & ? & _). by exists row.
  - rewrite fmap_cons. cbn [concat folders_of].
    change (List.map folders_of tej) with (folders_of <$> tej).
    rewrite length_app.
    rewrite (RebindFacts.folders_of_groups tej Hc_te Hs_te).
    rewrite (RebindFacts.folders_of_groups trj Hc_tr Hs_tr).
    rewrite !length_fmap.
    rewrite (joined_size _ _ _ _ _ Hjte Hrow_te).
    rewrite (joined_size _ _ _ _ _ Hjtr Hrow_tr).
    by rewrite Hlr1, Hlr2, Hl1, Hl2.
Qed.

End Storage.

Lemma construction_finishes_when_no_group_is_shorter_witness :
  exists datasets h,
    init Fixtures.same_path Fixtures.kennel (TrainDict Fixtures.ragged)
      (TestDict Worlds.ragged_test) "./data/" true true []
    = Done datasets h /\
    length datasets = 2%nat.
Proof.
  destruct (train_matrix Fixtures.same_path Fixtures.kennel "./data/" true
              Augmenting Fixtures.ragged []) as [mtr h1|e h1] eqn:E1;
    [|vm_compute in E1; discriminate].
  destruct (test_matrix Fixtures.same_path Fixtures.kennel "./data/" true
              Worlds.ragged_test h1) as [mte h|e h] eqn:E2.
  2:{ vm_compute in E1. injection E1 as <- <-. vm_compute in E2.
      discriminate. }
  destruct (construction_finishes_when_no_group_is_shorter Fixtures.same_path
              Fixtures.kennel Fixtures.ragged Worlds.ragged_test "./data/"
              true true [] h1 h mtr mte ["bulldog"] ["bulldog"]
              [("desert", 1%Z)] ["snow"] E1 E2 eq_refl eq_refl)
    as (datasets & Hrun & Hlen).
  - discriminate.
  - intros [|[|k]] classes pls Hk; simplify_eq/=; lia.
  - intros [|[|k]] classes locs Hk; simplify_eq/=; lia.
  - by exists datasets, h.
Defined.

Lemma shorter_class_group_raises_index_error_witness :
  exists h1,
    init Fixtures.same_path Fixtures.kennel (TrainDict Worlds.short_second)
      (TestDict Fixtures.small_test) "./data/" true true []
    = Raised IndexError h1.
Proof.
  destruct (train_matrix Fixtures.same_path Fixtures.kennel "./data/" true
              Augmenting Worlds.short_second []) as [m h1|e h1] eqn:E.
  - exists h1.
    destruct (shorter_class_group_raises_index_error Fixtures.same_path
                Fixtures.kennel Worlds.short_second
                (TestDict Fixtures.small_test) "./data/" true true []
                ["bulldog"] ["corgi"] [("desert", 1%Z); ("jungle", 1%Z)]
                [("desert", 1%Z)] 1) as [_ Hraise];
      [reflexivity|reflexivity|simpl; lia|].
    exact (Hraise m h1 E).
  - vm_compute in E. discriminate.
Defined.

Lemma init_scans_every_placement_witness :
  exists datasets h,
    init Fixtures.same_path Fixtures.kennel (TrainDict Fixtures.ragged)
      (TestDict Fixtures.small_test) "./data/" true true []
    = Done datasets h /\
    length h = 7%nat /\
    length (concat (folders_of <$> datasets)) = 6%nat.
Proof.
  destruct (init Fixtures.same_path Fixtures.kennel (TrainDict Fixtures.ragged)
              (TestDict Fixtures.small_test) "./data/" true true [])
    as [datasets h|e h] eqn:E; [|vm_compute in E; discriminate].
  destruct (init_scans_every_placement _ _ _ _ _ _ _ _ _ _ E)
    as (fs & c0 & p0 & c1 & l0 & -> & Hfs & Htr & Hte & Hread).
  injection Htr as <- <-. injection Hte as <- <-.
  exists datasets, fs. split; [done|]. split; [exact Hfs|exact Hread].
Defined.

End InitMore.

(** ** The path rebinder on records of any origin *)

Module RebindMore.
Import Py Benchmark Shape LoopFacts ResolverFacts RebindFacts LoopMore.

(** An absolute path stays absolute when the placeholder is removed. *)
Lemma replace_absolute (old new rest : string) :
  startswith old (String "/" rest) = false ->
  replace old new (String "/" rest)
  = String "/" (replace_from old new 0 rest).
Proof. intros H. unfold replace. cbn [replace_from]. by rewrite H. Qed.

Lemma startswith_slash (p : string) :
  startswith "/" p = true -> exists rest, p = String "/" rest.
Proof.
  unfold startswith. destruct p as [|c rest]; cbn [String.prefix]; [done|].
  destruct (Ascii.ascii_dec "/" c) as [<-|]; [by exists rest|done].
Qed.

Lemma rebase_absolute_run (to_prepend p : string) :
  startswith "/" p = true ->
  rebase to_prepend p = replace "./data/" "" p /\
  startswith "/" (replace "./data/" "" p) = true.
Proof.
  intros [rest ->]%startswith_slash. unfold rebase.
  rewrite replace_absolute by reflexivity.
  unfold os_path_join, startswith. simpl.
  by destruct (replace_from _ _ _ rest).
Qed.

(** X15: an absolute path ignores the new root.  For a path that starts
    with a slash, [prepend_path] yields the path with the occurrences of
    the placeholder removed, whatever root is given ([os.path.join]
    drops its first argument when the second is absolute); the result is
    absolute again, so a record built under an absolute root cannot be
    moved by [prepend_path]. *)
Theorem absolute_paths_ignore_new_root (to_prepend to_prepend' p : string) :
  startswith "/" p = true ->
  rebase to_prepend p = replace "./data/" "" p /\
  rebase to_prepend p = rebase to_prepend' p /\
  startswith "/" (rebase to_prepend p) = true.
Proof.
  intros Hp.
  destruct (rebase_absolute_run to_prepend p Hp) as [H1 H2].
  destruct (rebase_absolute_run to_prepend' p Hp) as [H1' _].
  split; [done|]. split; [congruence|]. by rewrite H1.
Qed.

Lemma absolute_paths_ignore_new_root_witness :
  rebase "/mnt/disk" "/srv/spawrious/0/desert/"
  = replace "./data/" "" "/srv/spawrious/0/desert/" /\
  rebase "/mnt/disk" "/srv/spawrious/0/desert/"
  = rebase "elsewhere" "/srv/spawrious/0/desert/" /\
  startswith "/" (rebase "/mnt/disk" "/srv/spawrious/0/desert/") = true.
Proof.
  apply (absolute_paths_ignore_new_root "/mnt/disk" "elsewhere"
           "/srv/spawrious/0/desert/").
  reflexivity.
Defined.

(** The heap after the folders at [refs] have been rewritten in turn:
    each folder is rewritten as often as it is referred to. *)
Lemma walk_count (to_prepend : string) (refs : list nat) :
  forall (h : heap) (r : nat),
    foldl (fun h r => alter (rebased to_prepend) r h) h refs !! r
    = Nat.iter (length (filter (eq r) refs)) (rebased to_prepend) <$> h !! r.
Proof.
  induction refs as [|a refs IH]; intros h r.
  - simpl. by destruct (h !! r).
  - cbn [foldl]. rewrite IH.
    destruct (decide (r = a)) as [->|Hne].
    + rewrite filter_cons_True by done.
      rewrite list_lookup_alter, decide_True by done.
      cbn [length]. destruct (h !! a) as [f|]; [|done]. simpl. f_equal.
      by rewrite <- Nat.iter_succ_r.
    + rewrite filter_cons_False by done. by rewrite list_lookup_alter_ne.
Qed.

(** X16: on any record whose groups are [ConcatDataset]s of subsets
    over image folders that exist (as a pickled snapshot may hold),
    [prepend_path] finishes, keeps the number of folders, and rewrites
    each folder once per subset that refers to it: a folder shared by
    [n] subsets has its root and its sample paths rewritten [n] times,
    a folder no subset refers to is left alone. *)
Theorem prepend_path_rewrites_once_per_reference
    (test_groups train_groups : list dataset) (to_prepend : string)
    (h : heap) :
  Forall (fun one => exists col, one = DConcat col)
    (test_groups ++ train_groups) ->
  Forall (fun d => exists indices,
              d = DSubset (DFolder (folder_ref d)) indices /\
              (folder_ref d < length h)%nat)
    (concat (parts <$> (test_groups ++ train_groups))) ->
  exists h',
    prepend_path (DConcat test_groups :: train_groups) to_prepend h
    = Done tt h' /\
    length h' = length h /\
    forall r,
      h' !! r
      = Nat.iter
          (length
             (filter (eq r)
                (folder_ref <$>
                   concat (parts <$> (test_groups ++ train_groups)))))
          (rebased to_prepend) <$> h !! r.
Proof.
  intros Hones Hgood.
  destruct (outer_loop_run to_prepend _ h Hones Hgood) as [us Hus].
  eexists. split_and!.
  - rewrite prepend_path_run. by rewrite Hus.
  - apply walk_length.
  - intros r. apply walk_count.
Qed.

Lemma prepend_path_rewrites_once_per_reference_witness :
  exists h',
    prepend_path Worlds.shared_record "new" Worlds.shared_heap = Done tt h' /\
    root <$> h' !! 0%nat = Some "new/new/0/desert/".
Proof.
  destruct (prepend_path_rewrites_once_per_reference
              [DConcat [DSubset (DFolder 0) [0%nat]]]
              [DConcat [DSubset (DFolder 0) [1%nat]]] "new" Worlds.shared_heap)
    as (h' & Hrun & _ & Hlook).
  - repeat constructor; by eexists.
  - repeat constructor; eexists; (split; [reflexivity|simpl; lia]).
  - exists h'. split; [exact Hrun|]. rewrite Hlook. reflexivity.
Defined.

(** A loop over two lists in a row. *)
Lemma for_each_app {S A B} (f : A -> M S B) (xs ys : list A) :
  forall s : S,
    for_each f (xs ++ ys) s
    = match for_each f xs s with
      | Done us s1 =>
          match for_each f ys s1 with
          | Done vs s2 => Done (us ++ vs) s2
          | Raised e s2 => Raised e s2
          end
      | Raised e s1 => Raised e s1
      end.
Proof.
  induction xs as [|x xs IH]; intros s.
  - simpl. unfold ret. by destruct (for_each f ys s).
  - rewrite <- app_comm_cons, !for_each_cons.
    destruct (f x s) as [y s1|e s1]; [|done]. rewrite IH.
    destruct (for_each f xs s1) as [us s2|e s2]; [|done].
    by destruct (for_each f ys s2).
Qed.

(** The loop of [prepend_path] stops at a group that is an image
    folder: it has no attribute [datasets]. *)
Lemma outer_loop_folder (to_prepend : string) (r : nat) (rest : list dataset)
    (h : heap) :
  for_each
    (fun one =>
       bind (attr_datasets one)
         (fun twos => for_each (rebase_folder to_prepend) twos))
    (DFolder r :: rest) h
  = Raised AttributeError h.
Proof. by rewrite for_each_cons. Qed.

Section Storage.

Variable expanduser : string -> string.
Variable listing : string -> option (gmap string nat * list sample).

(** The lists of image folders of the list-shaped inputs. *)
Lemma folder_list_head {A} (path : A -> string) (t : transform) :
  forall (xs : list A) (h : heap) (ds : list dataset) (h' : heap),
    for_each
      (fun x =>
         bind (new_ImageFolder expanduser listing (path x) t)
           (fun data => ret (DFolder data)))
      xs h = Done ds h' ->
    length ds = length xs /\
    forall d, head ds = Some d -> exists r, d = DFolder r.
Proof.
  intros xs h ds h' H. split; [by eapply for_each_length|].
  destruct xs as [|x xs]; [by injection H as <- _|].
  rewrite for_each_cons in H. unfold bind at 1 in H.
  destruct (new_ImageFolder _ _ _ _ h) as [r h1|e h1]; [|done].
  unfold ret at 1 in H.
  destruct (for_each _ xs h1) as [ds1 h2|e h2]; [|done].
  injection H as <- _. intros d [= <-]. by exists r.
Qed.

Lemma folder_enum_head (path : nat -> string -> string) (t : transform) :
  forall (xs : list string) (i : nat) (h : heap) (ds : list dataset)
         (h' : heap),
    for_enumerate
      (fun ind x =>
         bind (new_ImageFolder expanduser listing (path ind x) t)
           (fun data => ret (DFolder data)))
      i xs h = Done ds h' ->
    forall d, head ds = Some d -> exists r, d = DFolder r.
Proof.
  intros [|x xs] i h ds h' H; [by injection H as <- _|].
  simpl in H. unfold bind at 1, bind at 1 in H.
  destruct (new_ImageFolder _ _ _ _ h) as [r h1|e h1]; [|done].
  unfold ret at 1, bind at 1 in H.
  destruct (for_enumerate _ _ xs h1) as [ds1 h2|e h2]; [|done].
  injection H as <- _. intros d [= <-]. by exists r.
Qed.

(** X17: a record built with a list-shaped test input cannot be
    rebased: [prepend_path] raises AttributeError at the first test
    dataset, an image folder without the attribute [datasets], and no
    folder has been rewritten by then. *)
Theorem list_shaped_test_record_is_not_rebased (train : train_combinations)
    (locations : list string) (root_dir : string) (augment type1 : bool)
    (h0 h : heap) (datasets : list dataset) (to_prepend : string) :
  init expanduser listing train (TestList locations) root_dir augment type1 h0
  = Done datasets h ->
  prepend_path datasets to_prepend h = Raised AttributeError h.
Proof.
  unfold init, bind at 1.
  match goal with
  | |- context [match ?c h0 with Done _ _ => _ | Raised _ _ => _ end] =>
      destruct (c h0) as [trl h1|e h1]; [|done]
  end.
  unfold bind at 1.
  destruct (for_enumerate _ 0 locations h1) as [tl h2|e h2] eqn:E; [|done].
  pose proof (folder_enum_head _ _ _ _ _ _ _ E) as Hhead.
  unfold bind, ConcatDataset. destruct tl as [|d tl]; [done|].
  intros [= <- <-]. destruct (Hhead d eq_refl) as [r ->].
  rewrite prepend_path_run, <- app_comm_cons. by rewrite outer_loop_folder.
Qed.

(** X18: a record built from a non-empty list of training locations
    and a test mapping is rebased by half: [prepend_path] rewrites
    every folder of the test dataset and then raises AttributeError at
    the first training dataset, an image folder; the training folders
    keep their old paths. *)
Theorem list_shaped_training_record_is_half_rebased
    (locations : list string) (te : list (list string * list string))
    (root_dir : string) (augment type1 : bool) (h0 h : heap)
    (datasets : list dataset) (to_prepend : string) :
  locations <> [] ->
  init expanduser listing (TrainList locations) (TestDict te) root_dir augment
    type1 h0 = Done datasets h ->
  exists test_groups train h',
    datasets = DConcat test_groups :: train /\
    prepend_path datasets to_prepend h = Raised AttributeError h' /\
    length h' = length h /\
    (forall r, r ∈ folders_of (DConcat test_groups) ->
       exists f, h !! r = Some f /\ h' !! r = Some (rebased to_prepend f)) /\
    (forall r, r ∉ folders_of (DConcat test_groups) -> h' !! r = h !! r).
Proof.
  intros Hne. unfold init, bind at 1.
  destruct (for_each _ locations h0) as [trl h1|e h1] eqn:E1; [|done].
  destruct (folder_list_head _ _ _ _ _ _ E1) as [Hlen Hhead].
  unfold bind at 1, bind at 1.
  destruct (test_matrix _ _ _ _ te h1) as [mte h2|e h2] eqn:E3; [|done].
  destruct (join_groups mte h2) as [tej h2'|e h2'] eqn:E4; [|done].
  pose proof (join_groups_done _ _ _ _ E4) as [-> _].
  unfold bind, ConcatDataset. destruct tej as [|t0 tej0] eqn:Et; [done|].
  rewrite <- Et in *. clear Et t0 tej0. intros [= <- <-].
  destruct trl as [|d trl]; [by destruct locations|].
  destruct (Hhead d eq_refl) as [r0 ->].
  destruct (visited_parts _ _ _ _ _ _ _ _ _
              (test_placement_done expanduser listing root_dir type1) E3 E4)
    as (Hc & Hs & Hle & Hsub).
  assert (Hrange : forall r, r ∈ folder_ref <$> concat (parts <$> tej) ->
            (r < length h2)%nat).
  { intros r Hr. apply (elem_of_submseteq _ _ _ Hr) in Hsub.
    apply elem_of_seq in Hsub. lia. }
  assert (Hnd : NoDup (folder_ref <$> concat (parts <$> tej))).
  { eapply NoDup_submseteq_l; [exact Hsub|apply NoDup_seq]. }
  assert (Hgood : Forall (fun d => exists indices,
                     d = DSubset (DFolder (folder_ref d)) indices /\
                     (folder_ref d < length h2)%nat)
                    (concat (parts <$> tej))).
  { apply Forall_forall. intros d Hd.
    rewrite Forall_forall in Hs. destruct (Hs d Hd) as [idx Hidx].
    exists idx. split; [done|]. apply Hrange.
    apply list_elem_of_fmap. by exists d. }
  destruct (outer_loop_run to_prepend tej h2 Hc Hgood) as [us Hus].
  assert (Hreach : folders_of (DConcat tej)
                   = folder_ref <$> concat (parts <$> tej)).
  { cbn [folders_of].
    change (List.map folders_of tej) with (folders_of <$> tej).
    by apply folders_of_groups. }
  eexists tej, _, _. split; [done|]. split_and!.
  - rewrite prepend_path_run, for_each_app, Hus.
    by rewrite outer_loop_folder.
  - apply walk_length.
  - rewrite Hreach. intros r Hr.
    destruct (lookup_lt_is_Some_2 h2 r (Hrange r Hr)) as [f Hf].
    exists f. split; [done|].
    rewrite (walk_lookup _ _ Hnd), decide_True by done. by rewrite Hf.
  - rewrite Hreach. intros r Hr.
    by rewrite (walk_lookup _ _ Hnd), decide_False by done.
Qed.

End Storage.

Lemma list_shaped_test_record_is_not_rebased_witness :
  exists datasets h,
    init Fixtures.same_path Fixtures.kennel (TrainList ["desert"])
      (TestList ["beach"; "snow"]) "./data/" true false []
    = Done datasets h /\
    prepend_path datasets "/new" h = Raised AttributeError h.
Proof.
  destruct (init Fixtures.same_path Fixtures.kennel (TrainList ["desert"])
              (TestList ["beach"; "snow"]) "./data/" true false [])
    as [datasets h|e h] eqn:E; [|vm_compute in E; discriminate].
  exists datasets, h. split; [done|].
  exact (list_shaped_test_record_is_not_rebased _ _ _ _ _ _ _ _ _ _ "/new" E).
Defined.

Lemma list_shaped_training_record_is_half_rebased_witness :
  exists datasets h h',
    init Fixtures.same_path Fixtures.kennel (TrainList ["desert"])
      (TestDict Fixtures.small_test) "./data/" true false []
    = Done datasets h /\
    prepend_path datasets "/new" h = Raised AttributeError h' /\
    length h' = length h.
Proof.
  destruct (init Fixtures.same_path Fixtures.kennel (TrainList ["desert"])
              (TestDict Fixtures.small_test) "./data/" true false [])
    as [datasets h|e h] eqn:E; [|vm_compute in E; discriminate].
  destruct (list_shaped_training_record_is_half_rebased _ _ ["desert"] _ _ _ _
              _ _ _ "/new" ltac:(discriminate) E)
    as (tg & tr & h' & _ & Hrun & Hlen & _).
  by exists datasets, h, h'.
Defined.

End RebindMore.

(** ** The load entry point as a composition *)

Module EntryMore.
Import Py Archive Entry ArchiveFacts.

(** After a finished run of the public download entry point, a further
    run does nothing but the call of [os.makedirs], whatever the host
    and the archives are like by then. *)
Lemma download_again (remote remote' : string -> fetch_outcome)
    (unpacks unpacks' : string -> bool) (name root_dir : string)
    (d d1 : disk) :
  download_spawrious_dataset remote unpacks name root_dir d = Done tt d1 ->
  download_spawrious_dataset remote' unpacks' name root_dir d1
  = Done tt (Disk (files d1) (trace d1 ++ [EvMakedirs root_dir])).
Proof.
  unfold download_spawrious_dataset.
  destruct (bool_decide _); [|done]. unfold bind, log, modify.
  intros H.
  destruct (download_done _ _ _ _ _ _ _ H) as (u & Hu & Hcase).
  apply (listed_is_noop remote' unpacks') with u; [done|].
  destruct Hcase as [[-> Hx]|(_ & Hm & _)]; [done|].
  unfold is_extracted. simpl. rewrite Hm. by apply listed_after_mark with u.
Qed.

(** X19: a finished load is the composition of its three steps: the
    download step finished on the same disk, the name is one of the six
    with a snapshot, the snapshot under
    [<root>/spawrious224/<file>] was read, and [prepend_path] with the
    root as new prefix finished on it, the datasets returned being the
    snapshot's with the rewritten folders.  Loading again right after
    contacts no host and unpacks nothing, whatever the host and the
    archives are like by then: it only calls [os.makedirs] and returns
    the same record. *)
Theorem load_again_downloads_nothing
    (remote remote' : string -> fetch_outcome)
    (unpacks unpacks' : string -> bool)
    (torch_load : string -> option (list Benchmark.dataset * Benchmark.heap))
    (dataset_name root_dir : string) (d d1 : disk)
    (datasets : list Benchmark.dataset) (h' : Benchmark.heap) :
  get_torch_dataset remote unpacks torch_load dataset_name root_dir d
  = Done (datasets, h') d1 ->
  download_spawrious_dataset remote unpacks dataset_name root_dir d
  = Done tt d1 /\
  (exists filename h,
     filename_map !! lower dataset_name = Some filename /\
     torch_load (os_path_join (os_path_join root_dir "spawrious224") filename)
     = Some (datasets, h) /\
     Benchmark.prepend_path datasets root_dir h = Done tt h') /\
  get_torch_dataset remote' unpacks' torch_load dataset_name root_dir d1
  = Done (datasets, h') (Disk (files d1) (trace d1 ++ [EvMakedirs root_dir])).
Proof.
  unfold get_torch_dataset at 1, bind at 1.
  destruct (download_spawrious_dataset remote unpacks dataset_name root_dir d)
    as [[] d2|e d2] eqn:Ed; [|done].
  destruct (filename_map !! lower dataset_name) as [filename|] eqn:Ef; [|done].
  destruct (torch_load _) as [[ds h]|] eqn:El; [|done].
  destruct (Benchmark.prepend_path ds root_dir h) as [[] h1|e h1] eqn:Ep;
    [|done].
  intros [= <- <- <-]. split; [done|]. split.
  - by exists filename, h.
  - unfold get_torch_dataset, bind.
    rewrite (download_again _ remote' _ unpacks' _ _ _ _ Ed).
    by rewrite Ef, El, Ep.
Qed.

Lemma load_again_downloads_nothing_witness :
  exists d1 datasets h',
    get_torch_dataset Fixtures.serving Fixtures.sound
      (fun _ => Some (Worlds.shared_record, Worlds.shared_heap))
      "O2O_easy" "./data" Fixtures.empty_disk
    = Done (datasets, h') d1 /\
    get_torch_dataset Worlds.breaking Fixtures.damaged
      (fun _ => Some (Worlds.shared_record, Worlds.shared_heap))
      "O2O_easy" "./data" d1
    = Done (datasets, h')
        (Disk (files d1) (trace d1 ++ [EvMakedirs "./data"])).
Proof.
  destruct (get_torch_dataset Fixtures.serving Fixtures.sound
              (fun _ => Some (Worlds.shared_record, Worlds.shared_heap))
              "O2O_easy" "./data" Fixtures.empty_disk)
    as [[datasets h'] d1|e d1] eqn:E; [|vm_compute in E; discriminate].
  exists d1, datasets, h'. split; [done|].
  exact (proj2 (proj2 (load_again_downloads_nothing _ Worlds.breaking _
                         Fixtures.damaged _ _ _ _ _ _ _ E))).
Defined.

End EntryMore.

(** ** The catalog variants and the container interface *)

Module CatalogMore.
Import Py Benchmark Shape LoopFacts ResolverFacts ScanFacts RecordFacts.

(** [xs[index]] finishes exactly for the indices from [-len(xs)] up to
    [len(xs) - 1], and leaves the state alone. *)
Lemma list_getitem_range {S A} (xs : list A) (index : Z) (s : S) :
  (exists x, Domain.list_getitem xs index s = Done x s) <->
  (- Z.of_nat (length xs) <= index < Z.of_nat (length xs))%Z.
Proof.
  unfold Domain.list_getitem.
  set (n := Z.of_nat (length xs)).
  set (i := if (index <? 0)%Z then (index + n)%Z else index).
  destruct ((0 <=? i)%Z && (i <? n)%Z) eqn:Eb.
  - apply andb_true_iff in Eb as [H1%Z.leb_le H2%Z.ltb_lt]. split.
    + intros _. unfold i in *. destruct (Z.ltb_spec index 0); lia.
    + intros _. unfold subscript.
      destruct (lookup_lt_is_Some_2 xs (Z.to_nat i)) as [x ->]; [lia|].
      by exists x.
  - split; [by intros [x Hx]|]. intros Hr. exfalso.
    apply andb_false_iff in Eb as [H1%Z.leb_gt|H2%Z.ltb_ge];
      unfold i in *; destruct (Z.ltb_spec index 0); lia.
Qed.

Section Storage.

Variable expanduser : string -> string.
Variable listing : string -> option (gmap string nat * list sample).

(** The shape of a record built from two mappings. *)
Lemma dict_record_shape (tr : list (list string * list placement))
    (te : list (list string * list string)) (root_dir : string)
    (augment type1 : bool) (h0 h : heap) (datasets : list dataset) :
  init expanduser listing (TrainDict tr) (TestDict te) root_dir augment type1 h0
  = Done datasets h ->
  exists tej trj classes_te locs0 classes0 pls0,
    datasets = DConcat tej :: trj /\
    te !! 0%nat = Some (classes_te, locs0) /\
    tr !! 0%nat = Some (classes0, pls0) /\
    length tej = length locs0 /\ length trj = length pls0 /\
    Forall (fun one => exists col, one = DConcat col /\ length col = length te)
      tej /\
    Forall (fun one => exists col, one = DConcat col /\ length col = length tr)
      trj.
Proof.
  intros H.
  apply init_dict_done in H
    as (mtr & h1 & mte & trj & tej & Htr & Hte & Hjtr & Hjte & ->).
  destruct (groups_done _ _
              (train_placement_done expanduser listing root_dir type1
                 (if augment then Augmenting else Plain))
              _ _ _ _ _ _ _ Htr Hjtr) as (c0 & pls0 & H0 & Hl0 & Hcols0).
  destruct (groups_done _ _
              (test_placement_done expanduser listing root_dir type1)
              _ _ _ _ _ _ _ Hte Hjte) as (c1 & locs0 & H1 & Hl1 & Hcols1).
  exists tej, trj, c1, locs0, c0, pls0. split_and!; try done.
  - apply Forall_lookup. intros g one Hg.
    destruct (Hcols1 g) as (col & Hc & Hlen & _).
    { rewrite <- Hl1. by eapply lookup_lt_Some. }
    exists col. split; [congruence|done].
  - apply Forall_lookup. intros g one Hg.
    destruct (Hcols0 g) as (col & Hc & Hlen & _).
    { rewrite <- Hl0. by eapply lookup_lt_Some. }
    exists col. split; [congruence|done].
Qed.

(** What a placement of a single class with a cap of at least one
    keeps. *)
Lemma single_class_kept (root_dir : string) (type1 : bool) (t : transform)
    (c : string) (ind : nat) (location : string) (cap : Z)
    (f : ImageFolder) (indices : list nat) :
  (1 <= cap)%Z ->
  train_placed expanduser listing root_dir type1 t [c] ind (location, cap)
    f indices ->
  exists ci,
    class_to_idx f !! c = Some ci /\
    indices = take (Z.to_nat cap)
                (positions_of_class ci (List.map snd (samples f)) 0) /\
    root f = expanduser (placement_path root_dir type1 ind location) /\
    transform_of f = t.
Proof.
  intros Hcap (cidx & (Hl & Hroot & Ht & HF) & ->).
  apply Forall2_cons_inv_l in HF as (ci & rest & Hci & Hrest & ->).
  apply Forall2_nil_inv_l in Hrest as ->.
  exists ci. split_and!; try done.
  rewrite train_keep_first_cap by done. unfold spec_train_keep. simpl.
  by rewrite app_nil_r.
Qed.

(** X20: the record of every catalog variant has one dataset per name
    in [ENVIRONMENTS]: the test dataset, joining two groups of four
    parts, followed by two joint training datasets of five parts (the
    four classes and the filler) for a Type-1 variant and of four parts
    for a Type-2 variant.  [__len__] is 3, and [__getitem__] finishes
    exactly for the indices -3 to 2. *)
Theorem catalog_record_matches_environments (v : variant) (root_dir : string)
    (data_augmentation : bool) (h0 h : heap) (datasets : list dataset) :
  SpuriousLocation expanduser listing v root_dir data_augmentation h0
  = Done datasets h ->
  Domain.len_datasets datasets = length Domain.ENVIRONMENTS /\
  (exists tg1 tg2 joint1 joint2,
     datasets = [DConcat [DConcat tg1; DConcat tg2];
                 DConcat joint1; DConcat joint2] /\
     length tg1 = 4%nat /\ length tg2 = 4%nat /\
     length joint1 = (if is_type1 v then 5 else 4)%nat /\
     length joint2 = (if is_type1 v then 5 else 4)%nat) /\
  forall (S : Type) (s : S) (index : Z),
    (exists d, Domain.getitem_dataset datasets index s = Done d s) <->
    (-3 <= index < 3)%Z.
Proof.
  intros H. unfold SpuriousLocation, bind in H.
  destruct (combinations_of v h0) as [[tr te] h1|e h1] eqn:Ec; [|done].
  cbn [fst snd] in H.
  assert (Hshape : exists tg1 tg2 joint1 joint2,
            datasets = [DConcat [DConcat tg1; DConcat tg2];
                        DConcat joint1; DConcat joint2] /\
            length tg1 = 4%nat /\ length tg2 = 4%nat /\
            length joint1 = (if is_type1 v then 5 else 4)%nat /\
            length joint2 = (if is_type1 v then 5 else 4)%nat).
  { destruct v; vm_compute in Ec; injection Ec as <- <- <-;
      apply dict_record_shape in H
        as (tej & trj & c1 & locs0 & c0 & pls0 & -> & H1 & H0 & Hl1 & Hl0
            & HF1 & HF0);
      injection H1 as <- <-; injection H0 as <- <-;
      destruct tej as [|a [|b [|? ?]]]; try done;
      destruct trj as [|j1 [|j2 [|? ?]]]; try done;
      apply Forall_cons in HF1 as [(tg1 & -> & ?) HF1];
      apply Forall_cons in HF1 as [(tg2 & -> & ?) _];
      apply Forall_cons in HF0 as [(joint1 & -> & ?) HF0];
      apply Forall_cons in HF0 as [(joint2 & -> & ?) _];
      by exists tg1, tg2, joint1, joint2. }
  destruct Hshape as (tg1 & tg2 & joint1 & joint2 & -> & Hrest).
  split; [done|]. split; [by exists tg1, tg2, joint1, joint2|].
  intros S s index. unfold Domain.getitem_dataset.
  by rewrite list_getitem_range.
Qed.

(** X21: in the record of a Type-2 variant the two joint training
    datasets take the four classes from the locations of the group
    list, the second with the locations swapped in pairs; every part
    reads the directory [0/<location>/] under the root (for both
    groups: the group index enters the path only for Type 1) and keeps
    the first 3168 items of its class, or all of them when there are
    fewer. *)
Theorem type2_groups_swap_locations (v : variant) (root_dir : string)
    (data_augmentation : bool) (h0 h : heap) (datasets : list dataset) :
  is_type1 v = false ->
  SpuriousLocation expanduser listing v root_dir data_augmentation h0
  = Done datasets h ->
  exists a b c d,
    group_of v = [a; b; c; d] /\
    forall g locs, [[a; b; c; d]; [b; a; d; c]] !! g = Some locs ->
      exists col,
        datasets !! S g = Some (DConcat col) /\ length col = 4%nat /\
        forall k cls loc,
          four_classes !! k = Some cls -> locs !! k = Some loc ->
          exists r f ci,
            col !! k
            = Some (DSubset (DFolder r)
                      (take (Z.to_nat total)
                         (positions_of_class ci
                            (List.map snd (samples f)) 0))) /\
            h !! r = Some f /\
            root f
            = expanduser (os_path_join root_dir ("0/" +:+ loc +:+ "/")) /\
            class_to_idx f !! cls = Some ci.
Proof.
  intros Hv H. unfold SpuriousLocation, bind in H.
  destruct (combinations_of v h0) as [[tr te] h1|e h1] eqn:Ec; [|done].
  cbn [fst snd] in H.
  destruct v; try discriminate Hv;
    vm_compute in Ec; injection Ec as <- <- <-;
    change (is_type1 _) with false in H;
    destruct (train_groups_done _ _ _ _ _ _ _ _ _ _ H)
      as (c0 & pls0 & H0 & _ & Hcols);
    injection H0 as <- <-;
    (eexists _, _, _, _; split; [reflexivity|]);
    intros g locs Hg;
    destruct g as [|[|g]]; try done; injection Hg as <-;
    (match goal with
     | |- context [datasets !! S ?g] =>
         destruct (Hcols g) as (col & Hcol & Hlen & Hp); [simpl; lia|]
     end);
    (exists col; split; [exact Hcol|]; split; [exact Hlen|]);
    intros k cls loc Hk Hl;
    destruct k as [|[|[|[|k]]]]; try done;
    injection Hk as <-; injection Hl as <-;
    (match goal with
     | |- context [@lookup nat dataset (list dataset) _ ?k _] =>
         destruct (Hp k _ _ eq_refl)
           as (p & r & f & indices & Hpl & Hck & Hf & HQ)
     end);
    injection Hpl as <-;
    (apply single_class_kept in HQ as (ci & Hci & -> & Hroot & _); [|done]);
    by exists r, f, ci.
Qed.

(** A training placement keeps at most [cap] items for each class of
    its class group. *)
Lemma placed_bound (root_dir : string) (type1 : bool) (t : transform)
    (classes : list string) (ind : nat) (location : string) (cap : Z)
    (f : ImageFolder) (indices : list nat) :
  (1 <= cap)%Z ->
  train_placed expanduser listing root_dir type1 t classes ind (location, cap)
    f indices ->
  (Z.of_nat (length indices) <= Z.of_nat (length classes) * cap)%Z.
Proof.
  intros Hcap (cidx & (_ & _ & _ & HF) & ->).
  rewrite (Forall2_length _ _ _ HF). clear HF. simpl.
  rewrite train_keep_first_cap by done. unfold spec_train_keep.
  induction cidx as [|c cs IH]; [simpl; lia|].
  cbn [List.map concat length]. rewrite length_app, length_take.
  rewrite Nat2Z.inj_succ, Z.mul_succ_l. lia.
Qed.

Local Ltac bound_part Hp k :=
  let p := fresh "p" in
  let r := fresh "r" in
  let f := fresh "f" in
  let idx := fresh "idx" in
  let Hpl := fresh "Hpl" in
  let Hck := fresh "Hck" in
  let HQ := fresh "HQ" in
  destruct (Hp k _ _ eq_refl) as (p & r & f & idx & Hpl & Hck & _ & HQ);
  injection Hpl as <-; injection Hck as ->;
  apply placed_bound in HQ; [|done].

(** X22: in the record of every catalog variant each joint training
    dataset has at most 4 x 3168 = 12672 items, whatever the
    directories hold: for Type 2 four parts capped at 3168, for Type 1
    four parts capped at 3072 (or 2756) and a filler part that keeps at
    most 96 (or 412) items of each of the four classes. *)
Theorem catalog_training_groups_are_bounded (v : variant) (root_dir : string)
    (data_augmentation : bool) (h0 h : heap) (datasets : list dataset)
    (g : nat) (d : dataset) :
  SpuriousLocation expanduser listing v root_dir data_augmentation h0
  = Done datasets h ->
  datasets !! S g = Some d ->
  (Z.of_nat (dataset_len h d) <= 4 * total)%Z.
Proof.
  intros H Hd. unfold SpuriousLocation, bind in H.
  destruct (combinations_of v h0) as [[tr te] h1|e h1] eqn:Ec; [|done].
  cbn [fst snd] in H.
  destruct v; vm_compute in Ec; injection Ec as <- <- <-.
  all: destruct (train_groups_done _ _ _ _ _ _ _ _ _ _ H)
         as (c0 & pls0 & H0 & Hlen & Hcols).
  all: injection H0 as <- <-.
  all: destruct g as [|[|g]];
         [| |apply lookup_lt_Some in Hd; simpl in Hlen; lia].
  all: match type of Hd with
       | _ !! S ?g = _ =>
           destruct (Hcols g) as (col & Hcol & Hcl & Hp); [simpl; lia|]
       end.
  all: rewrite Hd in Hcol; injection Hcol as ->.
  all: destruct col as [|q0 [|q1 [|q2 [|q3 rest]]]]; try done.
  all: try (destruct rest as [|q4 rest]; [done|]).
  all: destruct rest; [|done].
  all: bound_part Hp 0%nat; bound_part Hp 1%nat; bound_part Hp 2%nat;
         bound_part Hp 3%nat; try bound_part Hp 4%nat.
  all: unfold total; cbn [dataset_len List.map sum_list sum_list_with].
  all: cbn [length] in *; unfold id; lia.
Qed.

End Storage.

Lemma catalog_training_groups_are_bounded_witness :
  exists datasets h d,
    SpuriousLocation Fixtures.same_path Fixtures.kennel Type1_1 "./data/"
      true [] = Done datasets h /\
    datasets !! 1%nat = Some d /\
    (Z.of_nat (dataset_len h d) <= 4 * total)%Z.
Proof.
  destruct (SpuriousLocation Fixtures.same_path Fixtures.kennel Type1_1
              "./data/" true []) as [datasets h|e h] eqn:E;
    [|vm_compute in E; discriminate].
  destruct (datasets !! 1%nat) as [d|] eqn:Ed;
    [|vm_compute in E; injection E as <- _; discriminate].
  exists datasets, h, d. split; [done|]. split; [done|].
  exact (catalog_training_groups_are_bounded Fixtures.same_path
           Fixtures.kennel Type1_1 "./data/" true [] h datasets 0 d E Ed).
Defined.

Lemma catalog_record_matches_environments_witness :
  exists datasets h d,
    SpuriousLocation Fixtures.same_path Fixtures.kennel Type2_3 "./data/"
      true [] = Done datasets h /\
    Domain.len_datasets datasets = 3%nat /\
    Domain.getitem_dataset datasets (-1) h = Done d h.
Proof.
  destruct (SpuriousLocation Fixtures.same_path Fixtures.kennel Type2_3
              "./data/" true []) as [datasets h|e h] eqn:E;
    [|vm_compute in E; discriminate].
  destruct (catalog_record_matches_environments Fixtures.same_path
              Fixtures.kennel Type2_3 "./data/" true [] h datasets E)
    as (Hlen & _ & Hget).
  destruct (proj2 (Hget _ h (-1)%Z)) as [d Hd]; [lia|].
  by exists datasets, h, d.
Defined.

Lemma type2_groups_swap_locations_witness :
  exists datasets h col r f ci,
    SpuriousLocation Fixtures.same_path Fixtures.kennel Type2_1 "./data/"
      false [] = Done datasets h /\
    datasets !! 2%nat = Some (DConcat col) /\
    col !! 0%nat
    = Some (DSubset (DFolder r)
              (take (Z.to_nat total)
                 (positions_of_class ci (List.map snd (samples f)) 0))) /\
    h !! r = Some f /\ root f = "./data/0/jungle/".
Proof.
  destruct (SpuriousLocation Fixtures.same_path Fixtures.kennel Type2_1
              "./data/" false []) as [datasets h|e h] eqn:E;
    [|vm_compute in E; discriminate].
  destruct (type2_groups_swap_locations Fixtures.same_path Fixtures.kennel
              Type2_1 "./data/" false [] h datasets eq_refl E)
    as (a & b & c & d & Hgrp & Hall).
  injection Hgrp as <- <- <- <-.
  destruct (Hall 1%nat _ eq_refl) as (col & Hcol & _ & Hparts).
  destruct (Hparts 0%nat "bulldog" "jungle" eq_refl eq_refl)
    as (r & f & ci & Hk & Hf & Hroot & _).
  by exists datasets, h, col, r, f, ci.
Defined.

End CatalogMore.

(** ** What a run of the download operation never does *)

Module TraceMore.
Import Py Archive ArchiveFacts ArchiveMore.

Local Ltac in_cases H :=
  repeat (first
    [ apply elem_of_nil in H; destruct H
    | apply elem_of_cons in H as [H|H]; [try discriminate H|] ]).

(** A transfer followed by further steps. *)
Lemma fetch_bind_run {A} (remote : string -> fetch_outcome) (url tar : string)
    (k : unit -> M disk A) (d : disk) :
  bind (fetch remote url tar) k d
  = match remote url with
    | Unreachable => Raised (URLError url) d
    | Body content =>
        k tt (Disk (<[tar := content]> (files d)) (trace d ++ [EvFetch url tar]))
    | Broken partial =>
        Raised (URLError url) (Disk (<[tar := partial]> (files d)) (trace d))
    end.
Proof. unfold bind. rewrite fetch_run. by destruct (remote url). Qed.

(** X23: whatever its outcome, a run only adds events to the trace,
    and among the events it adds: a fetch is always of the URL that
    the table gives for the name, into the archive's path, and happens
    only when no file was at that path and the manifest did not list
    the name; a removal is always of the archive, and happens only with
    the removal flag set and in a run that finished (so after the
    extraction and before the manifest update). *)
Theorem run_never_fetches_or_removes_needlessly
    (remote : string -> fetch_outcome) (unpacks : string -> bool)
    (name data_dir : string) (rm : bool) (d : disk) :
  let n := normalize name in
  let tar := os_path_join data_dir ("spawrious__" +:+ n +:+ ".tar.gz") in
  let o := _download_dataset_if_not_available remote unpacks name data_dir
             rm d in
  exists evs,
    trace (final o) = (trace d ++ evs)%list /\
    (forall url dst, EvFetch url dst ∈ evs ->
       dst = tar /\ url_dict !! n = Some url /\ files d !! tar = None /\
       is_extracted n data_dir d = false) /\
    (forall p, EvRemove p ∈ evs ->
       p = tar /\ rm = true /\ raised o = None).
Proof.
  intros n tar o. unfold o. clear o. rewrite download_run.
  subst n tar.
  set (n := normalize name) in *.
  set (tar := os_path_join data_dir ("spawrious__" +:+ n +:+ ".tar.gz")) in *.
  destruct (url_dict !! n) as [url|] eqn:Eu.
  2:{ exists []. rewrite app_nil_r. split; [done|].
      split; intros; by in_cases H. }
  destruct (is_extracted n data_dir d) eqn:Ex.
  { exists []. rewrite app_nil_r. split; [done|].
    split; intros; by in_cases H. }
  destruct (files d !! tar) as [c|] eqn:Et.
  - rewrite (acquire_outcome unpacks n data_dir rm d c Et). fold tar.
    destruct (unpacks c), rm; simpl; eexists; (split; [reflexivity|]);
      split; intros; in_cases H; try done.
    by injection H as ->.
  - rewrite fetch_bind_run.
    destruct (remote url) as [content| |partial]; simpl.
    + rewrite (acquire_outcome unpacks n data_dir rm _ content); fold tar.
      2:{ simpl. by rewrite lookup_insert_eq. }
      destruct (unpacks content), rm; simpl; rewrite <- app_assoc;
        eexists; (split; [reflexivity|]);
        split; intros; in_cases H; try done;
        try (by injection H as -> ->); by injection H as ->.
    + exists []. rewrite app_nil_r. split; [done|].
      split; intros; by in_cases H.
    + exists []. rewrite app_nil_r. split; [done|].
      split; intros; by in_cases H.
Qed.

End TraceMore.
